(** * Baikal chlorophyll pipeline: a shallow embedding and its properties

    The development follows the three source files of the repository.

    - [src/create_rrs_table.py]: radiometric scaling ([scale_msi]), cloud
      masking ([mask_s2_clouds]) and the observation-to-imagery matcher
      ([preproc]).
    - [app.py]: the visualisation path, with its own [scale_msi],
      [mask_S2_clouds] and the chlorophyll index [calculate_oc3]
      (module [App]).
    - [src/data_preprocessing.py]: the degree-minute conversion
      (module [DataPreprocessing]).

    The imagery provider (Earth Engine) and pandas are not part of the
    repository.  The operations the code calls are modelled here after their
    documented behaviour, each with a comment that says what is assumed.
    Pixel values are rationals, and reals for the chlorophyll index, which
    takes logarithms: floating point arithmetic is idealised as exact
    arithmetic. *)

From Stdlib Require Import ZArith QArith Qround List String Ascii Bool Lia.
From Stdlib Require Import DecimalString Sorted.
From Stdlib Require DecimalN DecimalFacts.
From Stdlib Require Reals Lra.
Import ListNotations.
Open Scope string_scope.
Open Scope list_scope.
Open Scope Z_scope.

(** ** Python and provider errors *)

Inductive error : Type :=
| EEException   (* raised by the provider client, also for server-side errors *)
| ValueError
| KeyError
| TypeError
| NameError
| AttributeError
| OutsideModel.  (* not a Python exception: see [float_repr] *)

Inductive result (A : Type) : Type :=
| Ok (a : A)
| Err (e : error).
Arguments Ok {A} a.
Arguments Err {A} e.

Definition bind {A B : Type} (m : result A) (k : A -> result B) : result B :=
  match m with
  | Ok a => k a
  | Err e => Err e
  end.

Notation "x <- m ;; k" := (bind m (fun x => k))
  (at level 61, m at next level, right associativity).
Notation "' pat <- m ;; k" := (bind m (fun x => match x with pat => k end))
  (at level 61, pat pattern, m at next level, right associativity).


Fixpoint mapM {A B : Type} (f : A -> result B) (xs : list A) : result (list B) :=
  match xs with
  | [] => Ok []
  | x :: rest =>
      y <- f x ;;
      ys <- mapM f rest ;;
      Ok (y :: ys)
  end.

(** ** Images

    A location is a (longitude, latitude) pair.  A raster gives, at every
    location, the value of the pixel that covers it, or [None] where the pixel
    is masked ("no data").  An image is an ordered list of named bands plus the
    two properties the matcher filters on: the acquisition instant
    ([system:time_start], milliseconds since the epoch) and the footprint. *)

Definition point : Type := (Q * Q)%type.

Section Images.
Context {V : Type}.

Definition raster : Type := point -> option V.

Record Image : Type := mkImage {
  bands : list (string * raster);
  time_start : Z;
  footprint : point -> bool
}.

Definition with_bands (image : Image) (bs : list (string * raster)) : Image :=
  mkImage bs (time_start image) (footprint image).

Definition bandNames (image : Image) : list string := map fst (bands image).

Fixpoint find_band (n : string) (bs : list (string * raster)) : option raster :=
  match bs with
  | [] => None
  | (m, r) :: rest => if String.eqb m n then Some r else find_band n rest
  end.

(** [image.select(names)]: the named bands, in the order asked for.  The
    provider rejects a name that matches no band. *)
Fixpoint select_bands (names : list string) (bs : list (string * raster))
  : result (list (string * raster)) :=
  match names with
  | [] => Ok []
  | n :: ns =>
      match find_band n bs with
      | None => Err EEException
      | Some r => rest <- select_bands ns bs ;; Ok ((n, r) :: rest)
      end
  end.

Definition select (names : list string) (image : Image) : result Image :=
  bs <- select_bands names (bands image) ;;
  Ok (with_bands image bs).

(** [image.select([old], [new])]: selection with renaming. *)
Definition select_as (old new : string) (image : Image) : result Image :=
  match find_band old (bands image) with
  | None => Err EEException
  | Some r => Ok (with_bands image [(new, r)])
  end.

(** A pixelwise operation with a constant operand ([multiply(c)],
    [bitwiseAnd(c)], [eq(c)], [gt(c)], [log10()], ...): band names and masks
    are kept. *)
Definition map_pixels (f : V -> V) (image : Image) : Image :=
  with_bands image
    (map (fun b : string * raster => (fst b, fun p => option_map f (snd b p)))
         (bands image)).

(** A pixelwise operation between two images.  A single-band operand is
    used against every band of the other one; otherwise the bands are
    paired in order.  The output bands carry the names of the longer
    operand, the first one's when the lengths agree.  A pixel of the output
    is valid only where both operands are. *)
Definition lift2 (f : V -> V -> V) (r1 r2 : raster) : raster :=
  fun p =>
    match r1 p, r2 p with
    | Some a, Some b => Some (f a b)
    | _, _ => None
    end.

Definition binop (f : V -> V -> V) (a b : Image) : result Image :=
  match bands a, bands b with
  | [(n, r)], [(_, s)] => Ok (with_bands a [(n, lift2 f r s)])
  | bs, [(_, s)] =>
      Ok (with_bands a
            (map (fun x : string * raster => (fst x, lift2 f (snd x) s)) bs))
  | [(_, r)], cs =>
      Ok (with_bands a
            (map (fun x : string * raster => (fst x, lift2 f r (snd x))) cs))
  | bs, cs =>
      if Nat.eqb (List.length bs) (List.length cs)
      then Ok (with_bands a
                 (map (fun x : (string * raster) * (string * raster) =>
                         (fst (fst x), lift2 f (snd (fst x)) (snd (snd x))))
                      (combine bs cs)))
      else Err EEException
  end.

(** [dst.addBands(src, None, overwrite)]: every band of [src] is added to
    [dst].  A band whose name [dst] already has replaces it in place when
    [overwrite] is set, and is appended under a suffixed name otherwise. *)
Definition has_band (n : string) (bs : list (string * raster)) : bool :=
  match find_band n bs with Some _ => true | None => false end.

Definition replace_band (n : string) (r : raster) (bs : list (string * raster))
  : list (string * raster) :=
  map (fun b : string * raster => if String.eqb (fst b) n then (fst b, r) else b) bs.

Definition add_band (overwrite : bool) (bs : list (string * raster))
           (b : string * raster) : list (string * raster) :=
  if has_band (fst b) bs
  then if overwrite then replace_band (fst b) (snd b) bs
       else bs ++ [((fst b ++ "_1")%string, snd b)]
  else bs ++ [b].

Definition addBands (dst src : Image) (overwrite : bool) : Image :=
  with_bands dst (fold_left (add_band overwrite) (bands src) (bands dst)).

(** [image.updateMask(mask)]: a pixel of the output is valid where it was
    valid in [image] and the mask is valid and non-zero there.  A
    single-band mask applies to every band, otherwise band by band. *)
Definition apply_mask (nonzero : V -> bool) (m r : raster) : raster :=
  fun p =>
    match m p with
    | Some v => if nonzero v then r p else None
    | None => None
    end.

Definition updateMask (nonzero : V -> bool) (image mask : Image) : result Image :=
  match bands mask with
  | [(_, m)] =>
      Ok (with_bands image
            (map (fun b : string * raster => (fst b, apply_mask nonzero m (snd b)))
                 (bands image)))
  | ms =>
      if Nat.eqb (List.length ms) (List.length (bands image))
      then Ok (with_bands image
                 (map (fun x : (string * raster) * (string * raster) =>
                         (fst (fst x), apply_mask nonzero (snd (snd x)) (snd (fst x))))
                      (combine (bands image) ms)))
      else Err EEException
  end.

(** [image.clip(region)]: pixels outside the region are masked. *)
Definition clip (region : point -> bool) (image : Image) : Image :=
  with_bands image
    (map (fun b : string * raster =>
            (fst b, fun p => if region p then snd b p else None))
         (bands image)).

(** [image.reduce(reducer)]: one output band, computed at every pixel from
    the values of the bands that are valid there. *)
Definition valid_values (bs : list (string * raster)) (p : point) : list V :=
  flat_map (fun b : string * raster =>
              match snd b p with Some v => [v] | None => [] end) bs.

Definition reduce_bands (name : string) (f : list V -> option V) (image : Image)
  : Image :=
  with_bands image [(name, fun p => f (valid_values (bands image) p))].

End Images.

Arguments raster V : clear implicits.
Arguments Image V : clear implicits.

(** ** Pixel arithmetic on rationals *)

Definition Qgtb (a b : Q) : bool := negb (Qle_bool a b).
Definition Qnonzero (a : Q) : bool := negb (Qeq_bool a 0).
Definition of_bool (b : bool) : Q := if b then 1%Q else 0%Q.

Definition qmin (a b : Q) : Q := if Qle_bool a b then a else b.

Definition min_of (vs : list Q) : option Q :=
  match vs with
  | [] => None
  | v :: rest => Some (fold_left qmin rest v)
  end.

(** [ee.Reducer.min()] across bands; the output band is named after the
    reducer. *)
Definition reduce_min (image : Image Q) : Image Q := reduce_bands "min" min_of image.

Definition multiply (c : Q) (image : Image Q) : Image Q :=
  map_pixels (fun v => (v * c)%Q) image.

(** Bitwise operations act on the integer a pixel holds. *)
Definition bitwiseAnd (c : Z) (image : Image Q) : Image Q :=
  map_pixels (fun v => inject_Z (Z.land (Qfloor v) c)) image.

Definition eq_const (c : Q) (image : Image Q) : Image Q :=
  map_pixels (fun v => of_bool (Qeq_bool v c)) image.

Definition gt_const (c : Q) (image : Image Q) : Image Q :=
  map_pixels (fun v => of_bool (Qgtb v c)) image.

Definition And (a b : Image Q) : result (Image Q) :=
  binop (fun x y => of_bool (Qnonzero x && Qnonzero y)) a b.

(** ** src/create_rrs_table.py: scaling and masking *)

Definition optical_bands : list string :=
  ["B2"; "B3"; "B4"; "B5"; "B6"; "B7"; "B8"; "B8A"].

Definition scale_factor : Q := 1 # 10000.

Definition scale_msi (image : Image Q) : result (Image Q) :=
  opticalBands <- select optical_bands image ;;
  Ok (addBands image (multiply scale_factor opticalBands) true).

Definition mask_s2_clouds (image : Image Q) : result (Image Q) :=
  qa <- select ["QA60"] image ;;
  let cloudBitMask := Z.shiftl 1 10 in
  let cirrusBitMask := Z.shiftl 1 11 in
  let selected_bands := optical_bands in
  opticalBands <- select selected_bands image ;;
  selected <- select selected_bands opticalBands ;;
  let mask_gt := gt_const 0 (reduce_min selected) in
  mask <- And (eq_const 0 (bitwiseAnd cloudBitMask qa))
              (eq_const 0 (bitwiseAnd cirrusBitMask qa)) ;;
  both <- And mask mask_gt ;;
  updateMask Qnonzero image both.

(** ** Python strings and numbers

    The two parsers below stand for Python's [float] and for the provider's
    date parser.  They read the plain spellings the repository's data uses: a
    decimal literal with an optional sign, fraction and exponent, and a UTC
    timestamp [YYYY-MM-DD] or [YYYY-MM-DDTHH:MM:SS].  A text outside these
    spellings is reported as malformed. *)

(** [s.split(sep)] for a one-character separator. *)
Fixpoint split_on (sep : ascii) (s : string) : list string :=
  match s with
  | EmptyString => [EmptyString]
  | String c rest =>
      if Ascii.eqb c sep then EmptyString :: split_on sep rest
      else match split_on sep rest with
           | [] => [String c EmptyString]
           | w :: ws => String c w :: ws
           end
  end.

Definition digit_of (c : ascii) : option Z :=
  let n := Z.of_nat (nat_of_ascii c) in
  if (48 <=? n) && (n <=? 57) then Some (n - 48) else None.

Fixpoint digits_value (acc : Z) (s : string) : option Z :=
  match s with
  | EmptyString => Some acc
  | String c rest =>
      match digit_of c with
      | Some d => digits_value (10 * acc + d) rest
      | None => None
      end
  end.

(** A non-empty run of decimal digits. *)
Definition number_of (s : string) : option Z :=
  match s with
  | EmptyString => None
  | _ => digits_value 0 s
  end.

Definition signed (s : string) : bool * string :=
  match s with
  | String "-" rest => (true, rest)
  | String "+" rest => (false, rest)
  | _ => (false, s)
  end.

Definition pow10 (e : Z) : Q :=
  if 0 <=? e then inject_Z (10 ^ e) else (1 # Z.to_pos (10 ^ (- e))).

(** Digits with an optional fraction: [12], [12.5], [12.], [.5]. *)
Definition mantissa_of (s : string) : option Q :=
  match split_on "." s with
  | [ip] => option_map inject_Z (number_of ip)
  | [ip; fp] =>
      match ip, fp with
      | EmptyString, EmptyString => None
      | _, _ =>
          match digits_value 0 ip, digits_value 0 fp with
          | Some a, Some b =>
              Some (inject_Z a + inject_Z b * pow10 (- Z.of_nat (String.length fp)))%Q
          | _, _ => None
          end
      end
  | _ => None
  end.

Definition exponent_of (s : string) : option Z :=
  let '(neg, ds) := signed s in
  option_map (fun e => if neg then - e else e) (number_of ds).

Fixpoint lower_e (s : string) : string :=
  match s with
  | EmptyString => EmptyString
  | String c rest => String (if Ascii.eqb c "E" then "e"%char else c) (lower_e rest)
  end.

Definition float_of_string (s : string) : option Q :=
  let '(neg, body) := signed s in
  let sgn (q : Q) : Q := if neg then (- q)%Q else q in
  match split_on "e" (lower_e body) with
  | [m] => option_map sgn (mantissa_of m)
  | [m; e] =>
      match mantissa_of m, exponent_of e with
      | Some q, Some k => Some (sgn (q * pow10 k)%Q)
      | _, _ => None
      end
  | _ => None
  end.

(** A table cell: pandas reads a numeric column as floats and any other one as
    text. *)
Inductive cell : Type :=
| CFloat (q : Q)
| CStr (s : string).

(** What [series[label]] yields: a scalar when the label is unique, a
    sub-series when it is repeated. *)
Inductive selection (A : Type) : Type :=
| Scalar (a : A)
| SubSeries.
Arguments Scalar {A} a.
Arguments SubSeries {A}.

(** [float(x)]. *)
Definition py_float (x : selection cell) : result Q :=
  match x with
  | Scalar (CFloat q) => Ok q
  | Scalar (CStr s) =>
      match float_of_string s with
      | Some q => Ok q
      | None => Err ValueError
      end
  | SubSeries => Err TypeError
  end.

(** *** Timestamps *)

Definition is_leap (y : Z) : bool :=
  ((y mod 4 =? 0) && negb (y mod 100 =? 0)) || (y mod 400 =? 0).

Definition days_in_month (y m : Z) : Z :=
  if m =? 2 then (if is_leap y then 29 else 28)
  else if (m =? 4) || (m =? 6) || (m =? 9) || (m =? 11) then 30
  else 31.

(** Days from 1970-01-01 to the given civil date (proleptic Gregorian). *)
Definition days_from_civil (y m d : Z) : Z :=
  let y' := if m <=? 2 then y - 1 else y in
  let era := y' / 400 in
  let yoe := y' - era * 400 in
  let mp := (m + 9) mod 12 in
  let doy := (153 * mp + 2) / 5 + d - 1 in
  let doe := yoe * 365 + yoe / 4 - yoe / 100 + doy in
  era * 146097 + doe - 719468.

Definition date_part (s : string) : option Z :=
  match map number_of (split_on "-" s) with
  | [Some y; Some m; Some d] =>
      if (1 <=? m) && (m <=? 12) && (1 <=? d) && (d <=? days_in_month y m)
      then Some (days_from_civil y m d)
      else None
  | _ => None
  end.

Definition time_part (s : string) : option Z :=
  match map number_of (split_on ":" s) with
  | [Some h; Some mi; Some sec] =>
      if (h <=? 23) && (mi <=? 59) && (sec <=? 59)
      then Some (((h * 60 + mi) * 60 + sec) * 1000)
      else None
  | _ => None
  end.

Definition day_ms : Z := 86400000.

(** The instant a timestamp text denotes, in milliseconds since the epoch. *)
Definition parse_timestamp (s : string) : option Z :=
  match split_on "T" s with
  | [d] => option_map (fun n => n * day_ms) (date_part d)
  | [d; t] =>
      match date_part d, time_part t with
      | Some n, Some ms => Some (n * day_ms + ms)
      | _, _ => None
      end
  | _ => None
  end.

(** [ee.Date(x)] builds a client-side object: it accepts a text without
    reading it and rejects what is not a text, a number or a date.  The text
    is parsed by the server when a value that depends on the date is asked
    for. *)
Definition ee_Date (x : selection string) : result string :=
  match x with
  | Scalar s => Ok s
  | SubSeries => Err EEException
  end.

Definition date_millis (d : string) : result Z :=
  match parse_timestamp d with
  | Some t => Ok t
  | None => Err EEException
  end.

(** [date.advance(n, "day")], in UTC. *)
Definition advance_days (n : Z) (t : Z) : Z := t + n * day_ms.

(** ** src/create_rrs_table.py: the observation-to-imagery matcher *)

(** *** The provider's collection operations *)

Definition ImageCollection : Type := list (Image Q).

(** [ic.filterDate(start, end)]: the images acquired at or after [start] and
    strictly before [end], in the collection's order. *)
Definition filterDate (start_date end_date : Z) (ic : ImageCollection)
  : ImageCollection :=
  filter (fun im => (start_date <=? time_start im) && (time_start im <? end_date)) ic.

(** [ic.filterBounds(point)]: the images whose footprint contains the point. *)
Definition filterBounds (pt : point) (ic : ImageCollection) : ImageCollection :=
  filter (fun im => footprint im pt) ic.

(** [image.reduceRegion(ee.Reducer.median(), Point, scale=20).getInfo()]: one
    entry per band.  The region is a single point, so the reducer receives the
    one pixel that covers it: the median is that pixel's value, or null when
    the pixel is masked. *)
Definition stats : Type := list (string * option Q).

Definition reduceRegion_median (image : Image Q) (pt : point) : stats :=
  map (fun b : string * raster Q => (fst b, snd b pt)) (bands image).

Fixpoint stats_get (k : string) (d : stats) : result (option Q) :=
  match d with
  | [] => Err KeyError
  | (k', v) :: rest => if String.eqb k' k then Ok v else stats_get k rest
  end.

(** The calls that fetch a value from the provider ([getInfo]), tagged with
    the observation they are made for. *)
Inductive call : Type :=
| SizeInfo (i : Z)                (* images.size().getInfo() *)
| LengthInfo (i : Z)              (* img.length().getInfo() *)
| ReduceInfo (i : Z) (j : nat).   (* reduceRegion of candidate j *)

(** *** The observation table and Python values *)

Record Row : Type := mkRow {
  datetime : string;
  LATITUDE : cell;
  LONGITUDE : cell;
  CHL : Q
}.

(** A DataFrame with the four columns the matcher needs: the rows in order,
    each under its index label. *)
Definition DataFrame : Type := list (Z * Row).

Definition index (df : DataFrame) : list Z := map fst df.

(** [df[column][i]]. *)
Definition getitem {A : Type} (column : Row -> A) (df : DataFrame) (i : Z)
  : result (selection A) :=
  match filter (fun r : Z * Row => fst r =? i) df with
  | [] => Err KeyError
  | [r] => Ok (Scalar (column (snd r)))
  | _ => Ok SubSeries
  end.

(** The values [dict_stats] holds: the timestamp text at first, then [None] or
    the accepted statistics. *)
Inductive pyval : Type :=
| VStr (s : string)
| VNone
| VDict (d : stats).

Definition truthy (v : pyval) : bool :=
  match v with
  | VStr s => negb (String.eqb s "")
  | VNone => false
  | VDict d => match d with [] => false | _ => true end
  end.

(** A Python dict with integer keys: insertion-ordered, one entry per key. *)
Definition dict : Type := list (Z * pyval).

Fixpoint dict_set (k : Z) (v : pyval) (d : dict) : dict :=
  match d with
  | [] => [(k, v)]
  | (k', v') :: rest =>
      if k' =? k then (k, v) :: rest else (k', v') :: dict_set k v rest
  end.

Definition dict_del (k : Z) (d : dict) : dict :=
  filter (fun kv : Z * pyval => negb (fst kv =? k)) d.

Definition dict_keys (d : dict) : list Z := map fst d.

Definition dict_of_pairs (kvs : list (Z * pyval)) : dict :=
  fold_left (fun d kv => dict_set (fst kv) (snd kv) d) kvs [].

(** The module's global namespace: [df_all] is bound only when the file runs
    as a script. *)
Record Globals : Type := mkGlobals {
  df_all : option DataFrame
}.

(** *** One observation *)

(** The query [ic.filterDate(..).filterBounds(..).map(scale_msi)
    .map(mask_s2_clouds)] as the server evaluates it when the first value is
    asked for. *)
Definition window_images (ic : ImageCollection) (t : Z) (pt : point)
  : ImageCollection :=
  let start_date := advance_days (-1) t in
  let end_date := advance_days 1 t in
  filterBounds pt (filterDate start_date end_date ic).

Definition evaluate_images (ic : ImageCollection) (date_of_observation : string)
           (pt : point) : result (list (Image Q)) :=
  t <- date_millis date_of_observation ;;
  scaled <- mapM scale_msi (window_images ic t pt) ;;
  mapM mask_s2_clouds scaled.

(** The loop over the candidates, from index [j] on. *)
Fixpoint scan (i : Z) (pt : point) (img : list (Image Q)) (j : nat)
  : result (pyval * list call) :=
  match img with
  | [] => Ok (VNone, [])
  | candidate :: rest =>
      let v_mean := reduceRegion_median candidate pt in
      b3 <- stats_get "B3" v_mean ;;
      match b3 with
      | Some _ => Ok (VDict v_mean, [ReduceInfo i j])
      | None =>
          '(found_stats, calls) <- scan i pt rest (S j) ;;
          Ok (found_stats, ReduceInfo i j :: calls)
      end
  end.

(** The body of the first loop of [preproc] for the label [i]: the value
    stored in [dict_stats[i]] and the calls made. *)
Definition resolve (ic : ImageCollection) (df : DataFrame) (i : Z)
  : result (pyval * list call) :=
  dt <- getitem datetime df i ;;
  date_of_observation <- ee_Date dt ;;
  lon_cell <- getitem LONGITUDE df i ;;
  lon <- py_float lon_cell ;;
  lat_cell <- getitem LATITUDE df i ;;
  lat <- py_float lat_cell ;;
  let pt := (lon, lat) in
  images <- evaluate_images ic date_of_observation pt ;;
  if (0 <? List.length images)%nat
  then
    '(found_stats, calls) <- scan i pt images 0 ;;
    Ok (found_stats, SizeInfo i :: LengthInfo i :: calls)
  else Ok (VNone, [SizeInfo i]).

(** *** The table build *)

Fixpoint for_each {S A : Type} (xs : list A) (body : A -> S -> result S) (s : S)
  : result S :=
  match xs with
  | [] => Ok s
  | x :: rest => s' <- body x s ;; for_each rest body s'
  end.

Definition resolve_step (ic : ImageCollection) (df : DataFrame) (i : Z)
           (st : dict * list call) : result (dict * list call) :=
  '(found_stats, calls) <- resolve ic df i ;;
  Ok (dict_set i found_stats (fst st), snd st ++ calls).

(** [for k, v in list(dict_stats.items()): if not v: del dict_stats[k]]. *)
Definition drop_unresolved (d : dict) : dict :=
  fold_left (fun acc kv => if truthy (snd kv) then acc else dict_del (fst kv) acc) d d.

(** A frame as [DataFrame.from_dict(.., orient="index")] builds it from a dict
    of dicts: one row per key, in the dict's order, and one column per inner
    key, in the order of first appearance.  A row that lacks a column reads as
    null there. *)
Record Frame : Type := mkFrame {
  fcolumns : list string;
  frows : list (Z * stats)
}.

Definition as_stats (kv : Z * pyval) : result (Z * stats) :=
  match snd kv with
  | VDict s => Ok (fst kv, s)
  | _ => Err TypeError
  end.

Definition add_column (cols : list string) (c : string) : list string :=
  if existsb (String.eqb c) cols then cols else cols ++ [c].

Definition union_columns (rows : list (Z * stats)) : list string :=
  fold_left (fun cols r => fold_left add_column (map fst (snd r)) cols) rows [].

Definition from_dict_index (d : dict) : result Frame :=
  rows <- mapM as_stats d ;;
  Ok (mkFrame (union_columns rows) rows).

(** The result: named columns and, per row, the index label and one value per
    column ([None] is null). *)
Record Table : Type := mkTable {
  columns : list string;
  rows : list (Z * list (option Q))
}.

Definition value_in (s : stats) (c : string) : option Q :=
  match stats_get c s with
  | Ok v => v
  | Err _ => None
  end.

(** [frame.loc[:, cols]]: a column the frame lacks is a [KeyError]. *)
Definition loc_columns (cols : list string) (f : Frame) : result Table :=
  if forallb (fun c => existsb (String.eqb c) (fcolumns f)) cols
  then Ok (mkTable cols
             (map (fun r : Z * stats => (fst r, map (value_in (snd r)) cols)) (frows f)))
  else Err KeyError.

(** [table.join(other["CHL"])]: a left join on the index.  A row is kept once
    with a null when [other] lacks its label, and once per match otherwise. *)
Definition join_CHL (t : Table) (other : DataFrame) : Table :=
  mkTable (columns t ++ ["CHL"])
    (flat_map
       (fun r : Z * list (option Q) =>
          match filter (fun m : Z * Row => fst m =? fst r) other with
          | [] => [(fst r, snd r ++ [None])]
          | ms => map (fun m : Z * Row => (fst r, snd r ++ [Some (CHL (snd m))])) ms
          end)
       (rows t)).

Definition preproc (g : Globals) (ic : ImageCollection) (df : DataFrame)
  : result (Table * list call) :=
  let dict_stats :=
    dict_of_pairs (combine (index df) (map (fun r => VStr (datetime (snd r))) df)) in
  '(dict_stats, calls) <-
    for_each (dict_keys dict_stats) (resolve_step ic df) (dict_stats, []) ;;
  let dict_stats := drop_unresolved dict_stats in
  frame <- from_dict_index dict_stats ;;
  bands_only <- loc_columns optical_bands frame ;;
  match df_all g with
  | None => Err NameError
  | Some chl_frame => Ok (join_CHL bands_only chl_frame, calls)
  end.

(** ** app.py: the visualisation path *)

Module App.

Definition index_bands : list string := ["B1"; "B2"; "B3"].

Definition scale_msi (image : Image Q) : result (Image Q) :=
  opticalBands <- select index_bands image ;;
  Ok (addBands image (multiply scale_factor opticalBands) true).

Definition mask_S2_clouds (image : Image Q) : result (Image Q) :=
  qa <- select ["QA60"] image ;;
  let cloudBitMask := Z.shiftl 1 10 in
  let cirrusBitMask := Z.shiftl 1 11 in
  opticalBands <- select index_bands image ;;
  selected <- select index_bands opticalBands ;;
  let mask_gt := gt_const 0 (reduce_min selected) in
  mask <- And (eq_const 0 (bitwiseAnd cloudBitMask qa))
              (eq_const 0 (bitwiseAnd cirrusBitMask qa)) ;;
  both <- And mask mask_gt ;;
  updateMask Qnonzero image both.

(** *** The chlorophyll index

    The index is a formula over real numbers (logarithm, real power), so
    its pixels are modelled as reals. *)

Import Stdlib.Reals.Reals.

Definition log10 (x : R) : R := (ln x / ln 10)%R.

(** [divide] yields 0 where the divisor is 0. *)
Definition divide (x y : R) : R :=
  if Req_dec_T y 0%R then 0%R else (x / y)%R.

(** [ee.Image.constant(c)] and [ee.Image(c)]: one band, named [constant],
    valid everywhere.  It has no acquisition time; the field is not read. *)
Definition constant (c : R) : Image R :=
  mkImage [("constant", fun _ : point => Some c)] 0 (fun _ => true).

Definition multiply_by (c : R) (image : Image R) : Image R :=
  map_pixels (fun v => (v * c)%R) image.

(** [image.pow(n)] for a literal natural exponent. *)
Definition pow_by (n : nat) (image : Image R) : Image R :=
  map_pixels (fun v => (v ^ n)%R) image.

Definition calculate_oc3 (baikal_geometry : point -> bool) (image : Image R)
  : result (Image R) :=
  b1 <- select ["B1"] image ;;
  b2 <- select ["B2"] image ;;
  b3 <- select ["B3"] image ;;
  max_b1b2 <- binop Rmax b1 b2 ;;
  ratio <- binop divide max_b1b2 b3 ;;
  let logR := map_pixels log10 ratio in
  let a0 := (2389 / 10000)%R in
  let a1 := (- (19369 / 10000))%R in
  let a2 := (17627 / 10000)%R in
  let a3 := (- (30777 / 10000))%R in
  let a4 := (- (1054 / 10000))%R in
  sum2 <- binop Rplus (multiply_by a1 logR) (multiply_by a2 (pow_by 2 logR)) ;;
  sum3 <- binop Rplus sum2 (multiply_by a3 (pow_by 3 logR)) ;;
  sum4 <- binop Rplus sum3 (multiply_by a4 (pow_by 4 logR)) ;;
  oc3_log <- binop Rplus (constant a0) sum4 ;;
  oc3 <- binop Rpower (constant 10%R) oc3_log ;;
  renamed <- select_as "constant" "oc3" oc3 ;;
  Ok (clip baikal_geometry renamed).

End App.

(** ** src/data_preprocessing.py: degree-minute coordinates *)

Module DataPreprocessing.

(** *** [str] of a float

    Python prints the shortest decimal text that reads back as the same
    float.  For a value that is a decimal fraction of at most 15
    significant digits this is the exact decimal expansion, which is what
    the model computes; other values are outside the model.  The layout is
    Python's: positional when the decimal point falls within the digits or
    at most four places before them and at most sixteen after the first,
    scientific otherwise. *)

(** The least [m <= fuel] such that [n * 10^m] is a multiple of [d]. *)
Fixpoint decimal_places (fuel : nat) (n d m : Z) : option Z :=
  if n mod d =? 0 then Some m
  else match fuel with
       | O => None
       | S f => decimal_places f (n * 10) d (m + 1)
       end.

Definition digits_of (n : Z) : string := NilZero.string_of_uint (N.to_uint (Z.to_N n)).

Fixpoint strip_zeros_rev (s : list ascii) : list ascii :=
  match s with
  | "0"%char :: rest => strip_zeros_rev rest
  | _ => s
  end.

Definition strip_trailing_zeros (s : string) : string :=
  string_of_list_ascii (rev (strip_zeros_rev (rev (list_ascii_of_string s)))).

Fixpoint zeros (n : nat) : string :=
  match n with
  | O => EmptyString
  | S k => String "0" (zeros k)
  end.

Definition two_digits (e : Z) : string :=
  if e <? 10 then String "0" (digits_of e) else digits_of e.

Definition layout (sig : string) (decpt : Z) : string :=
  let len := Z.of_nat (String.length sig) in
  if (-4 <? decpt) && (decpt <=? 16) then
    if decpt <=? 0 then ("0." ++ zeros (Z.to_nat (- decpt)) ++ sig)%string
    else if len <=? decpt then (sig ++ zeros (Z.to_nat (decpt - len)) ++ ".0")%string
    else (substring 0 (Z.to_nat decpt) sig ++ "." ++
          substring (Z.to_nat decpt) (Z.to_nat (len - decpt)) sig)%string
  else
    let e := decpt - 1 in
    let mant :=
      match sig with
      | String c EmptyString => String c EmptyString
      | String c rest => String c (String "." rest)
      | EmptyString => EmptyString
      end in
    (mant ++ "e" ++ (if (e <? 0)%Z then "-" else "+") ++ two_digits (Z.abs e))%string.

Definition float_repr (q : Q) : result string :=
  let n := Z.abs (Qnum q) in
  let d := Z.pos (Qden q) in
  if n =? 0 then Ok "0.0"
  else
    match decimal_places 40 n d 0 with
    | None => Err OutsideModel
    | Some m =>
        let all := digits_of (n * 10 ^ m / d) in
        let sig := strip_trailing_zeros all in
        if (String.length sig <=? 15)%nat
        then
          let text := layout sig (Z.of_nat (String.length all) - m) in
          Ok (if Qnum q <? 0 then String "-" text else text)
        else Err OutsideModel
    end.

(** [s[1:]]. *)
Definition from_second (s : string) : string :=
  match s with
  | EmptyString => EmptyString
  | String _ rest => rest
  end.

(** *** The conversion *)

(** A DataFrame as named columns of cells. *)
Definition DataFrame : Type := list (string * list cell).

Fixpoint column (name : string) (df : DataFrame) : result (list cell) :=
  match df with
  | [] => Err KeyError
  | (n, c) :: rest => if String.eqb n name then Ok c else column name rest
  end.

Definition set_column (name : string) (data : list cell) (df : DataFrame)
  : DataFrame :=
  if existsb (fun c : string * list cell => String.eqb (fst c) name) df
  then map (fun c : string * list cell =>
              if String.eqb (fst c) name then (fst c, data) else c) df
  else df ++ [(name, data)].

(** The body of the loop: the new value of [data_list[i]]. *)
Definition convert_item (item : cell) : result cell :=
  match item with
  | CFloat _ => Err AttributeError
  | CStr s =>
      match split_on " " s with
      | [integer; frac] =>
          match float_of_string frac with
          | None => Err ValueError
          | Some x =>
              text <- float_repr (x / inject_Z 60)%Q ;;
              Ok (CStr (integer ++ from_second text)%string)
          end
      | _ => Err ValueError
      end
  end.

Definition convert_degree_and_min_to_degree (_data_frame : DataFrame)
           (name_of_col : string) : result DataFrame :=
  let data_frame := _data_frame in
  data_list <- column name_of_col data_frame ;;
  data_list <- mapM convert_item data_list ;;
  Ok (set_column name_of_col data_list data_frame).

End DataPreprocessing.

(** ** src/data_preprocessing.py: local date and time to UTC *)

Module DatetimePreprocessing.
Import DataPreprocessing.

(** *** [datetime]

    A naive [datetime]: a civil date and a time of day. *)
Record pydatetime : Type := mkDatetime {
  year : Z; month : Z; day : Z; hour : Z; minute : Z; second : Z
}.

(** What [\s] matches among the first 128 characters. *)
Definition is_space (c : ascii) : bool :=
  let n := nat_of_ascii c in
  ((9 <=? n) && (n <=? 13) || (28 <=? n) && (n <=? 32))%nat.

Fixpoint is_ascii (s : string) : bool :=
  match s with
  | EmptyString => true
  | String c rest => (nat_of_ascii c <? 128)%nat && is_ascii rest
  end.

(** The text before the first white space, and the text from it on. *)
Fixpoint cut_at_space (s : string) : string * option string :=
  match s with
  | EmptyString => (EmptyString, None)
  | String c rest =>
      if is_space c then (EmptyString, Some s)
      else let '(before, from) := cut_at_space rest in (String c before, from)
  end.

Fixpoint skip_spaces (s : string) : string :=
  match s with
  | EmptyString => EmptyString
  | String c rest => if is_space c then skip_spaces rest else s
  end.

(** A field of one or two digits with a value from [lo] to [hi]. *)
Definition field (lo hi : Z) (s : string) : option Z :=
  if (Nat.eqb (String.length s) 1 || Nat.eqb (String.length s) 2)%bool
  then match digits_value 0 s with
       | Some v => if (lo <=? v) && (v <=? hi) then Some v else None
       | None => None
       end
  else None.

Definition year_field (s : string) : option Z :=
  if Nat.eqb (String.length s) 4 then digits_value 0 s else None.

(** [datetime.strptime(s, "%Y-%m-%d %H:%M:%S")].  The format is matched as
    the pattern: four digits, [-], a month [1] to [12], [-], a day [1] to
    [31], white space, an hour [0] to [23], [:], a minute, [:], a second, end
    of text; month, day, hour, minute and second have one or two digits.  The
    date is then checked (year 0 and a day past the end of the month are
    refused).  Two spellings are left outside the model: a text with a
    character beyond the first 128, and a day written as a space and one
    digit. *)
Definition strptime (s : string) : result pydatetime :=
  if negb (is_ascii s) then Err OutsideModel
  else
    match cut_at_space s with
    | (_, None) => Err ValueError
    | (date_text, Some from) =>
        match split_on "-" date_text with
        | [y; m; d] =>
            match d with
            | EmptyString => Err OutsideModel
            | _ =>
                match year_field y, field 1 12 m, field 1 31 d with
                | Some y, Some m, Some d =>
                    match split_on ":" (skip_spaces from) with
                    | [h; mi; sec] =>
                        match field 0 23 h, field 0 59 mi, field 0 59 sec with
                        | Some h, Some mi, Some sec =>
                            if (1 <=? y) && (d <=? days_in_month y m)
                            then Ok (mkDatetime y m d h mi sec)
                            else Err ValueError
                        | _, _, _ => Err ValueError
                        end
                    | _ => Err ValueError
                    end
                | _, _, _ => Err ValueError
                end
            end
        | _ => Err ValueError
        end
    end.

(** The day before a civil date. *)
Definition previous_day (y m d : Z) : Z * Z * Z :=
  if 1 <? d then (y, m, d - 1)
  else if 1 <? m then (y, m - 1, days_in_month y (m - 1))
  else (y - 1, 12, 31).

(** [dt - timedelta(hours=n)] for [n] from 0 to 24. *)
Definition minus_hours (n : Z) (dt : pydatetime) : pydatetime :=
  if n <=? hour dt
  then mkDatetime (year dt) (month dt) (day dt) (hour dt - n) (minute dt) (second dt)
  else
    let '(y, m, d) := previous_day (year dt) (month dt) (day dt) in
    mkDatetime y m d (hour dt + 24 - n) (minute dt) (second dt).

(** [dt.strftime("%Y-%m-%dT%H:%M:%S")].  The text of a year under 1000
    depends on the platform, and a date before year 1 does not exist
    ([OverflowError] in the subtraction): both are outside the model. *)
Definition strftime (dt : pydatetime) : result string :=
  if year dt <? 1000 then Err OutsideModel
  else Ok (digits_of (year dt) ++ "-" ++ two_digits (month dt) ++ "-"
           ++ two_digits (day dt) ++ "T" ++ two_digits (hour dt) ++ ":"
           ++ two_digits (minute dt) ++ ":" ++ two_digits (second dt))%string.

(** *** The conversion

    Besides the errors above the function can raise [IndexError]. *)
Inductive exn : Type :=
| IndexError
| Other (e : error).

Inductive answer (A : Type) : Type :=
| Return (a : A)
| Raise (x : exn).
Arguments Return {A} a.
Arguments Raise {A} x.

Definition and_then {A B : Type} (m : answer A) (k : A -> answer B) : answer B :=
  match m with
  | Return a => k a
  | Raise x => Raise x
  end.

Definition lift {A : Type} (m : result A) : answer A :=
  match m with
  | Ok a => Return a
  | Err e => Raise (Other e)
  end.

Notation "x <~ m ;; k" := (and_then m (fun x => k))
  (at level 61, m at next level, right associativity).

Fixpoint for_all {A B : Type} (f : A -> answer B) (xs : list A) : answer (list B) :=
  match xs with
  | [] => Return []
  | x :: rest =>
      y <~ f x ;;
      ys <~ for_all f rest ;;
      Return (y :: ys)
  end.

(** [[tmp[-1], tmp[0], tmp[1]]]. *)
Definition date_of (tmp : list string) : answer (list string) :=
  match tmp with
  | t0 :: t1 :: _ => Return [last tmp EmptyString; t0; t1]
  | _ => Raise IndexError
  end.

(** ["-".join(date)]. *)
Fixpoint join (sep : string) (parts : list string) : string :=
  match parts with
  | [] => EmptyString
  | [p] => p
  | p :: rest => (p ++ sep ++ join sep rest)%string
  end.

(** [data_frame["TIME"][i]]: the table has the default index, so that the
    label [i] is the position [i]. *)
Definition time_at (data_frame : DataFrame) (i : nat) : result cell :=
  times <- column "TIME" data_frame ;;
  match nth_error times i with
  | Some c => Ok c
  | None => Err KeyError
  end.

(** [text + cell]. *)
Definition concat_cell (text : string) (c : cell) : result string :=
  match c with
  | CStr t => Ok (text ++ t)%string
  | CFloat _ => Err TypeError
  end.

(** The body of the loop: the new value of [converted_list[i]]. *)
Definition convert_entry (data_frame : DataFrame) (i : nat) (item : cell)
  : answer string :=
  match item with
  | CFloat _ => Raise (Other AttributeError)
  | CStr s =>
      let tmp := split_on "/" s in
      date <~ date_of tmp ;;
      time <~ lift (time_at data_frame i) ;;
      text <~ lift (concat_cell (join "-" date ++ " ") time) ;;
      let text := (text ++ ":00")%string in
      dt_datetime <~ lift (strptime text) ;;
      let dt_datetime := minus_hours 8 dt_datetime in
      lift (strftime dt_datetime)
  end.

Definition enumerate {A : Type} (xs : list A) : list (nat * A) :=
  combine (seq 0 (List.length xs)) xs.

(** [data_frame.drop(columns=names)]. *)
Definition has_column (name : string) (df : DataFrame) : bool :=
  existsb (fun c : string * list cell => String.eqb (fst c) name) df.

Definition drop (names : list string) (df : DataFrame) : result DataFrame :=
  if forallb (fun n => has_column n df) names
  then Ok (filter (fun c : string * list cell =>
                     negb (existsb (String.eqb (fst c)) names)) df)
  else Err KeyError.

Definition convert_datetime_irkutsk (_data_frame : DataFrame) : answer DataFrame :=
  let data_frame := _data_frame in
  converted_list <~ lift (column "DATE" data_frame) ;;
  converted_list <~
    for_all (fun ic : nat * cell => convert_entry data_frame (fst ic) (snd ic))
            (enumerate converted_list) ;;
  let data_frame := set_column "datetime" (map CStr converted_list) data_frame in
  lift (drop ["DATE"; "TIME"] data_frame).

(** The loop of the script over the second table (lines 72 to 76): the
    timestamp is read with a space between date and time and written with a
    [T]. *)
Definition reformat (value : cell) : result string :=
  match value with
  | CFloat _ => Err TypeError
  | CStr s =>
      dt_datetime <- strptime s ;;
      strftime dt_datetime
  end.

End DatetimePreprocessing.

(** * Specification

    The definitions below are not translations of source functions.  They
    say, in terms of the operations above, what the properties are about. *)

(** ** Scaling and masking *)

Definition in_names (n : string) (names : list string) : bool :=
  existsb (String.eqb n) names.

(** Both scaling functions are this one, at their own list of bands. *)
Definition scale_named (names : list string) (image : Image Q) : result (Image Q) :=
  opticalBands <- select names image ;;
  Ok (addBands image (multiply scale_factor opticalBands) true).

(** Both masking functions are this one, at their own list of bands. *)
Definition mask_named (names : list string) (image : Image Q) : result (Image Q) :=
  qa <- select ["QA60"] image ;;
  opticalBands <- select names image ;;
  selected <- select names opticalBands ;;
  mask <- And (eq_const 0 (bitwiseAnd (Z.shiftl 1 10) qa))
              (eq_const 0 (bitwiseAnd (Z.shiftl 1 11) qa)) ;;
  both <- And mask (gt_const 0 (reduce_min selected)) ;;
  updateMask Qnonzero image both.

(** The two flags of the quality value, and the values the designated bands
    hold at a pixel. *)
Definition cloud_bit (qa : Z) : bool := Z.testbit qa 10.
Definition cirrus_bit (qa : Z) : bool := Z.testbit qa 11.

Definition designated_values (names : list string) (image : Image Q) (p : point)
  : list Q :=
  flat_map (fun n =>
              match find_band n (bands image) with
              | Some r => match r p with Some v => [v] | None => [] end
              | None => []
              end) names.

Definition min_strictly_positive (vs : list Q) : bool :=
  match min_of vs with
  | Some m => Qgtb m 0
  | None => false
  end.

(** A pixel is excluded when a flag is set or the minimum is not strictly
    positive.  A pixel with no quality value, or where no designated band has
    a value, has nothing to pass the test with and is excluded as well. *)
Definition excluded (names : list string) (image : Image Q) (p : point) : bool :=
  match find_band "QA60" (bands image) with
  | Some qa =>
      match qa p with
      | Some q =>
          cloud_bit (Qfloor q) || cirrus_bit (Qfloor q)
          || negb (min_strictly_positive (designated_values names image p))
      | None => true
      end
  | None => true
  end.

(** ** The matcher *)

(** The coordinates of a row as [float] reads them. *)
Definition observation_point (r : Row) : result point :=
  lon <- py_float (Scalar (LONGITUDE r)) ;;
  lat <- py_float (Scalar (LATITUDE r)) ;;
  Ok (lon, lat).

(** The median of a band of a candidate at a point, and that of the
    reference band. *)
Definition band_median (candidate : Image Q) (pt : point) (n : string) : option Q :=
  match find_band n (bands candidate) with
  | Some r => r pt
  | None => None
  end.

Definition b3_median (candidate : Image Q) (pt : point) : option Q :=
  band_median candidate pt "B3".

(** The first candidate whose reference band has a median, with its position. *)
Fixpoint first_valid (pt : point) (cands : list (Image Q)) : option (nat * Image Q) :=
  match cands with
  | [] => None
  | c :: rest =>
      match b3_median c pt with
      | Some _ => Some (O, c)
      | None => option_map (fun kc => (S (fst kc), snd kc)) (first_valid pt rest)
      end
  end.

Definition reduce_calls (i : Z) (from count : nat) : list call :=
  map (ReduceInfo i) (seq from count).

(** What the loop body yields for the candidates of a row: nothing when the
    window is empty or no candidate is valid, the statistics of the first
    valid candidate otherwise; and the calls made. *)
Definition outcome (i : Z) (pt : point) (cands : list (Image Q)) : pyval * list call :=
  match cands with
  | [] => (VNone, [SizeInfo i])
  | _ =>
      match first_valid pt cands with
      | Some (k, c) =>
          (VDict (reduceRegion_median c pt),
           SizeInfo i :: LengthInfo i :: reduce_calls i 0 (S k))
      | None =>
          (VNone, SizeInfo i :: LengthInfo i :: reduce_calls i 0 (List.length cands))
      end
  end.

(** The loop body for a row, once its cells are at hand. *)
Definition resolve_row (ic : ImageCollection) (i : Z) (row : Row)
  : result (pyval * list call) :=
  pt <- observation_point row ;;
  images <- evaluate_images ic (datetime row) pt ;;
  Ok (outcome i pt images).

(** The rows resolve independently: with unique labels the loop is a map
    over the rows. *)
Definition resolve_rows (ic : ImageCollection) (df : DataFrame)
  : result (list (pyval * list call)) :=
  mapM (fun ir : Z * Row => resolve_row ic (fst ir) (snd ir)) df.

(** After the first loop no entry holds a timestamp text any more. *)
Definition settled (v : pyval) : Prop :=
  match v with VStr _ => False | _ => True end.

(** The statistics of the resolved entries, in order. *)
Definition stats_rows (d : dict) : list (Z * stats) :=
  flat_map (fun kv : Z * pyval =>
              match snd kv with
              | VDict s => if truthy (VDict s) then [(fst kv, s)] else []
              | _ => []
              end) d.

Definition band_values (s : stats) : list (option Q) := map (value_in s) optical_bands.

(** The rows one entry of the dict contributes to the result. *)
Definition join_row (other : DataFrame) (r : Z * list (option Q))
  : list (Z * list (option Q)) :=
  match filter (fun m : Z * Row => fst m =? fst r) other with
  | [] => [(fst r, snd r ++ [None])]
  | ms => map (fun m : Z * Row => (fst r, snd r ++ [Some (CHL (snd m))])) ms
  end.

Definition entry_rows (other : DataFrame) (kv : Z * pyval)
  : list (Z * list (option Q)) :=
  match snd kv with
  | VDict s => if truthy (VDict s) then join_row other (fst kv, band_values s) else []
  | _ => []
  end.


(** ** Test data *)

(** A Sentinel-2 image in which every band holds the value [v] everywhere
    and the quality band holds [qa]. *)
Definition flat_band (n : string) (v : option Q) : string * raster Q :=
  (n, fun _ : point => v).

Definition flat_image (t : Z) (qa : Z) (v : Q) : Image Q :=
  mkImage
    (flat_band "B1" (Some v)
     :: map (fun n => flat_band n (Some v)) optical_bands
     ++ [flat_band "QA60" (Some (inject_Z qa))])
    t (fun _ : point => true).

(** An observation on 2020-07-21 and one on 2020-08-21, both at
    (104.5, 51.5); a clear image one hour before the first and an image
    flagged as cloud at the time of the second. *)
Definition t_july : Z := 1595289600000.
Definition t_august : Z := 1597968000000.

Definition observation (ts : string) (chl : Q) : Row :=
  mkRow ts (CFloat (515 # 10)) (CFloat (1045 # 10)) chl.

Definition july_row : Row := observation "2020-07-21T00:00:00" (3 # 2).
Definition august_row : Row := observation "2020-08-21T00:00:00" (5 # 2).
Definition site : point := (1045 # 10, 515 # 10).

Definition clear_image : Image Q := flat_image (t_july - 3600000) 0 (inject_Z 2000).
Definition cloudy_image : Image Q := flat_image t_august 1024 (inject_Z 2000).

Definition two_rows : DataFrame := [(0, july_row); (1, august_row)].
Definition two_images : ImageCollection := [clear_image; cloudy_image].

(** The globals when the file runs as a script on the table [df]. *)
Definition as_script (df : DataFrame) : Globals := mkGlobals (Some df).

(** The clear image after scaling and masking. *)
Definition july_candidate : Image Q :=
  match evaluate_images two_images (datetime july_row) site with
  | Ok [c] => c
  | _ => clear_image
  end.


(** An image of the three index bands over the reals. *)
Module IndexData.
Import Stdlib.Reals.Reals.

Definition water_image : Image R :=
  mkImage [("B1", fun _ : point => Some 0.03%R);
           ("B2", fun _ : point => Some 0.04%R);
           ("B3", fun _ : point => Some 0.02%R)]
          0 (fun _ : point => true).

End IndexData.

(** ** Further specification *)

(** The value a scaled band holds where the raw band holds [v]. *)
Definition scaled_value (v : option Q) : option Q :=
  option_map (fun x => (x * (1 # 10000))%Q) v.

(** A band value of the result: null, or a strictly positive number. *)
Definition null_or_positive (v : option Q) : Prop :=
  match v with
  | None => True
  | Some q => (0 < q)%Q
  end.

(** app.py, lines 108 to 110: what the collection pipeline does to one image
    before the index is computed ([.map(mask_S2_clouds).map(scale_msi)
    .select(['B1', 'B2', 'B3'])]). *)
Definition prepare_for_index (image : Image Q) : result (Image Q) :=
  masked <- App.mask_S2_clouds image ;;
  scaled <- App.scale_msi masked ;;
  select ["B1"; "B2"; "B3"] scaled.

(** Two images that cannot be told apart by their band names, acquisition
    time, footprint, or the value of any band at any pixel. *)
Definition same_pixels (a b : Image Q) : Prop :=
  bandNames a = bandNames b /\
  time_start a = time_start b /\
  footprint a = footprint b /\
  forall n,
    match find_band n (bands a), find_band n (bands b) with
    | Some ra, Some rb => forall p, ra p = rb p
    | None, None => True
    | _, _ => False
    end.

(** The observation a provider call is made for. *)
Definition call_label (c : call) : Z :=
  match c with
  | SizeInfo i => i
  | LengthInfo i => i
  | ReduceInfo i _ => i
  end.

Definition calls_for (i : Z) (calls : list call) : list call :=
  filter (fun c => call_label c =? i) calls.

(** How many candidates are sampled: up to and including the first whose
    reference band has a median, all of them when there is none. *)
Definition examined (pt : point) (cands : list (Image Q)) : nat :=
  match first_valid pt cands with
  | Some (k, _) => S k
  | None => List.length cands
  end.

(** ** Texts *)

(** Whether the character [c] occurs in [s]. *)
Fixpoint contains (c : ascii) (s : string) : bool :=
  match s with
  | EmptyString => false
  | String x rest => Ascii.eqb x c || contains c rest
  end.

(** A run of decimal digits, possibly empty. *)
Fixpoint is_digits (s : string) : bool :=
  match s with
  | EmptyString => true
  | String c rest =>
      match digit_of c with
      | Some _ => is_digits rest
      | None => false
      end
  end.

(** No character of [s] is white space. *)
Fixpoint spaceless (s : string) : bool :=
  match s with
  | EmptyString => true
  | String c rest => negb (DatetimePreprocessing.is_space c) && spaceless rest
  end.

(** ** Dates and times *)

(** A [datetime] whose fields are in range. *)
Definition valid_datetime (dt : DatetimePreprocessing.pydatetime) : Prop :=
  1 <= DatetimePreprocessing.month dt <= 12 /\
  1 <= DatetimePreprocessing.day dt
    <= days_in_month (DatetimePreprocessing.year dt) (DatetimePreprocessing.month dt) /\
  0 <= DatetimePreprocessing.hour dt <= 23 /\
  0 <= DatetimePreprocessing.minute dt <= 59 /\
  0 <= DatetimePreprocessing.second dt <= 59.

(** The instant a [datetime] denotes when it is read as UTC, in milliseconds
    since the epoch. *)
Definition instant (dt : DatetimePreprocessing.pydatetime) : Z :=
  days_from_civil (DatetimePreprocessing.year dt) (DatetimePreprocessing.month dt)
                  (DatetimePreprocessing.day dt) * day_ms
  + ((DatetimePreprocessing.hour dt * 60 + DatetimePreprocessing.minute dt) * 60
     + DatetimePreprocessing.second dt) * 1000.

Definition hour_ms : Z := 3600000.


(** * Properties *)

(** ** The error monad *)

Lemma bind_ok {A B : Type} (m : result A) (k : A -> result B) (b : B) :
  bind m k = Ok b -> exists a, m = Ok a /\ k a = Ok b.
Proof.
  destruct m as [a | e]; simpl; intros H.
  - exists a. split; [reflexivity | exact H].
  - discriminate H.
Qed.

Ltac inv_bind H :=
  let a := fresh "a" in
  let Ha := fresh "Ha" in
  apply bind_ok in H; destruct H as [a [Ha H]].

Lemma mapM_ok_Forall2 {A B : Type} (f : A -> result B) (xs : list A) (ys : list B) :
  mapM f xs = Ok ys -> Forall2 (fun x y => f x = Ok y) xs ys.
Proof.
  revert ys. induction xs as [| x xs IH]; simpl; intros ys H.
  - injection H as <-. constructor.
  - inv_bind H. inv_bind H. injection H as <-.
    constructor; [assumption | apply IH; assumption].
Qed.

Lemma mapM_total {A B : Type} (f : A -> result B) (xs : list A) :
  (forall x, In x xs -> exists y, f x = Ok y) -> exists ys, mapM f xs = Ok ys.
Proof.
  induction xs as [| x xs IH]; simpl; intros H.
  - exists []. reflexivity.
  - destruct (H x (or_introl eq_refl)) as [y Hy].
    destruct IH as [ys Hys]; [intros z Hz; apply H; right; exact Hz |].
    exists (y :: ys). rewrite Hy. simpl. rewrite Hys. reflexivity.
Qed.

(** ** Bands of an image *)

Section BandFacts.
Context {V : Type}.
Implicit Types (bs : list (string * raster V)) (n m : string).

Lemma find_band_map_snd (g : raster V -> raster V) bs n :
  find_band n (map (fun b : string * raster V => (fst b, g (snd b))) bs)
  = option_map g (find_band n bs).
Proof.
  induction bs as [| [k r] bs IH]; simpl; [reflexivity |].
  destruct (String.eqb k n); [reflexivity | exact IH].
Qed.

Lemma names_map_snd (g : raster V -> raster V) bs :
  map fst (map (fun b : string * raster V => (fst b, g (snd b))) bs) = map fst bs.
Proof. rewrite map_map. reflexivity. Qed.

Lemma find_band_app bs bs' n :
  find_band n (bs ++ bs')
  = match find_band n bs with Some r => Some r | None => find_band n bs' end.
Proof.
  induction bs as [| [k r] bs IH]; simpl; [reflexivity |].
  destruct (String.eqb k n); [reflexivity | exact IH].
Qed.

Lemma find_band_in bs n r : find_band n bs = Some r -> In (n, r) bs.
Proof.
  induction bs as [| [k s] bs IH]; simpl; [discriminate |].
  destruct (String.eqb k n) eqn:E.
  - apply String.eqb_eq in E. intros [= ->]. left. congruence.
  - intros H. right. apply IH, H.
Qed.

Lemma find_band_names bs n : has_band n bs = true <-> In n (map fst bs).
Proof.
  unfold has_band. induction bs as [| [k s] bs IH]; simpl.
  - split; [discriminate | tauto].
  - destruct (String.eqb k n) eqn:E.
    + apply String.eqb_eq in E. split; [intros _; left; exact E | reflexivity].
    + apply String.eqb_neq in E. rewrite IH. split; [tauto | intros [? | ?]; tauto].
Qed.

(** When every band called [n] holds the same raster, looking [n] up finds
    that raster. *)
Lemma find_band_uniform bs n r0 :
  (forall r, In (n, r) bs -> r = r0) ->
  find_band n bs = if has_band n bs then Some r0 else None.
Proof.
  unfold has_band. induction bs as [| [k s] bs IH]; simpl; intros H; [reflexivity |].
  destruct (String.eqb k n) eqn:E.
  - apply String.eqb_eq in E. subst k. f_equal. apply H. left. reflexivity.
  - apply IH. intros r Hr. apply H. right. exact Hr.
Qed.

(** *** [select] *)

Lemma select_bands_names names bs sel :
  select_bands names bs = Ok sel -> map fst sel = names.
Proof.
  revert sel. induction names as [| n ns IH]; simpl; intros sel H.
  - injection H as <-. reflexivity.
  - destruct (find_band n bs) as [r |]; [| discriminate].
    inv_bind H. injection H as <-. simpl. f_equal. apply IH. assumption.
Qed.

Lemma select_bands_in names bs sel n r :
  select_bands names bs = Ok sel -> In (n, r) sel -> find_band n bs = Some r.
Proof.
  revert sel. induction names as [| k ns IH]; simpl; intros sel H Hin.
  - injection H as <-. destruct Hin.
  - destruct (find_band k bs) as [s |] eqn:E; [| discriminate].
    inv_bind H. injection H as <-. destruct Hin as [Hin | Hin].
    + injection Hin as <- <-. exact E.
    + eapply IH; eassumption.
Qed.

Lemma select_bands_total names bs :
  (forall n, In n names -> has_band n bs = true) ->
  exists sel, select_bands names bs = Ok sel.
Proof.
  unfold has_band. induction names as [| k ns IH]; simpl; intros H.
  - exists []. reflexivity.
  - specialize (H k (or_introl eq_refl)) as Hk.
    destruct (find_band k bs) as [s |]; [| discriminate].
    destruct IH as [sel Hsel]; [intros n Hn; apply H; right; exact Hn |].
    exists ((k, s) :: sel). rewrite Hsel. reflexivity.
Qed.

Lemma select_bands_has names bs sel :
  select_bands names bs = Ok sel ->
  forall n, In n names -> has_band n bs = true.
Proof.
  unfold has_band. revert sel. induction names as [| k ns IH]; simpl; intros sel H n Hn.
  - destruct Hn.
  - destruct (find_band k bs) as [s |] eqn:E; [| discriminate].
    inv_bind H. destruct Hn as [<- | Hn].
    + rewrite E. reflexivity.
    + eapply IH; eassumption.
Qed.

Lemma select_bands_find names bs sel n :
  select_bands names bs = Ok sel ->
  find_band n sel = if has_band n sel then find_band n bs else None.
Proof.
  intros H. destruct (find_band n bs) as [r0 |] eqn:E.
  - apply find_band_uniform. intros r Hr.
    pose proof (select_bands_in _ _ _ _ _ H Hr) as Hr'. congruence.
  - unfold has_band. destruct (find_band n sel) as [r |] eqn:F; [| reflexivity].
    apply find_band_in in F.
    pose proof (select_bands_in _ _ _ _ _ H F). congruence.
Qed.

Lemma select_bands_ext names bs bs' :
  (forall n, In n names -> find_band n bs = find_band n bs') ->
  select_bands names bs = select_bands names bs'.
Proof.
  induction names as [| k ns IH]; simpl; intros H; [reflexivity |].
  rewrite <- (H k (or_introl eq_refl)). rewrite IH; [reflexivity |].
  intros n Hn. apply H. right. exact Hn.
Qed.

(** Selecting the same names again changes nothing. *)
Lemma select_bands_idem names bs sel :
  select_bands names bs = Ok sel -> select_bands names sel = Ok sel.
Proof.
  intros H. rewrite <- H. apply select_bands_ext. intros n Hn.
  rewrite (select_bands_find _ _ _ n H).
  assert (Hs : has_band n sel = true).
  { apply find_band_names. rewrite (select_bands_names _ _ _ H). exact Hn. }
  rewrite Hs. reflexivity.
Qed.

(** *** [addBands] with overwrite *)

Lemma replace_band_names n r bs : map fst (replace_band n r bs) = map fst bs.
Proof.
  unfold replace_band. rewrite map_map. apply map_ext.
  intros [k s]; simpl. destruct (String.eqb k n); reflexivity.
Qed.

Lemma find_band_replace n r bs m :
  find_band m (replace_band n r bs)
  = if String.eqb n m then (if has_band n bs then Some r else None)
    else find_band m bs.
Proof.
  unfold has_band, replace_band.
  induction bs as [| [k s] bs IH]; simpl.
  - destruct (String.eqb n m); reflexivity.
  - destruct (String.eqb k n) eqn:Ekn; simpl.
    + apply String.eqb_eq in Ekn. subst k.
      destruct (String.eqb n m); [reflexivity | exact IH].
    + destruct (String.eqb k m) eqn:Ekm.
      * apply String.eqb_eq in Ekm. subst k.
        rewrite String.eqb_sym in Ekn. rewrite Ekn. reflexivity.
      * exact IH.
Qed.

Lemma has_band_replace n r bs m :
  has_band m (replace_band n r bs) = has_band m bs.
Proof.
  destruct (has_band m bs) eqn:E.
  - apply find_band_names. rewrite replace_band_names. apply find_band_names, E.
  - destruct (has_band m (replace_band n r bs)) eqn:F; [| reflexivity].
    apply find_band_names in F. rewrite replace_band_names in F.
    apply find_band_names in F. congruence.
Qed.

Lemma overwrite_names src bs :
  (forall b, In b src -> has_band (fst b) bs = true) ->
  map fst (fold_left (add_band true) src bs) = map fst bs.
Proof.
  revert bs. induction src as [| b src IH]; simpl; intros bs H; [reflexivity |].
  unfold add_band at 2. rewrite (H b (or_introl eq_refl)).
  rewrite IH.
  - apply replace_band_names.
  - intros c Hc. rewrite has_band_replace. apply H. right. exact Hc.
Qed.

Lemma overwrite_find src bs m :
  (forall b, In b src -> has_band (fst b) bs = true) ->
  find_band m (fold_left (add_band true) src bs)
  = match find_band m (rev src) with
    | Some r => Some r
    | None => find_band m bs
    end.
Proof.
  revert bs. induction src as [| b src IH]; simpl; intros bs H; [reflexivity |].
  unfold add_band at 2. rewrite (H b (or_introl eq_refl)).
  rewrite IH by (intros c Hc; rewrite has_band_replace; apply H; right; exact Hc).
  rewrite find_band_app. destruct (find_band m (rev src)); [reflexivity |].
  rewrite find_band_replace. rewrite (H b (or_introl eq_refl)).
  destruct b as [k s]; simpl. destruct (String.eqb k m); reflexivity.
Qed.

Lemma has_band_rev bs n : has_band n (rev bs) = has_band n bs.
Proof.
  destruct (has_band n bs) eqn:E.
  - apply find_band_names. rewrite map_rev. apply in_rev. rewrite rev_involutive.
    apply find_band_names, E.
  - destruct (has_band n (rev bs)) eqn:F; [| reflexivity].
    apply find_band_names in F. rewrite map_rev in F. apply in_rev in F.
    apply find_band_names in F. congruence.
Qed.

End BandFacts.

(** ** Radiometric scaling *)

Lemma in_names_In n names : in_names n names = true <-> In n names.
Proof.
  unfold in_names. rewrite existsb_exists. split.
  - intros [k [Hk E]]. apply String.eqb_eq in E. subst k. exact Hk.
  - intros H. exists n. split; [exact H | apply String.eqb_refl].
Qed.

Lemma scale_named_spec (names : list string) (image : Image Q) :
  (forall n, In n names -> has_band n (bands image) = true) ->
  exists out,
    scale_named names image = Ok out /\
    bandNames out = bandNames image /\
    time_start out = time_start image /\
    footprint out = footprint image /\
    forall n r,
      find_band n (bands image) = Some r ->
      exists r',
        find_band n (bands out) = Some r' /\
        forall p,
          r' p = if in_names n names
                 then option_map (fun v => (v * (1 # 10000))%Q) (r p)
                 else r p.
Proof.
  intros Hhas.
  destruct (select_bands_total names (bands image) Hhas) as [sel Hsel].
  unfold scale_named, select. rewrite Hsel. simpl.
  pose (g := (fun r p => option_map (fun v => (v * scale_factor)%Q) (r p))
             : raster Q -> raster Q).
  pose (src := map (fun b : string * raster Q => (fst b, g (snd b))) sel).
  assert (Hsrc : forall b, In b src -> has_band (fst b) (bands image) = true).
  { intros b Hb. apply Hhas. rewrite <- (select_bands_names _ _ _ Hsel).
    unfold src in Hb. apply in_map_iff in Hb. destruct Hb as [c [<- Hc]]. simpl.
    apply in_map. exact Hc. }
  assert (Hout : bands (addBands image (multiply scale_factor (with_bands image sel)) true)
                 = fold_left (add_band true) src (bands image)) by reflexivity.
  eexists. split; [reflexivity |]. unfold bandNames. rewrite Hout.
  split; [apply overwrite_names; exact Hsrc |].
  split; [reflexivity |]. split; [reflexivity |].
  intros n r Hr. rewrite (overwrite_find src _ n Hsrc).
  assert (Hfind : find_band n (rev src) = if in_names n names then Some (g r) else None).
  { rewrite (find_band_uniform (rev src) n (g r)).
    - rewrite has_band_rev. destruct (has_band n src) eqn:E.
      + apply find_band_names in E. unfold src in E. rewrite names_map_snd in E.
        rewrite (select_bands_names _ _ _ Hsel) in E.
        apply in_names_In in E. rewrite E. reflexivity.
      + destruct (in_names n names) eqn:F; [| reflexivity].
        apply in_names_In in F. rewrite <- (select_bands_names _ _ _ Hsel) in F.
        rewrite <- (names_map_snd g sel) in F. apply find_band_names in F.
        fold src in F. congruence.
    - intros s Hs. apply in_rev in Hs. unfold src in Hs. apply in_map_iff in Hs.
      destruct Hs as [[k t] [Hkt Hin]]. simpl in Hkt. injection Hkt as -> <-.
      pose proof (select_bands_in _ _ _ _ _ Hsel Hin) as Ht.
      rewrite Hr in Ht. injection Ht as <-. reflexivity. }
  rewrite Hfind. destruct (in_names n names).
  - exists (g r). split; [reflexivity |]. intros p. reflexivity.
  - exists r. split; [exact Hr |]. intros p. reflexivity.
Qed.

Lemma flat_image_has_band t qa v n :
  In n ("QA60" :: "B1" :: optical_bands) ->
  has_band n (bands (flat_image t qa v)) = true.
Proof.
  intros H. apply find_band_names. simpl in *.
  repeat (destruct H as [<- | H]; [tauto |]). destruct H.
Qed.

(** C7.  Scaling replaces the value [v] of every designated band, at every
    pixel, by [v * 0.0001] (masked pixels stay masked), and leaves every other
    band, the band order, the acquisition time and the footprint as they
    were.  This holds for [scale_msi] of [create_rrs_table.py] (bands B2 to
    B8A) and for [scale_msi] of [app.py] (bands B1 to B3), on every image that
    carries the designated bands. *)
Theorem scale_msi_scales_exactly_the_designated_bands :
  forall names scale,
    (names = optical_bands /\ scale = scale_msi) \/
    (names = App.index_bands /\ scale = App.scale_msi) ->
    forall image : Image Q,
      (forall n, In n names -> has_band n (bands image) = true) ->
      exists out,
        scale image = Ok out /\
        bandNames out = bandNames image /\
        time_start out = time_start image /\
        footprint out = footprint image /\
        forall n r,
          find_band n (bands image) = Some r ->
          exists r',
            find_band n (bands out) = Some r' /\
            forall p,
              r' p = if in_names n names
                     then option_map (fun v => (v * (1 # 10000))%Q) (r p)
                     else r p.
Proof.
  intros names scale [[-> ->] | [-> ->]] image Hhas.
  - exact (scale_named_spec optical_bands image Hhas).
  - exact (scale_named_spec App.index_bands image Hhas).
Qed.

Lemma scale_msi_scales_exactly_the_designated_bands_witness :
  exists out,
    scale_msi (flat_image 0 0 (inject_Z 1000)) = Ok out /\
    bandNames out = bandNames (flat_image 0 0 (inject_Z 1000)) /\
    time_start out = 0 /\
    footprint out = footprint (flat_image 0 0 (inject_Z 1000)) /\
    forall n r,
      find_band n (bands (flat_image 0 0 (inject_Z 1000))) = Some r ->
      exists r',
        find_band n (bands out) = Some r' /\
        forall p,
          r' p = if in_names n optical_bands
                 then option_map (fun v => (v * (1 # 10000))%Q) (r p)
                 else r p.
Proof.
  apply (scale_msi_scales_exactly_the_designated_bands
           optical_bands scale_msi (or_introl (conj eq_refl eq_refl))
           (flat_image 0 0 (inject_Z 1000))).
  intros n Hn. apply flat_image_has_band. right. right. exact Hn.
Defined.

(** ** Cloud and validity masking *)

Lemma mask_s2_clouds_named : mask_s2_clouds = mask_named optical_bands.
Proof. reflexivity. Qed.

Lemma mask_S2_clouds_named : App.mask_S2_clouds = mask_named App.index_bands.
Proof. reflexivity. Qed.

Lemma land_bit_zero (a : Z) (n : Z) :
  0 <= n -> (Z.land a (Z.shiftl 1 n) =? 0) = negb (Z.testbit a n).
Proof.
  intros Hn. rewrite Z.shiftl_1_l.
  destruct (Z.testbit a n) eqn:E; simpl.
  - apply Z.eqb_neq. intros H.
    assert (F : Z.testbit (Z.land a (2 ^ n)) n = true).
    { rewrite Z.land_spec, E, Z.pow2_bits_true by exact Hn. reflexivity. }
    rewrite H, Z.bits_0 in F. discriminate F.
  - apply Z.eqb_eq. apply Z.bits_inj'. intros m Hm.
    rewrite Z.land_spec, Z.bits_0, Z.pow2_bits_eqb by exact Hn.
    destruct (Z.eqb_spec n m) as [<- | _].
    + rewrite E. reflexivity.
    + apply andb_false_r.
Qed.

Lemma Qeq_bool_inject_Z (z : Z) : Qeq_bool (inject_Z z) 0 = (z =? 0).
Proof.
  unfold Qeq_bool, inject_Z. simpl. rewrite Z.mul_1_r.
  destruct z; reflexivity.
Qed.

Lemma Qnonzero_of_bool (b : bool) : Qnonzero (of_bool b) = b.
Proof. destruct b; reflexivity. Qed.

Lemma flag_clear (q : Q) (n : Z) :
  0 <= n ->
  Qnonzero (of_bool (Qeq_bool (inject_Z (Z.land (Qfloor q) (Z.shiftl 1 n))) 0))
  = negb (Z.testbit (Qfloor q) n).
Proof.
  intros Hn. rewrite Qnonzero_of_bool, Qeq_bool_inject_Z. apply land_bit_zero, Hn.
Qed.

Lemma select_bands_values names (image : Image Q) sel p :
  select_bands names (bands image) = Ok sel ->
  valid_values sel p = designated_values names image p.
Proof.
  unfold valid_values, designated_values.
  revert sel. induction names as [| n ns IH]; simpl; intros sel H.
  - injection H as <-. reflexivity.
  - destruct (find_band n (bands image)) as [r |]; [| discriminate].
    inv_bind H. injection H as <-. simpl. f_equal. apply IH. assumption.
Qed.

Lemma Qgtb_lt (a : Q) : Qgtb a 0 = true <-> (0 < a)%Q.
Proof.
  unfold Qgtb. rewrite negb_true_iff. split.
  - intros H. apply Qnot_le_lt. intros L. apply Qle_bool_iff in L. congruence.
  - intros H. apply not_true_is_false. intros L. apply Qle_bool_iff in L.
    apply (Qlt_not_le _ _ H L).
Qed.

Lemma qmin_positive (a b : Q) :
  (0 < qmin a b)%Q <-> (0 < a)%Q /\ (0 < b)%Q.
Proof.
  unfold qmin. destruct (Qle_bool a b) eqn:E.
  - apply Qle_bool_iff in E. split.
    + intros H. split; [exact H | eapply Qlt_le_trans; eassumption].
    + intros [H _]. exact H.
  - assert (L : (b < a)%Q).
    { apply Qnot_le_lt. intros L. apply Qle_bool_iff in L. congruence. }
    split.
    + intros H. split; [eapply Qlt_trans; eassumption | exact H].
    + intros [_ H]. exact H.
Qed.

(** The minimum is strictly positive when there is a value and every value
    is strictly positive. *)
Lemma min_strictly_positive_all (vs : list Q) :
  min_strictly_positive vs = true <-> vs <> [] /\ Forall (fun v => (0 < v)%Q) vs.
Proof.
  unfold min_strictly_positive, min_of. destruct vs as [| v rest].
  - split; [discriminate | intros [H _]; congruence].
  - rewrite Qgtb_lt.
    assert (G : forall a, (0 < fold_left qmin rest a)%Q
                          <-> (0 < a)%Q /\ Forall (fun v => (0 < v)%Q) rest).
    { induction rest as [| x rest IH]; intros a; simpl.
      - split; [intros H; split; [exact H | constructor] | intros [H _]; exact H].
      - rewrite IH, qmin_positive. split.
        + intros [[Ha Hx] Hr]. split; [exact Ha | constructor; assumption].
        + intros [Ha Hr]. inversion Hr; subst. tauto. }
    rewrite G. split.
    + intros [Hv Hr]. split; [discriminate | constructor; assumption].
    + intros [_ H]. inversion H; subst. tauto.
Qed.

(** The shared description of masking: it succeeds on an image that carries
    the quality band and the designated bands, keeps every band under its
    name, and masks exactly the excluded pixels. *)
Lemma mask_named_spec (names : list string) (image : Image Q) :
  has_band "QA60" (bands image) = true ->
  (forall n, In n names -> has_band n (bands image) = true) ->
  exists out,
    mask_named names image = Ok out /\
    bandNames out = bandNames image /\
    time_start out = time_start image /\
    footprint out = footprint image /\
    forall n r,
      find_band n (bands image) = Some r ->
      exists r',
        find_band n (bands out) = Some r' /\
        forall p, r' p = if excluded names image p then None else r p.
Proof.
  intros Hqa Hhas.
  destruct (select_bands_total names (bands image) Hhas) as [sel Hsel].
  pose proof (select_bands_idem _ _ _ Hsel) as Hsel2.
  unfold has_band in Hqa.
  destruct (find_band "QA60" (bands image)) as [qa |] eqn:Eqa; [| discriminate].
  unfold mask_named, select. simpl select_bands. rewrite Eqa. simpl bind.
  rewrite Hsel. simpl bind. rewrite Hsel2. simpl.
  eexists. split; [reflexivity |]. unfold bandNames. simpl.
  split; [apply names_map_snd |]. split; [reflexivity |]. split; [reflexivity |].
  intros n r Hr. rewrite find_band_map_snd, Hr. simpl.
  eexists. split; [reflexivity |]. intros p.
  change 1024 with (Z.shiftl 1 10). change 2048 with (Z.shiftl 1 11).
  unfold apply_mask, lift2, excluded, min_strictly_positive.
  rewrite Eqa. rewrite (select_bands_values names image sel p Hsel).
  destruct (qa p) as [q |]; [| reflexivity].
  unfold option_map.
  destruct (min_of (designated_values names image p)) as [m |].
  - rewrite Qnonzero_of_bool.
    rewrite (flag_clear q 10), (flag_clear q 11) by lia.
    rewrite !Qnonzero_of_bool. unfold cloud_bit, cirrus_bit.
    destruct (Z.testbit (Qfloor q) 10), (Z.testbit (Qfloor q) 11), (Qgtb m 0);
      reflexivity.
  - unfold cloud_bit, cirrus_bit.
    destruct (Z.testbit (Qfloor q) 10), (Z.testbit (Qfloor q) 11); reflexivity.
Qed.

Lemma mask_named_ok_has (names : list string) (image out : Image Q) :
  mask_named names image = Ok out ->
  has_band "QA60" (bands image) = true /\
  (forall n, In n names -> has_band n (bands image) = true).
Proof.
  unfold mask_named, select. intros H.
  inv_bind H. inv_bind Ha. inv_bind H. inv_bind Ha1.
  split.
  - eapply select_bands_has; [exact Ha0 | left; reflexivity].
  - eapply select_bands_has. exact Ha2.
Qed.



(** C8.  Masking is monotonic: a pixel that is valid in a band of the masked
    image was valid, with the same value, in that band of the input image. *)
Theorem masking_never_adds_valid_pixels :
  forall names mask,
    (names = optical_bands /\ mask = mask_s2_clouds) \/
    (names = App.index_bands /\ mask = App.mask_S2_clouds) ->
    forall (image out : Image Q),
      mask image = Ok out ->
      forall n r' p v,
        find_band n (bands out) = Some r' ->
        r' p = Some v ->
        exists r, find_band n (bands image) = Some r /\ r p = Some v.
Proof.
  intros names mask Hcase image out Hout n r' p v Hr' Hv.
  assert (Hmask : mask = mask_named names).
  { destruct Hcase as [[-> ->] | [-> ->]]; reflexivity. }
  subst mask.
  destruct (mask_named_ok_has names image out Hout) as [Hqa Hhas].
  destruct (mask_named_spec names image Hqa Hhas) as [out' [H1 [H2 [_ [_ H3]]]]].
  rewrite Hout in H1. injection H1 as <-.
  assert (Hn : has_band n (bands image) = true).
  { apply find_band_names. fold (bandNames image). rewrite <- H2.
    apply find_band_names. unfold has_band. rewrite Hr'. reflexivity. }
  unfold has_band in Hn.
  destruct (find_band n (bands image)) as [r |] eqn:Er; [| discriminate].
  exists r. split; [reflexivity |].
  destruct (H3 n r Er) as [r'' [Hr'' Hp]].
  rewrite Hr' in Hr''. injection Hr'' as <-.
  rewrite Hp in Hv. destruct (excluded names image p); [discriminate | exact Hv].
Qed.

Lemma masking_never_adds_valid_pixels_witness :
  exists out,
    mask_s2_clouds (flat_image 0 0 (inject_Z 1000)) = Ok out /\
    forall n r' p v,
      find_band n (bands out) = Some r' ->
      r' p = Some v ->
      exists r, find_band n (bands (flat_image 0 0 (inject_Z 1000))) = Some r /\
                r p = Some v.
Proof.
  eexists. split; [reflexivity |].
  apply (masking_never_adds_valid_pixels
           optical_bands mask_s2_clouds (or_introl (conj eq_refl eq_refl))
           (flat_image 0 0 (inject_Z 1000))).
  reflexivity.
Defined.

(** ** The matcher: one observation *)

Lemma first_valid_Some pt cands k c :
  first_valid pt cands = Some (k, c) <->
  nth_error cands k = Some c /\
  b3_median c pt <> None /\
  (forall j c', (j < k)%nat -> nth_error cands j = Some c' -> b3_median c' pt = None).
Proof.
  revert k. induction cands as [| x rest IH]; simpl; intros k.
  - split; [discriminate |]. intros [H _]. destruct k; discriminate H.
  - destruct (b3_median x pt) as [v |] eqn:E.
    + split.
      * intros [= <- <-]. simpl. rewrite E. repeat split; [discriminate |].
        intros j c' Hj. lia.
      * intros [Hn [Hv Hbefore]]. destruct k as [| k].
        -- simpl in Hn. congruence.
        -- specialize (Hbefore O x (Nat.lt_0_succ k) eq_refl). congruence.
    + destruct (first_valid pt rest) as [[k' c''] |] eqn:F; simpl.
      * split.
        -- intros [= <- <-]. destruct (proj1 (IH k') eq_refl) as [Hn [Hv Hb]].
           simpl. repeat split; [exact Hn | exact Hv |].
           intros [| j] c' Hj Hc'; simpl in Hc'.
           ++ congruence.
           ++ apply (Hb j c'); [lia | exact Hc'].
        -- intros [Hn [Hv Hb]]. destruct k as [| k]; simpl in Hn.
           ++ congruence.
           ++ assert (G : Some (k', c'') = Some (k, c)).
              { apply IH. repeat split; [exact Hn | exact Hv |].
                intros j c' Hj Hc'. apply (Hb (S j) c'); [lia | exact Hc']. }
              congruence.
      * split; [discriminate |]. intros [Hn [Hv Hb]]. destruct k as [| k]; simpl in Hn.
        -- congruence.
        -- assert (G : None = Some (k, c)).
           { apply IH. repeat split; [exact Hn | exact Hv |].
             intros j c' Hj Hc'. apply (Hb (S j) c'); [lia | exact Hc']. }
           discriminate G.
Qed.

Lemma first_valid_None pt cands :
  first_valid pt cands = None <-> Forall (fun c => b3_median c pt = None) cands.
Proof.
  induction cands as [| x rest IH]; simpl.
  - split; [constructor | reflexivity].
  - destruct (b3_median x pt) as [v |] eqn:E.
    + split; [discriminate |]. intros H. inversion H. congruence.
    + destruct (first_valid pt rest) as [kc |]; simpl.
      * split; [discriminate |]. intros H. inversion H as [| ? ? _ Hrest].
        apply IH in Hrest. discriminate Hrest.
      * split; [| reflexivity]. intros _. constructor; [exact E | apply IH; reflexivity].
Qed.

Lemma stats_get_median (c : Image Q) (pt : point) (k : string) :
  stats_get k (reduceRegion_median c pt)
  = match find_band k (bands c) with
    | Some r => Ok (r pt)
    | None => Err KeyError
    end.
Proof.
  unfold reduceRegion_median. induction (bands c) as [| [n r] bs IH]; simpl.
  - reflexivity.
  - destruct (String.eqb n k); [reflexivity | exact IH].
Qed.

(** The scan stops at the first valid candidate and samples the candidates
    up to it, or all of them when none is valid. *)
Lemma scan_first_valid (i : Z) (pt : point) (cands : list (Image Q)) (j : nat) :
  (forall c, In c cands -> has_band "B3" (bands c) = true) ->
  scan i pt cands j
  = Ok (match first_valid pt cands with
        | Some (k, c) => (VDict (reduceRegion_median c pt), reduce_calls i j (S k))
        | None => (VNone, reduce_calls i j (List.length cands))
        end).
Proof.
  revert j. induction cands as [| x rest IH]; intros j Hb3; simpl.
  - reflexivity.
  - rewrite stats_get_median. unfold b3_median, band_median.
    pose proof (Hb3 x (or_introl eq_refl)) as Hx. unfold has_band in Hx.
    destruct (find_band "B3" (bands x)) as [r |]; [| discriminate]. simpl.
    destruct (r pt) as [v |]; [reflexivity |].
    rewrite IH by (intros c Hc; apply Hb3; right; exact Hc). simpl.
    destruct (first_valid pt rest) as [[k c] |]; reflexivity.
Qed.

(** A candidate that came out of the masking step carries the designated
    bands, the reference band among them. *)
Lemma masked_has_optical (scaled c : Image Q) (n : string) :
  mask_s2_clouds scaled = Ok c -> In n optical_bands -> has_band n (bands c) = true.
Proof.
  rewrite mask_s2_clouds_named. intros H Hn.
  destruct (mask_named_ok_has _ _ _ H) as [Hqa Hhas].
  destruct (mask_named_spec _ _ Hqa Hhas) as [c' [H1 [H2 _]]].
  rewrite H in H1. injection H1 as <-.
  apply find_band_names. fold (bandNames c). rewrite H2.
  apply find_band_names. apply Hhas. exact Hn.
Qed.

Lemma evaluate_images_optical ic d pt cands :
  evaluate_images ic d pt = Ok cands ->
  forall c n, In c cands -> In n optical_bands -> has_band n (bands c) = true.
Proof.
  unfold evaluate_images. intros H. inv_bind H. inv_bind H.
  apply mapM_ok_Forall2 in H. intros c n Hc Hn.
  clear - H Hc Hn. induction H as [| x y xs ys Hxy _ IH]; [destruct Hc |].
  destruct Hc as [<- | Hc]; [eapply masked_has_optical; eassumption | apply IH, Hc].
Qed.

Lemma evaluate_images_B3 ic d pt cands :
  evaluate_images ic d pt = Ok cands ->
  forall c, In c cands -> has_band "B3" (bands c) = true.
Proof.
  intros H c Hc. apply (evaluate_images_optical ic d pt cands H c "B3" Hc).
  simpl. tauto.
Qed.

Lemma filter_none {A : Type} (f : A -> bool) (l : list A) :
  (forall x, In x l -> f x = false) -> filter f l = [].
Proof.
  induction l as [| x l IH]; simpl; intros H; [reflexivity |].
  rewrite (H x (or_introl eq_refl)). apply IH. intros y Hy. apply H. right. exact Hy.
Qed.

Lemma unique_label_filter (df : DataFrame) (i : Z) (row : Row) :
  NoDup (index df) -> In (i, row) df ->
  filter (fun r : Z * Row => fst r =? i) df = [(i, row)].
Proof.
  unfold index. induction df as [| [k r] df IH]; simpl; intros Hnd Hin; [destruct Hin |].
  inversion Hnd as [| ? ? Hk Hnd']; subst.
  destruct Hin as [Hin | Hin].
  - injection Hin as -> ->. rewrite Z.eqb_refl. f_equal.
    apply filter_none.
    intros [k' r'] Hin'. simpl. apply Z.eqb_neq. intros ->.
    apply Hk. apply (in_map fst) in Hin'. exact Hin'.
  - destruct (Z.eqb_spec k i) as [-> | _].
    + exfalso. apply Hk. apply (in_map fst) in Hin. exact Hin.
    + apply IH; assumption.
Qed.

Lemma resolve_unique (ic : ImageCollection) (df : DataFrame) (i : Z) (row : Row) :
  NoDup (index df) -> In (i, row) df ->
  resolve ic df i = resolve_row ic i row.
Proof.
  intros Hnd Hin. unfold resolve, resolve_row, getitem, observation_point.
  rewrite (unique_label_filter df i row Hnd Hin). cbn [bind ee_Date fst snd].
  destruct (py_float (Scalar (LONGITUDE row))) as [lon | e];
    cbn [bind]; [| reflexivity].
  destruct (py_float (Scalar (LATITUDE row))) as [lat | e];
    cbn [bind]; [| reflexivity].
  destruct (evaluate_images ic (datetime row) (lon, lat)) as [images | e] eqn:E;
    cbn [bind]; [| reflexivity].
  unfold outcome. destruct images as [| c rest]; [reflexivity |].
  rewrite (scan_first_valid i (lon, lat) (c :: rest) 0 (evaluate_images_B3 _ _ _ _ E)).
  cbn [List.length Nat.ltb Nat.leb bind].
  destruct (first_valid (lon, lat) (c :: rest)) as [[k c'] |]; reflexivity.
Qed.

(** A label that occurs twice selects a sub-series, which the provider's
    date constructor rejects. *)
Lemma resolve_ok_unique (ic : ImageCollection) (df : DataFrame) (i : Z) res :
  resolve ic df i = Ok res ->
  exists row, filter (fun r : Z * Row => fst r =? i) df = [(i, row)].
Proof.
  unfold resolve, getitem. intros H.
  destruct (filter (fun r : Z * Row => fst r =? i) df) as [| [k row] [| r2 rest]] eqn:F;
    simpl in H; try discriminate H.
  exists row. f_equal. f_equal.
  assert (Hin : In (k, row) (filter (fun r : Z * Row => fst r =? i) df))
    by (rewrite F; left; reflexivity).
  apply filter_In in Hin. destruct Hin as [_ Hk]. simpl in Hk.
  apply Z.eqb_eq in Hk. exact Hk.
Qed.

(** ** The matcher: the dictionary of results *)

Lemma dict_set_middle (pre d : dict) (k : Z) (v w : pyval) :
  ~ In k (map fst pre) ->
  dict_set k w (pre ++ (k, v) :: d) = pre ++ (k, w) :: d.
Proof.
  induction pre as [| [k' v'] pre IH]; simpl; intros Hk.
  - rewrite Z.eqb_refl. reflexivity.
  - destruct (Z.eqb_spec k' k) as [-> | _]; [tauto |].
    rewrite IH by tauto. reflexivity.
Qed.

Lemma dict_set_fresh (d : dict) (k : Z) (w : pyval) :
  ~ In k (map fst d) -> dict_set k w d = d ++ [(k, w)].
Proof.
  induction d as [| [k' v'] d IH]; simpl; intros Hk; [reflexivity |].
  destruct (Z.eqb_spec k' k) as [-> | _]; [tauto |].
  rewrite IH by tauto. reflexivity.
Qed.

Lemma dict_of_pairs_fresh (kvs acc : dict) :
  NoDup (map fst acc ++ map fst kvs) ->
  fold_left (fun d kv => dict_set (fst kv) (snd kv) d) kvs acc = acc ++ kvs.
Proof.
  revert acc. induction kvs as [| [k v] kvs IH]; simpl; intros acc Hnd.
  - rewrite app_nil_r. reflexivity.
  - rewrite dict_set_fresh.
    + rewrite IH.
      * rewrite <- app_assoc. reflexivity.
      * rewrite map_app, <- app_assoc. exact Hnd.
    + intros Hin. apply NoDup_remove_2 in Hnd. apply Hnd, in_or_app. left. exact Hin.
Qed.

Lemma dict_of_pairs_unique (kvs : dict) :
  NoDup (map fst kvs) -> dict_of_pairs kvs = kvs.
Proof. intros H. unfold dict_of_pairs. rewrite dict_of_pairs_fresh; [reflexivity | exact H]. Qed.

Lemma dict_set_keys (d : dict) (k k' : Z) (w : pyval) :
  In k' (dict_keys (dict_set k w d)) <-> k' = k \/ In k' (dict_keys d).
Proof.
  unfold dict_keys. induction d as [| [k0 v0] d IH]; simpl.
  - intuition congruence.
  - destruct (Z.eqb_spec k0 k) as [-> | Hne]; simpl.
    + intuition congruence.
    + rewrite IH. intuition congruence.
Qed.

Lemma dict_of_pairs_keys (kvs : dict) (k : Z) :
  In k (dict_keys (dict_of_pairs kvs)) <-> In k (map fst kvs).
Proof.
  unfold dict_of_pairs.
  assert (G : forall acc,
             In k (dict_keys (fold_left (fun d kv => dict_set (fst kv) (snd kv) d) kvs acc))
             <-> In k (dict_keys acc) \/ In k (map fst kvs)).
  { induction kvs as [| [k0 v0] kvs IH]; simpl; intros acc.
    - tauto.
    - rewrite IH, dict_set_keys. intuition congruence. }
  rewrite G. simpl. tauto.
Qed.

Lemma combine_index (df : DataFrame) (f : Z * Row -> pyval) :
  map fst (combine (index df) (map f df)) = index df.
Proof.
  unfold index. induction df as [| r df IH]; simpl; [reflexivity |].
  f_equal. exact IH.
Qed.

(** Writing the results for the keys of a dict, in order, rewrites its values
    and keeps its keys. *)
Lemma set_all (d pre : dict) (results : list (pyval * list call)) :
  List.length results = List.length d ->
  NoDup (map fst pre ++ map fst d) ->
  fold_left (fun acc kr => dict_set (fst kr) (fst (snd kr)) acc)
            (combine (map fst d) results) (pre ++ d)
  = pre ++ combine (map fst d) (map fst results).
Proof.
  revert pre results. induction d as [| [k v] d IH]; intros pre results Hlen Hnd.
  - reflexivity.
  - destruct results as [| [w c] results]; [discriminate Hlen |]. simpl.
    rewrite dict_set_middle.
    + change (pre ++ (k, w) :: d) with (pre ++ [(k, w)] ++ d).
      rewrite app_assoc. rewrite IH.
      * rewrite <- app_assoc. reflexivity.
      * simpl in Hlen. lia.
      * rewrite map_app, <- app_assoc. exact Hnd.
    + intros Hin. simpl in Hnd. apply NoDup_remove_2 in Hnd.
      apply Hnd, in_or_app. left. exact Hin.
Qed.

(** *** The first loop *)

Lemma for_each_resolve (ic : ImageCollection) (df : DataFrame) (keys : list Z)
      (st : dict * list call) :
  for_each keys (resolve_step ic df) st
  = (results <- mapM (resolve ic df) keys ;;
     Ok (fold_left (fun acc kr => dict_set (fst kr) (fst (snd kr)) acc)
                   (combine keys results) (fst st),
         snd st ++ List.concat (map snd results))).
Proof.
  revert st. induction keys as [| k keys IH]; intros [d tr]; simpl.
  - rewrite app_nil_r. reflexivity.
  - unfold resolve_step at 1.
    destruct (resolve ic df k) as [[v c] | e]; simpl; [| reflexivity].
    rewrite IH. destruct (mapM (resolve ic df) keys) as [results | e]; simpl;
      [| reflexivity].
    rewrite <- app_assoc. reflexivity.
Qed.

Lemma mapM_map {A B C : Type} (f : B -> result C) (g : A -> B) (xs : list A) :
  mapM f (map g xs) = mapM (fun x => f (g x)) xs.
Proof.
  induction xs as [| x xs IH]; simpl; [reflexivity |]. rewrite IH. reflexivity.
Qed.

Lemma mapM_ext_in {A B : Type} (f g : A -> result B) (xs : list A) :
  (forall x, In x xs -> f x = g x) -> mapM f xs = mapM g xs.
Proof.
  induction xs as [| x xs IH]; simpl; intros H; [reflexivity |].
  rewrite (H x (or_introl eq_refl)), IH; [reflexivity |].
  intros y Hy. apply H. right. exact Hy.
Qed.

Lemma mapM_length {A B : Type} (f : A -> result B) (xs : list A) (ys : list B) :
  mapM f xs = Ok ys -> List.length ys = List.length xs.
Proof.
  intros H. apply mapM_ok_Forall2 in H. symmetry. eapply Forall2_length, H.
Qed.

Lemma first_loop_unique (ic : ImageCollection) (df : DataFrame) :
  NoDup (index df) ->
  let dict_stats :=
    dict_of_pairs (combine (index df) (map (fun r => VStr (datetime (snd r))) df)) in
  for_each (dict_keys dict_stats) (resolve_step ic df) (dict_stats, [])
  = (results <- resolve_rows ic df ;;
     Ok (combine (index df) (map fst results), List.concat (map snd results))).
Proof.
  intros Hnd dict_stats.
  assert (Hd : dict_stats = combine (index df) (map (fun r => VStr (datetime (snd r))) df)).
  { apply dict_of_pairs_unique. rewrite combine_index. exact Hnd. }
  rewrite Hd. rewrite for_each_resolve. unfold dict_keys. rewrite combine_index.
  unfold resolve_rows.
  assert (Hm : mapM (resolve ic df) (index df)
               = mapM (fun ir : Z * Row => resolve_row ic (fst ir) (snd ir)) df).
  { unfold index. rewrite mapM_map. apply mapM_ext_in. intros [i row] Hin.
    apply resolve_unique; assumption. }
  rewrite Hm.
  destruct (mapM (fun ir : Z * Row => resolve_row ic (fst ir) (snd ir)) df)
    as [results | e] eqn:E; simpl; [| reflexivity].
  f_equal. f_equal.
  pose proof (set_all (combine (index df) (map (fun r => VStr (datetime (snd r))) df))
                      [] results) as S.
  simpl in S. rewrite combine_index in S. apply S.
  - rewrite (mapM_length _ _ _ E). rewrite length_combine. unfold index.
    rewrite !length_map. lia.
  - exact Hnd.
Qed.

(** A run that completes had unique labels. *)
Lemma singleton_filters_unique (df : DataFrame) :
  (forall i, In i (index df) ->
             exists r, filter (fun x : Z * Row => fst x =? i) df = [r]) ->
  NoDup (index df).
Proof.
  unfold index. induction df as [| [k row] df IH]; simpl; intros H; [constructor |].
  constructor.
  - intros Hin. destruct (H k (or_introl eq_refl)) as [r Hr].
    rewrite Z.eqb_refl in Hr. injection Hr as _ Hr.
    apply in_map_iff in Hin. destruct Hin as [[k' row'] [Hk Hin]]. simpl in Hk. subst k'.
    assert (F : In (k, row') (filter (fun x : Z * Row => fst x =? k) df)).
    { apply filter_In. split; [exact Hin | apply Z.eqb_refl]. }
    rewrite Hr in F. destruct F.
  - apply IH. intros i Hi. destruct (H i (or_intror Hi)) as [r Hr].
    destruct (Z.eqb_spec k i) as [-> | _].
    + exfalso. injection Hr as _ Hr.
      apply in_map_iff in Hi. destruct Hi as [[k' row'] [Hk Hin]]. simpl in Hk. subst k'.
      assert (F : In (i, row') (filter (fun x : Z * Row => fst x =? i) df)).
      { apply filter_In. split; [exact Hin | apply Z.eqb_refl]. }
      rewrite Hr in F. destruct F.
    + exists r. exact Hr.
Qed.

Lemma mapM_ok_in {A B : Type} (f : A -> result B) (xs : list A) (ys : list B) (x : A) :
  mapM f xs = Ok ys -> In x xs -> exists y, f x = Ok y /\ In y ys.
Proof.
  intros H. apply mapM_ok_Forall2 in H.
  induction H as [| a b xs ys Hab _ IH]; intros Hin; [destruct Hin |].
  destruct Hin as [<- | Hin].
  - exists b. split; [exact Hab | left; reflexivity].
  - destruct (IH Hin) as [y [Hy Hy']]. exists y. split; [exact Hy | right; exact Hy'].
Qed.

Lemma first_loop_ok_unique (ic : ImageCollection) (df : DataFrame) st :
  let dict_stats :=
    dict_of_pairs (combine (index df) (map (fun r => VStr (datetime (snd r))) df)) in
  for_each (dict_keys dict_stats) (resolve_step ic df) (dict_stats, []) = Ok st ->
  NoDup (index df).
Proof.
  intros dict_stats H. rewrite for_each_resolve in H. inv_bind H.
  apply singleton_filters_unique. intros i Hi.
  assert (Hk : In i (dict_keys dict_stats)).
  { apply dict_of_pairs_keys. rewrite combine_index. exact Hi. }
  destruct (mapM_ok_in _ _ _ i Ha Hk) as [res [Hres _]].
  destruct (resolve_ok_unique ic df i res Hres) as [row Hrow].
  exists (i, row). exact Hrow.
Qed.

(** *** The clean-up pass *)

Lemma filter_filter {A : Type} (f g : A -> bool) (l : list A) :
  filter f (filter g l) = filter (fun x => g x && f x) l.
Proof.
  induction l as [| x l IH]; simpl; [reflexivity |].
  destruct (g x); simpl; [destruct (f x) |]; rewrite IH; reflexivity.
Qed.

Lemma drop_fold (l acc : dict) :
  fold_left (fun acc kv => if truthy (snd kv) then acc else dict_del (fst kv) acc) l acc
  = filter (fun kv : Z * pyval =>
              negb (existsb (fun x : Z * pyval =>
                               (fst kv =? fst x) && negb (truthy (snd x))) l))
           acc.
Proof.
  revert acc. induction l as [| x l IH]; simpl; intros acc.
  - symmetry. apply forallb_filter_id. apply forallb_forall. reflexivity.
  - rewrite IH. destruct (truthy (snd x)); simpl.
    + apply filter_ext. intros kv. rewrite andb_false_r. reflexivity.
    + unfold dict_del. rewrite filter_filter. apply filter_ext. intros kv.
      rewrite andb_true_r, negb_orb. reflexivity.
Qed.

Lemma unique_key_entry (d : dict) (x y : Z * pyval) :
  NoDup (map fst d) -> In x d -> In y d -> fst x = fst y -> x = y.
Proof.
  induction d as [| z d IH]; simpl; intros Hnd Hx Hy Hk; [destruct Hx |].
  inversion Hnd as [| ? ? Hz Hnd']; subst.
  destruct Hx as [-> | Hx], Hy as [-> | Hy].
  - reflexivity.
  - exfalso. apply Hz. rewrite Hk. apply in_map, Hy.
  - exfalso. apply Hz. rewrite <- Hk. apply in_map, Hx.
  - apply IH; assumption.
Qed.

Lemma drop_unresolved_unique (d : dict) :
  NoDup (map fst d) ->
  drop_unresolved d = filter (fun kv => truthy (snd kv)) d.
Proof.
  intros Hnd. unfold drop_unresolved. rewrite drop_fold.
  apply filter_ext_in. intros kv Hkv.
  destruct (truthy (snd kv)) eqn:T.
  - apply negb_true_iff. apply not_true_is_false. intros H.
    apply existsb_exists in H. destruct H as [x [Hx Hc]].
    apply andb_true_iff in Hc. destruct Hc as [Hk Hf]. apply Z.eqb_eq in Hk.
    rewrite (unique_key_entry d kv x Hnd Hkv Hx Hk) in T.
    rewrite T in Hf. discriminate Hf.
  - apply negb_false_iff. apply existsb_exists. exists kv.
    split; [exact Hkv |]. rewrite Z.eqb_refl, T. reflexivity.
Qed.

(** *** The frame and the table *)

Lemma from_dict_settled (d : dict) :
  Forall (fun kv => settled (snd kv)) d ->
  mapM as_stats (filter (fun kv => truthy (snd kv)) d) = Ok (stats_rows d).
Proof.
  induction 1 as [| [k v] d Hv _ IH]; [reflexivity |].
  destruct v as [s | | s]; [destruct Hv | exact IH |].
  unfold stats_rows. cbn [filter snd flat_map fst].
  destruct (truthy (VDict s)); [| exact IH].
  cbn [mapM as_stats snd fst bind]. rewrite IH. reflexivity.
Qed.

Lemma add_column_in (cols : list string) (k c : string) :
  In c (add_column cols k) <-> In c cols \/ c = k.
Proof.
  unfold add_column. destruct (existsb (String.eqb k) cols) eqn:E.
  - split; [tauto |]. intros [H | ->]; [exact H |].
    apply existsb_exists in E. destruct E as [x [Hx Hk]].
    apply String.eqb_eq in Hk. subst x. exact Hx.
  - rewrite in_app_iff. simpl. intuition congruence.
Qed.

Lemma add_columns_in (ks cols : list string) (c : string) :
  In c (fold_left add_column ks cols) <-> In c cols \/ In c ks.
Proof.
  revert cols. induction ks as [| k ks IH]; simpl; intros cols; [tauto |].
  rewrite IH, add_column_in. intuition congruence.
Qed.

Lemma union_columns_in (R : list (Z * stats)) (c : string) :
  In c (union_columns R) <-> exists r, In r R /\ In c (map fst (snd r)).
Proof.
  unfold union_columns.
  assert (G : forall acc,
             In c (fold_left (fun cols r => fold_left add_column (map fst (snd r)) cols) R acc)
             <-> In c acc \/ exists r : Z * stats, In r R /\ In c (map fst (snd r))).
  { induction R as [| r R IH]; simpl; intros acc.
    - split; [tauto |]. intros [H | [r [[] _]]]. exact H.
    - rewrite IH, add_columns_in. split.
      + intros [[H | H] | [r' [H1 H2]]]; [tauto | | ].
        * right. exists r. tauto.
        * right. exists r'. tauto.
      + intros [H | [r' [[<- | H1] H2]]]; [tauto | tauto |].
        right. exists r'. tauto. }
  rewrite G. simpl. tauto.
Qed.

Lemma loc_columns_rows (R : list (Z * stats)) :
  (forall r c, In r R -> In c optical_bands -> In c (map fst (snd r))) ->
  loc_columns optical_bands (mkFrame (union_columns R) R)
  = match R with
    | [] => Err KeyError
    | _ => Ok (mkTable optical_bands
                 (map (fun r : Z * stats => (fst r, band_values (snd r))) R))
    end.
Proof.
  intros H. destruct R as [| r R]; [reflexivity |].
  unfold loc_columns. cbn [fcolumns frows].
  assert (F : forallb (fun c => existsb (String.eqb c) (union_columns (r :: R)))
                      optical_bands = true).
  { apply forallb_forall. intros c Hc. apply existsb_exists. exists c.
    split; [| apply String.eqb_refl].
    apply union_columns_in. exists r. split; [left; reflexivity |].
    apply H; [left; reflexivity | exact Hc]. }
  rewrite F. reflexivity.
Qed.

Lemma join_rows_entries (other : DataFrame) (d : dict) :
  flat_map (join_row other)
           (map (fun r : Z * stats => (fst r, band_values (snd r))) (stats_rows d))
  = flat_map (entry_rows other) d.
Proof.
  unfold stats_rows. induction d as [| [k v] d IH]; [reflexivity |].
  cbn [flat_map]. rewrite map_app, flat_map_app, IH. f_equal.
  unfold entry_rows. cbn [snd fst].
  destruct v as [s | | s]; try reflexivity.
  destruct (truthy (VDict s)); [| reflexivity].
  cbn [map flat_map fst snd]. apply app_nil_r.
Qed.

Lemma join_row_label other r x : In x (join_row other r) -> fst x = fst r.
Proof.
  unfold join_row.
  destruct (filter (fun m : Z * Row => fst m =? fst r) other) as [| m ms].
  - intros [<- | []]. reflexivity.
  - intros H. apply in_map_iff in H. destruct H as [y [<- _]]. reflexivity.
Qed.

Lemma join_row_nonempty other r : join_row other r <> [].
Proof.
  unfold join_row.
  destruct (filter (fun m : Z * Row => fst m =? fst r) other); discriminate.
Qed.

Lemma entry_rows_label other kv x : In x (entry_rows other kv) -> fst x = fst kv.
Proof.
  unfold entry_rows. destruct (snd kv) as [s | | s]; try (intros []).
  destruct (truthy (VDict s)); [| intros []].
  intros H. apply join_row_label in H. exact H.
Qed.

Lemma filter_label_entries other (d : dict) (i : Z) (v : pyval) :
  NoDup (map fst d) -> In (i, v) d ->
  filter (fun x : Z * list (option Q) => fst x =? i) (flat_map (entry_rows other) d)
  = entry_rows other (i, v).
Proof.
  induction d as [| kv d IH]; intros Hnd Hin; [destruct Hin |].
  inversion Hnd as [| ? ? Hk Hnd']; subst.
  cbn [flat_map]. rewrite filter_app.
  destruct Hin as [-> | Hin].
  - rewrite (filter_none _ (flat_map (entry_rows other) d)).
    + rewrite app_nil_r. apply forallb_filter_id. apply forallb_forall.
      intros x Hx. apply entry_rows_label in Hx. simpl in Hx. apply Z.eqb_eq, Hx.
    + intros x Hx. apply in_flat_map in Hx. destruct Hx as [kv [Hkv Hx]].
      apply entry_rows_label in Hx. apply Z.eqb_neq. intros E. apply Hk.
      simpl. rewrite <- E, Hx. apply in_map, Hkv.
  - rewrite (filter_none _ (entry_rows other kv)).
    + apply IH; assumption.
    + intros x Hx. apply entry_rows_label in Hx. apply Z.eqb_neq. intros E. apply Hk.
      rewrite <- Hx, E. apply (in_map fst) in Hin. exact Hin.
Qed.

(** ** The matcher: the whole table *)

Lemma value_in_median (c : Image Q) (pt : point) (n : string) :
  value_in (reduceRegion_median c pt) n = band_median c pt n.
Proof.
  unfold value_in, band_median. rewrite stats_get_median.
  destruct (find_band n (bands c)); reflexivity.
Qed.

Lemma median_keys (c : Image Q) (pt : point) :
  map fst (reduceRegion_median c pt) = bandNames c.
Proof. unfold reduceRegion_median, bandNames. rewrite map_map. reflexivity. Qed.

Lemma resolve_row_inv ic i row res :
  resolve_row ic i row = Ok res ->
  exists pt cands,
    observation_point row = Ok pt /\
    evaluate_images ic (datetime row) pt = Ok cands /\
    res = outcome i pt cands.
Proof.
  unfold resolve_row. intros H. inv_bind H. inv_bind H. injection H as <-.
  eexists. eexists. repeat split; eassumption.
Qed.

Lemma resolve_row_ok ic i row pt cands :
  observation_point row = Ok pt ->
  evaluate_images ic (datetime row) pt = Ok cands ->
  resolve_row ic i row = Ok (outcome i pt cands).
Proof.
  unfold resolve_row. intros H1 H2. rewrite H1. cbn [bind]. rewrite H2. reflexivity.
Qed.

Lemma first_valid_in pt cands k c : first_valid pt cands = Some (k, c) -> In c cands.
Proof.
  intros H. apply first_valid_Some in H. destruct H as [H _].
  eapply nth_error_In, H.
Qed.

Lemma outcome_value i pt cands :
  fst (outcome i pt cands)
  = match first_valid pt cands with
    | Some (k, c) => VDict (reduceRegion_median c pt)
    | None => VNone
    end.
Proof.
  unfold outcome. destruct cands as [| x rest]; [reflexivity |].
  destruct (first_valid pt (x :: rest)) as [[k c] |]; reflexivity.
Qed.

Lemma outcome_calls i pt cands i' j :
  In (ReduceInfo i' j) (snd (outcome i pt cands)) <->
  i' = i /\
  (j < match first_valid pt cands with
       | Some (k, _) => S k
       | None => List.length cands
       end)%nat.
Proof.
  assert (R : forall n, In (ReduceInfo i' j) (reduce_calls i 0 n) <-> i' = i /\ (j < n)%nat).
  { intros n. unfold reduce_calls. rewrite in_map_iff. split.
    - intros [x [E Hx]]. injection E as -> ->. apply in_seq in Hx. split; [reflexivity | lia].
    - intros [-> Hj]. exists j. split; [reflexivity | apply in_seq; lia]. }
  unfold outcome. destruct cands as [| x rest].
  - simpl. split; [intros [H | []]; discriminate H | intros [_ H]; lia].
  - destruct (first_valid pt (x :: rest)) as [[k c] |]; cbn [snd In]; rewrite R;
      split; try tauto; intros [H | [H | H]]; try discriminate H; exact H.
Qed.

Lemma outcome_truthy i pt cands ic d s :
  evaluate_images ic d pt = Ok cands ->
  fst (outcome i pt cands) = VDict s ->
  truthy (VDict s) = true /\ forall n, In n optical_bands -> In n (map fst s).
Proof.
  intros Hev. rewrite outcome_value.
  destruct (first_valid pt cands) as [[k c] |] eqn:F; [| discriminate].
  intros [= <-]. apply first_valid_in in F.
  assert (K : forall n, In n optical_bands -> In n (map fst (reduceRegion_median c pt))).
  { intros n Hn. rewrite median_keys. apply find_band_names.
    eapply evaluate_images_optical; eassumption. }
  split; [| exact K].
  specialize (K "B3"). simpl in K.
  destruct (reduceRegion_median c pt); [| reflexivity].
  exfalso. apply K. tauto.
Qed.

(** The entries of the dict after the first loop, against the rows. *)
Lemma entries_of_rows ic df results :
  resolve_rows ic df = Ok results ->
  Forall2 (fun (ir : Z * Row) (kv : Z * pyval) =>
             fst kv = fst ir /\
             exists c, resolve_row ic (fst ir) (snd ir) = Ok (snd kv, c))
          df (combine (index df) (map fst results)).
Proof.
  unfold resolve_rows, index. intros H. apply mapM_ok_Forall2 in H.
  induction H as [| [i row] [v c] df results Hxy _ IH]; simpl; constructor.
  - split; [reflexivity |]. exists c. exact Hxy.
  - exact IH.
Qed.

Lemma Forall2_in_l {A B : Type} (P : A -> B -> Prop) xs ys x :
  Forall2 P xs ys -> In x xs -> exists y, In y ys /\ P x y.
Proof.
  induction 1 as [| a b xs ys Hab _ IH]; intros Hin; [destruct Hin |].
  destruct Hin as [<- | Hin].
  - exists b. split; [left; reflexivity | exact Hab].
  - destruct (IH Hin) as [y [Hy Hp]]. exists y. split; [right; exact Hy | exact Hp].
Qed.

Lemma Forall2_in_r {A B : Type} (P : A -> B -> Prop) xs ys y :
  Forall2 P xs ys -> In y ys -> exists x, In x xs /\ P x y.
Proof.
  induction 1 as [| a b xs ys Hab _ IH]; intros Hin; [destruct Hin |].
  destruct Hin as [<- | Hin].
  - exists a. split; [left; reflexivity | exact Hab].
  - destruct (IH Hin) as [x [Hx Hp]]. exists x. split; [right; exact Hx | exact Hp].
Qed.

Lemma map_fst_combine {A B : Type} (xs : list A) (ys : list B) :
  List.length ys = List.length xs -> map fst (combine xs ys) = xs.
Proof.
  revert ys. induction xs as [| x xs IH]; intros [| y ys] H; simpl in *;
    try reflexivity; try discriminate H.
  f_equal. apply IH. lia.
Qed.

Lemma entries_keys ic df results :
  resolve_rows ic df = Ok results ->
  map fst (combine (index df) (map fst results)) = index df.
Proof.
  intros H. apply mapM_length in H. apply map_fst_combine.
  unfold index. rewrite !length_map. exact H.
Qed.

(** The table build in closed form, for unique labels: it fails when a row
    fails, when no observation is resolved (the frame then has no band
    column to select) and when [df_all] is unbound. *)
Lemma preproc_unique (g : Globals) (ic : ImageCollection) (df : DataFrame) :
  NoDup (index df) ->
  preproc g ic df
  = (results <- resolve_rows ic df ;;
     let entries := combine (index df) (map fst results) in
     match stats_rows entries with
     | [] => Err KeyError
     | _ =>
         match df_all g with
         | None => Err NameError
         | Some other =>
             Ok (mkTable (optical_bands ++ ["CHL"]) (flat_map (entry_rows other) entries),
                 List.concat (map snd results))
         end
     end).
Proof.
  intros Hnd. unfold preproc. rewrite (first_loop_unique ic df Hnd).
  destruct (resolve_rows ic df) as [results |] eqn:E; [| reflexivity].
  cbn [bind]. cbv zeta.
  pose proof (entries_of_rows ic df results E) as HF.
  pose proof (entries_keys ic df results E) as HK.
  set (entries := combine (index df) (map fst results)) in *.
  rewrite drop_unresolved_unique by (rewrite HK; exact Hnd).
  unfold from_dict_index. rewrite from_dict_settled.
  - cbn [bind]. rewrite loc_columns_rows.
    + destruct (stats_rows entries) as [| r R] eqn:ER; [reflexivity |].
      cbn [bind]. destruct (df_all g) as [other |]; [| reflexivity].
      f_equal. f_equal. unfold join_CHL. cbn [columns rows]. f_equal.
      rewrite <- ER. rewrite <- join_rows_entries. reflexivity.
    + intros [k s] c Hr Hc. unfold stats_rows in Hr. apply in_flat_map in Hr.
      destruct Hr as [[k' v] [Hkv Hr]]. cbn [snd fst] in Hr.
      destruct v as [t | | t]; try (destruct Hr; fail).
      destruct (truthy (VDict t)); [| destruct Hr].
      destruct Hr as [Hr | []]. injection Hr as -> ->.
      destruct (Forall2_in_r _ _ _ _ HF Hkv) as [[i row] [_ [_ [cl Hres]]]].
      cbn [fst snd] in Hres.
      destruct (resolve_row_inv _ _ _ _ Hres) as [pt [cands [_ [Hev Hout]]]].
      apply (f_equal fst) in Hout. cbn [fst] in Hout. symmetry in Hout.
      apply (outcome_truthy _ _ _ _ _ _ Hev Hout). exact Hc.
  - apply Forall_forall. intros [k v] Hkv.
    destruct (Forall2_in_r _ _ _ _ HF Hkv) as [[i row] [_ [_ [cl Hres]]]].
    cbn [fst snd] in Hres.
    destruct (resolve_row_inv _ _ _ _ Hres) as [pt [cands [_ [_ Hout]]]].
    apply (f_equal fst) in Hout. cbn [fst snd] in *. rewrite outcome_value in Hout.
    rewrite Hout. destruct (first_valid pt cands) as [[? ?] |]; exact I.
Qed.

Lemma preproc_ok_unique (g : Globals) (ic : ImageCollection) (df : DataFrame) res :
  preproc g ic df = Ok res -> NoDup (index df).
Proof.
  unfold preproc. intros H. inv_bind H.
  eapply first_loop_ok_unique. exact Ha.
Qed.

(** Whether a row is present in the result, and what the row's entry is. *)
Lemma entry_of_row ic df results i row :
  NoDup (index df) ->
  resolve_rows ic df = Ok results ->
  In (i, row) df ->
  exists pt cands,
    observation_point row = Ok pt /\
    evaluate_images ic (datetime row) pt = Ok cands /\
    In (i, fst (outcome i pt cands)) (combine (index df) (map fst results)).
Proof.
  intros Hnd E Hin.
  destruct (Forall2_in_l _ _ _ _ (entries_of_rows ic df results E) Hin)
    as [[k v] [Hkv [Hk [c Hres]]]].
  cbn [fst snd] in *. subst k.
  destruct (resolve_row_inv _ _ _ _ Hres) as [pt [cands [Hpt [Hev Hout]]]].
  exists pt, cands. repeat split; [exact Hpt | exact Hev |].
  apply (f_equal fst) in Hout. cbn [fst] in Hout. rewrite <- Hout. exact Hkv.
Qed.

Lemma entry_rows_nonempty other i v :
  entry_rows other (i, v) <> [] <-> exists s, v = VDict s /\ truthy (VDict s) = true.
Proof.
  unfold entry_rows. cbn [snd fst]. destruct v as [t | | t].
  - split; [intros H; exfalso; apply H; reflexivity | intros [s [H _]]; discriminate H].
  - split; [intros H; exfalso; apply H; reflexivity | intros [s [H _]]; discriminate H].
  - destruct (truthy (VDict t)) eqn:T.
    + split; [intros _; exists t; split; [reflexivity | exact T] |].
      intros _. apply join_row_nonempty.
    + split; [intros H; exfalso; apply H; reflexivity |].
      intros [s [[= <-] H]]. congruence.
Qed.

Lemma in_labels_filter (l : list (Z * list (option Q))) (i : Z) :
  In i (map fst l) <-> filter (fun x : Z * list (option Q) => fst x =? i) l <> [].
Proof.
  split.
  - intros H. apply in_map_iff in H. destruct H as [x [Hx Hin]].
    intros F. assert (G : In x (filter (fun y : Z * list (option Q) => fst y =? i) l)).
    { apply filter_In. split; [exact Hin | apply Z.eqb_eq, Hx]. }
    rewrite F in G. destruct G.
  - intros H. destruct (filter (fun x : Z * list (option Q) => fst x =? i) l)
      as [| x rest] eqn:F; [congruence |].
    assert (G : In x (filter (fun y : Z * list (option Q) => fst y =? i) l))
      by (rewrite F; left; reflexivity).
    apply filter_In in G. destruct G as [Hin Hx]. apply Z.eqb_eq in Hx.
    apply in_map_iff. exists x. split; assumption.
Qed.

Lemma unique_row (df : DataFrame) (i : Z) (row row' : Row) :
  NoDup (index df) -> In (i, row) df -> In (i, row') df -> row = row'.
Proof.
  intros Hnd H H'.
  pose proof (unique_label_filter df i row Hnd H) as F.
  pose proof (unique_label_filter df i row' Hnd H') as F'.
  congruence.
Qed.

Lemma calls_of_label ic df results i row pt cands :
  NoDup (index df) ->
  resolve_rows ic df = Ok results ->
  In (i, row) df ->
  observation_point row = Ok pt ->
  evaluate_images ic (datetime row) pt = Ok cands ->
  forall j,
    In (ReduceInfo i j) (List.concat (map snd results)) <->
    In (ReduceInfo i j) (snd (outcome i pt cands)).
Proof.
  intros Hnd E Hin Hpt Hev j.
  pose proof (mapM_ok_Forall2 _ _ _ E) as HF.
  split.
  - intros H. apply in_concat in H. destruct H as [cl [Hcl Hj]].
    apply in_map_iff in Hcl. destruct Hcl as [res [<- Hres]].
    destruct (Forall2_in_r _ _ _ _ HF Hres) as [[i' row'] [Hin' Hrow]].
    cbn [fst snd] in Hrow.
    destruct (resolve_row_inv _ _ _ _ Hrow) as [pt' [cands' [Hpt' [Hev' ->]]]].
    pose proof (proj1 (outcome_calls _ _ _ _ _) Hj) as [Hi _]. subst i'.
    rewrite <- (unique_row df i row row' Hnd Hin Hin') in *.
    rewrite Hpt in Hpt'. injection Hpt' as <-.
    rewrite Hev in Hev'. injection Hev' as <-. exact Hj.
  - intros H. apply in_concat. exists (snd (outcome i pt cands)). split; [| exact H].
    apply in_map.
    destruct (Forall2_in_l _ _ _ _ HF Hin) as [res [Hres Hrow]].
    cbn [fst snd] in Hrow. rewrite (resolve_row_ok _ _ _ _ _ Hpt Hev) in Hrow.
    injection Hrow as <-. exact Hres.
Qed.

Lemma join_row_unique other i vals :
  NoDup (index other) -> exists chl, join_row other (i, vals) = [(i, vals ++ [chl])].
Proof.
  intros Hnd. unfold join_row. cbn [fst snd].
  destruct (filter (fun m : Z * Row => fst m =? i) other) as [| [k m] rest] eqn:F.
  - exists None. reflexivity.
  - assert (Hin : In (k, m) (filter (fun m : Z * Row => fst m =? i) other))
      by (rewrite F; left; reflexivity).
    apply filter_In in Hin. destruct Hin as [Hin Hk]. cbn [fst] in Hk.
    apply Z.eqb_eq in Hk. subst k.
    rewrite (unique_label_filter other i m Hnd Hin) in F. injection F as <-.
    exists (Some (CHL m)). reflexivity.
Qed.

(** ** The claims on the matcher *)

(** C1, as stated, fails: the August observation has a candidate image in
    its window, the image is cloud-masked at the site, and the table has no
    row for the observation. *)
Lemma candidate_in_window_without_row :
  parse_timestamp (datetime august_row) = Some t_august /\
  observation_point august_row = Ok site /\
  window_images two_images t_august site = [cloudy_image] /\
  exists tbl calls,
    preproc (as_script two_rows) two_images two_rows = Ok (tbl, calls) /\
    filter (fun r : Z * list (option Q) => fst r =? 1) (rows tbl) = [].
Proof.
  split; [reflexivity |]. split; [reflexivity |]. split; [reflexivity |].
  eexists. eexists. split; [vm_compute; reflexivity | reflexivity].
Qed.

(** C1, amended.  For every observation with at least one candidate whose
    reference band (B3) median is non-null, in a run where every row's query
    evaluates, the result holds exactly one row for the observation; its band
    values are the medians of the first such candidate, in the collection's
    order, and the candidates after it are not sampled for the observation. *)
Theorem first_valid_candidate_gives_the_row :
  forall (g : Globals) (ic : ImageCollection) (df other : DataFrame)
         (i : Z) (row : Row) (pt : point) (cands : list (Image Q))
         (k : nat) (cand : Image Q),
    df_all g = Some other ->
    NoDup (index other) ->
    NoDup (index df) ->
    (forall j r, In (j, r) df ->
       exists p cs, observation_point r = Ok p /\
                    evaluate_images ic (datetime r) p = Ok cs) ->
    In (i, row) df ->
    observation_point row = Ok pt ->
    evaluate_images ic (datetime row) pt = Ok cands ->
    nth_error cands k = Some cand ->
    b3_median cand pt <> None ->
    (forall j c, (j < k)%nat -> nth_error cands j = Some c -> b3_median c pt = None) ->
    exists tbl calls,
      preproc g ic df = Ok (tbl, calls) /\
      (exists chl,
         filter (fun r : Z * list (option Q) => fst r =? i) (rows tbl)
         = [(i, map (band_median cand pt) optical_bands ++ [chl])]) /\
      (forall j, In (ReduceInfo i j) calls <-> (j <= k)%nat).
Proof.
  intros g ic df other i row pt cands k cand Hg Hother Hnd Hall Hin Hpt Hev Hk Hv Hbefore.
  assert (Hfirst : first_valid pt cands = Some (k, cand)).
  { apply first_valid_Some. repeat split; assumption. }
  destruct (mapM_total (fun ir : Z * Row => resolve_row ic (fst ir) (snd ir)) df)
    as [results E].
  { intros [j r] Hjr. destruct (Hall j r Hjr) as [p [cs [Hp Hcs]]].
    eexists. apply resolve_row_ok; eassumption. }
  fold (resolve_rows ic df) in E.
  rewrite (preproc_unique g ic df Hnd), E. cbn [bind]. cbv zeta.
  destruct (entry_of_row ic df results i row Hnd E Hin) as [pt' [cands' [Hpt' [Hev' Hentry]]]].
  rewrite Hpt in Hpt'. injection Hpt' as <-.
  rewrite Hev in Hev'. injection Hev' as <-.
  pose proof (outcome_value i pt cands) as Hval. rewrite Hfirst in Hval.
  rewrite Hval in Hentry.
  destruct (outcome_truthy i pt cands ic _ _ Hev Hval) as [Htruthy _].
  set (entries := combine (index df) (map fst results)) in *.
  assert (Hrows : In (i, reduceRegion_median cand pt) (stats_rows entries)).
  { unfold stats_rows. apply in_flat_map. eexists. split; [exact Hentry |].
    cbn [snd fst]. rewrite Htruthy. left. reflexivity. }
  destruct (stats_rows entries) as [| r0 R]; [destruct Hrows |].
  rewrite Hg. eexists. eexists. split; [reflexivity |]. cbn [rows]. split.
  - rewrite (filter_label_entries other entries i (VDict (reduceRegion_median cand pt))).
    + unfold entry_rows. cbn [snd fst]. rewrite Htruthy.
      destruct (join_row_unique other i (band_values (reduceRegion_median cand pt)) Hother)
        as [chl Hchl].
      exists chl. rewrite Hchl. unfold band_values.
      rewrite (map_ext _ _ (value_in_median cand pt)). reflexivity.
    + unfold entries. rewrite (entries_keys ic df results E). exact Hnd.
    + exact Hentry.
  - intros j. rewrite (calls_of_label ic df results i row pt cands Hnd E Hin Hpt Hev j).
    rewrite outcome_calls, Hfirst. split; [intros [_ H]; lia | intros H; split; [reflexivity | lia]].
Qed.

Lemma first_valid_candidate_gives_the_row_witness :
  exists tbl calls,
    preproc (as_script two_rows) two_images two_rows = Ok (tbl, calls) /\
    (exists chl,
       filter (fun r : Z * list (option Q) => fst r =? 0) (rows tbl)
       = [(0, map (band_median july_candidate site) optical_bands ++ [chl])]) /\
    (forall j, In (ReduceInfo 0 j) calls <-> (j <= 0)%nat).
Proof.
  apply (first_valid_candidate_gives_the_row
           (as_script two_rows) two_images two_rows two_rows 0 july_row site
           [july_candidate] O july_candidate eq_refl).
  - repeat constructor; simpl; intuition discriminate.
  - repeat constructor; simpl; intuition discriminate.
  - intros j r [H | [H | []]]; injection H as <- <-; exists site; eexists;
      split; reflexivity.
  - left. reflexivity.
  - reflexivity.
  - reflexivity.
  - reflexivity.
  - vm_compute. discriminate.
  - intros j c Hj. lia.
Defined.

(** C2.  The concentration column is read from the global [df_all], not from
    the table passed to the matcher.  Called with a table whose concentration
    is 3/2 while [df_all] holds 99 under the same label, the matcher returns
    99; called while [df_all] is unbound, it fails after the scan. *)
Theorem concentration_is_read_from_the_global_table :
  let df := [(0, july_row)] in
  let other := [(0, observation "2020-07-21T00:00:00" (inject_Z 99))] in
  CHL july_row = (3 # 2)%Q /\
  (exists bands_row calls,
     preproc (mkGlobals (Some other)) two_images df
     = Ok (mkTable (optical_bands ++ ["CHL"]) [(0, bands_row ++ [Some (inject_Z 99)])],
           calls)) /\
  preproc (mkGlobals None) two_images df = Err NameError.
Proof.
  cbv zeta. split; [reflexivity |]. split; [| vm_compute; reflexivity].
  exists (map (band_median july_candidate site) optical_bands). eexists.
  vm_compute. reflexivity.
Qed.



(** X1.  In a run that returns a table, an observation has no row exactly
    when its window holds no candidate or every candidate yields a null
    median for the reference band. *)
Lemma dropped_iff_unresolved :
  forall (g : Globals) (ic : ImageCollection) (df : DataFrame)
         (tbl : Table) (calls : list call),
    preproc g ic df = Ok (tbl, calls) ->
    forall i row,
      In (i, row) df ->
      exists pt cands,
        observation_point row = Ok pt /\
        evaluate_images ic (datetime row) pt = Ok cands /\
        (~ In i (map fst (rows tbl)) <->
         Forall (fun c => b3_median c pt = None) cands).
Proof.
  intros g ic df tbl calls H i row Hin.
  pose proof (preproc_ok_unique g ic df _ H) as Hnd.
  rewrite (preproc_unique g ic df Hnd) in H.
  inv_bind H. rename a into results. cbv zeta in H.
  set (entries := combine (index df) (map fst results)) in *.
  destruct (stats_rows entries) as [| r0 R]; [discriminate H |].
  destruct (df_all g) as [other |]; [| discriminate H].
  injection H as <- _. cbn [rows].
  destruct (entry_of_row ic df results i row Hnd Ha Hin) as [pt [cands [Hpt [Hev Hentry]]]].
  exists pt, cands. split; [exact Hpt |]. split; [exact Hev |].
  rewrite <- first_valid_None, in_labels_filter.
  rewrite (filter_label_entries other entries i (fst (outcome i pt cands))).
  - rewrite entry_rows_nonempty. rewrite outcome_value. split.
    + intros Hno. destruct (first_valid pt cands) as [[k c] |] eqn:F; [| reflexivity].
      exfalso. apply Hno. exists (reduceRegion_median c pt). split; [reflexivity |].
      eapply (outcome_truthy i pt cands); [exact Hev |].
      rewrite outcome_value, F. reflexivity.
    + intros -> [s [Hs _]]. discriminate Hs.
  - unfold entries. rewrite (entries_keys ic df results Ha). exact Hnd.
  - exact Hentry.
Qed.

Lemma dropped_iff_unresolved_witness :
  exists tbl calls,
    preproc (as_script two_rows) two_images two_rows = Ok (tbl, calls) /\
    exists pt cands,
      observation_point august_row = Ok pt /\
      evaluate_images two_images (datetime august_row) pt = Ok cands /\
      (~ In 1 (map fst (rows tbl)) <->
       Forall (fun c => b3_median c pt = None) cands).
Proof.
  eexists. eexists. split; [vm_compute; reflexivity |].
  eapply (dropped_iff_unresolved (as_script two_rows) two_images two_rows).
  - vm_compute. reflexivity.
  - right. left. reflexivity.
Defined.

Lemma stats_rows_none (d : dict) :
  (forall kv, In kv d -> snd kv = VNone) -> stats_rows d = [].
Proof.
  unfold stats_rows. induction d as [| kv d IH]; intros H; [reflexivity |].
  cbn [flat_map]. rewrite (H kv (or_introl eq_refl)), IH; [reflexivity |].
  intros x Hx. apply H. right. exact Hx.
Qed.

(** C4.  The drop is not silent when it concerns every observation: when no
    observation of the table is resolved (each has an empty window or only
    null medians for the reference band), the dict of results is empty after
    the clean-up, the frame built from it has no column, and selecting the
    band columns raises [KeyError] instead of returning an empty table. *)
Theorem no_resolved_observation_raises_KeyError :
  forall (g : Globals) (ic : ImageCollection) (df : DataFrame),
    NoDup (index df) ->
    (forall i row, In (i, row) df ->
       exists pt cands,
         observation_point row = Ok pt /\
         evaluate_images ic (datetime row) pt = Ok cands /\
         Forall (fun c => b3_median c pt = None) cands) ->
    preproc g ic df = Err KeyError.
Proof.
  intros g ic df Hnd Hall.
  destruct (mapM_total (fun ir : Z * Row => resolve_row ic (fst ir) (snd ir)) df)
    as [results E].
  { intros [j r] Hjr. destruct (Hall j r Hjr) as [p [cs [Hp [Hcs _]]]].
    eexists. apply resolve_row_ok; eassumption. }
  fold (resolve_rows ic df) in E.
  rewrite (preproc_unique g ic df Hnd), E. cbn [bind]. cbv zeta.
  rewrite stats_rows_none; [reflexivity |].
  intros [k v] Hkv. cbn [snd].
  destruct (Forall2_in_r _ _ _ _ (entries_of_rows ic df results E) Hkv)
    as [[i row] [Hin [_ [cl Hres]]]].
  cbn [fst snd] in Hres.
  destruct (Hall i row Hin) as [pt [cands [Hpt [Hev Hnull]]]].
  rewrite (resolve_row_ok _ _ _ _ _ Hpt Hev) in Hres. injection Hres as Hv.
  apply (f_equal fst) in Hv. cbn [fst] in Hv. rewrite <- Hv, outcome_value.
  apply first_valid_None in Hnull. rewrite Hnull. reflexivity.
Qed.

Lemma no_resolved_observation_raises_KeyError_witness :
  preproc (as_script [(1, august_row)]) [clear_image] [(1, august_row)] = Err KeyError.
Proof.
  apply (no_resolved_observation_raises_KeyError
           (as_script [(1, august_row)]) [clear_image] [(1, august_row)]).
  - repeat constructor; simpl; intuition.
  - intros i row [H | []]. injection H as <- <-.
    exists site, []. split; [reflexivity |]. split; [reflexivity | constructor].
Defined.





(** ** The table of a script run *)

Lemma sorted_labels {A : Type} (f : A -> list (Z * list (option Q)))
      (key : A -> Z) (l : list A) :
  (forall a x, In x (f a) -> fst x = key a) ->
  (forall a, (List.length (f a) <= 1)%nat) ->
  StronglySorted Z.lt (map key l) ->
  StronglySorted Z.lt (map fst (flat_map f l)).
Proof.
  intros Hlabel Hone. induction l as [| a l IH]; intros Hs; [constructor |].
  inversion Hs as [| ? ? Hs' Hall]; subst.
  cbn [flat_map]. rewrite map_app.
  pose proof (Hone a) as Ha. pose proof (Hlabel a) as Hl.
  destruct (f a) as [| x [| y r]]; cbn [map app].
  - apply IH, Hs'.
  - constructor; [apply IH, Hs' |].
    rewrite (Hl x (or_introl eq_refl)).
    apply Forall_forall. intros k Hk.
    apply in_map_iff in Hk. destruct Hk as [z [<- Hz]].
    apply in_flat_map in Hz. destruct Hz as [b [Hb Hz]].
    rewrite (Hlabel b z Hz).
    rewrite Forall_forall in Hall. apply Hall. apply in_map, Hb.
  - simpl in Ha. lia.
Qed.

(** X2.  When the global [df_all] is the table passed, as in the script, a run
    that completes returns the band columns followed by CHL; every row is
    its observation's eight band values followed by that observation's own
    concentration; and the rows keep the order of the input, so that they are
    in ascending order of id when the input is. *)
Theorem script_run_joins_own_concentration :
  forall (ic : ImageCollection) (df : DataFrame) (tbl : Table) (calls : list call),
    preproc (as_script df) ic df = Ok (tbl, calls) ->
    columns tbl = ["B2"; "B3"; "B4"; "B5"; "B6"; "B7"; "B8"; "B8A"; "CHL"] /\
    (forall i vals,
       In (i, vals) (rows tbl) ->
       exists row bvals,
         In (i, row) df /\
         List.length bvals = 8%nat /\
         vals = bvals ++ [Some (CHL row)]) /\
    (StronglySorted Z.lt (index df) -> StronglySorted Z.lt (map fst (rows tbl))).
Proof.
  intros ic df tbl calls H.
  pose proof (preproc_ok_unique _ ic df _ H) as Hnd.
  rewrite (preproc_unique _ ic df Hnd) in H.
  inv_bind H. rename a into results. cbv zeta in H.
  set (entries := combine (index df) (map fst results)) in *.
  destruct (stats_rows entries) as [| r0 R]; [discriminate H |].
  cbn [as_script df_all] in H. injection H as <- _. cbn [columns rows].
  split; [reflexivity |]. split.
  - intros i vals Hin. apply in_flat_map in Hin. destruct Hin as [[k v] [Hkv Hin]].
    unfold entry_rows in Hin. cbn [fst snd] in Hin.
    destruct v as [t | | s]; try (destruct Hin; fail).
    destruct (truthy (VDict s)); [| destruct Hin].
    destruct (Forall2_in_r _ _ _ _ (entries_of_rows ic df results Ha) Hkv)
      as [[i' row] [Hrow [Hk _]]].
    cbn [fst snd] in Hk. subst i'.
    unfold join_row in Hin. cbn [fst snd] in Hin.
    rewrite (unique_label_filter df k row Hnd Hrow) in Hin.
    destruct Hin as [Hin | []]. injection Hin as <- <-.
    exists row, (band_values s). split; [exact Hrow |]. split; [| reflexivity].
    unfold band_values. rewrite length_map. reflexivity.
  - intros Hs. apply (sorted_labels (entry_rows df) fst entries).
    + intros kv x Hx. apply (entry_rows_label df kv x Hx).
    + intros [k v]. unfold entry_rows. cbn [fst snd].
      destruct v as [t | | s]; try (simpl; lia).
      destruct (truthy (VDict s)); [| simpl; lia].
      destruct (join_row_unique df k (band_values s) Hnd) as [chl ->]. simpl. lia.
    + unfold entries. rewrite (entries_keys ic df results Ha). exact Hs.
Qed.

Lemma script_run_joins_own_concentration_witness :
  exists tbl calls,
    preproc (as_script two_rows) two_images two_rows = Ok (tbl, calls) /\
    columns tbl = ["B2"; "B3"; "B4"; "B5"; "B6"; "B7"; "B8"; "B8A"; "CHL"] /\
    (forall i vals,
       In (i, vals) (rows tbl) ->
       exists row bvals,
         In (i, row) two_rows /\
         List.length bvals = 8%nat /\
         vals = bvals ++ [Some (CHL row)]) /\
    (StronglySorted Z.lt (index two_rows) -> StronglySorted Z.lt (map fst (rows tbl))).
Proof.
  eexists. eexists. split; [vm_compute; reflexivity |].
  eapply (script_run_joins_own_concentration two_images two_rows).
  vm_compute. reflexivity.
Defined.

(** ** The chlorophyll index *)

Module IndexFacts.

Import Stdlib.Reals.Reals.
Import Stdlib.micromega.Lra.

Lemma divide_nonzero (x y : R) : y <> 0%R -> App.divide x y = (x / y)%R.
Proof.
  intros Hy. unfold App.divide. destruct (Req_dec_T y 0%R); [contradiction | reflexivity].
Qed.

(** C9.  On an image that carries B1, B2 and B3, the index operation
    returns one band, named [oc3].  At a pixel of the region where the three
    bands are valid, with values b1, b2 and b3 (b3 not zero), its value is
    10 to the power 0.2389 - 1.9369 R + 1.7627 R^2 - 3.0777 R^3 - 0.1054 R^4
    with R the decimal logarithm of max(b1, b2) / b3.  A pixel outside the
    region, or where one of the three bands is masked, is masked. *)
Theorem calculate_oc3_is_the_index_formula :
  forall (baikal_geometry : point -> bool) (image : Image R) (r1 r2 r3 : raster R),
    find_band "B1" (bands image) = Some r1 ->
    find_band "B2" (bands image) = Some r2 ->
    find_band "B3" (bands image) = Some r3 ->
    exists out oc3,
      App.calculate_oc3 baikal_geometry image = Ok out /\
      bands out = [("oc3", oc3)] /\
      (forall p b1 b2 b3,
         baikal_geometry p = true ->
         r1 p = Some b1 -> r2 p = Some b2 -> r3 p = Some b3 -> b3 <> 0%R ->
         let ratio := (Rmax b1 b2 / b3)%R in
         let lg := (ln ratio / ln 10)%R in
         oc3 p = Some (Rpower 10
                         (0.2389 - 1.9369 * lg + 1.7627 * lg ^ 2
                          - 3.0777 * lg ^ 3 - 0.1054 * lg ^ 4)%R)) /\
      (forall p, baikal_geometry p = false -> oc3 p = None) /\
      (forall p, r1 p = None \/ r2 p = None \/ r3 p = None -> oc3 p = None).
Proof.
  intros region image r1 r2 r3 H1 H2 H3.
  unfold App.calculate_oc3, select. cbn [select_bands].
  rewrite H1, H2, H3. cbn.
  eexists. eexists. split; [reflexivity |]. split; [reflexivity |].
  split; [| split].
  - intros p b1 b2 b3 Hp E1 E2 E3 Hb3.
    rewrite Hp. cbn [snd]. unfold lift2. cbv beta. rewrite E1, E2, E3.
    cbv beta iota delta [option_map]. f_equal. f_equal.
    rewrite (divide_nonzero _ _ Hb3). unfold App.log10.
    set (lg := (ln (Rmax b1 b2 / b3) / ln 10)%R). nra.
  - intros p Hp. rewrite Hp. reflexivity.
  - intros p Hm. destruct (region p); [| reflexivity].
    cbn [snd]. unfold lift2. cbv beta. destruct Hm as [E | [E | E]]; rewrite E.
    + reflexivity.
    + destruct (r1 p); reflexivity.
    + destruct (r1 p), (r2 p); reflexivity.
Qed.

Lemma calculate_oc3_is_the_index_formula_witness :
  exists out oc3,
    App.calculate_oc3 (fun _ : point => true) IndexData.water_image = Ok out /\
    bands out = [("oc3", oc3)] /\
    forall p,
      oc3 p = Some (Rpower 10
                      (0.2389 - 1.9369 * (ln (Rmax 0.03 0.04 / 0.02) / ln 10)
                       + 1.7627 * (ln (Rmax 0.03 0.04 / 0.02) / ln 10) ^ 2
                       - 3.0777 * (ln (Rmax 0.03 0.04 / 0.02) / ln 10) ^ 3
                       - 0.1054 * (ln (Rmax 0.03 0.04 / 0.02) / ln 10) ^ 4)%R).
Proof.
  destruct (calculate_oc3_is_the_index_formula
              (fun _ : point => true) IndexData.water_image
              (fun _ : point => Some 0.03%R) (fun _ : point => Some 0.04%R)
              (fun _ : point => Some 0.02%R) eq_refl eq_refl eq_refl)
    as [out [oc3 [H1 [H2 [H3 _]]]]].
  exists out, oc3. split; [exact H1 |]. split; [exact H2 |].
  intros p. apply (H3 p 0.03%R 0.04%R 0.02%R); try reflexivity. lra.
Defined.

End IndexFacts.

(** ** Degree-minute coordinates *)

Example half_degree_is_converted :
  DataPreprocessing.convert_degree_and_min_to_degree
    [("LATITUDE", [CStr "51 30"; CStr "52 0"]); ("CHL", [CFloat 1; CFloat 2])] "LATITUDE"
  = Ok [("LATITUDE", [CStr "51.5"; CStr "52.0"]); ("CHL", [CFloat 1; CFloat 2])].
Proof. vm_compute. reflexivity. Qed.

(** C10.  A minutes value under 0.006 is misread.  The quotient by 60 is
    below 0.0001, [str] prints it in scientific notation, and dropping the
    first character of that text drops its leading digit instead of a zero:
    for "45 0.003662109375" the column receives "45.103515625e-05", which
    reads as 0.00045103515625, while 45 + 0.003662109375 / 60 is
    45.00006103515625.  At this input the float computation is exact: the
    minutes are 15/4096 and the quotient is 1/16384, both binary fractions. *)
Theorem small_minutes_are_misread :
  DataPreprocessing.float_repr ((3662109375 # 1000000000000) / inject_Z 60)%Q
  = Ok "6.103515625e-05" /\
  DataPreprocessing.convert_degree_and_min_to_degree
    [("LATITUDE", [CStr "45 0.003662109375"])] "LATITUDE"
  = Ok [("LATITUDE", [CStr "45.103515625e-05"])] /\
  (exists q,
     float_of_string "45.103515625e-05" = Some q /\
     (q == 45103515625 # 100000000000000)%Q /\
     ~ (q == inject_Z 45 + (3662109375 # 1000000000000) / inject_Z 60)%Q).
Proof.
  split; [vm_compute; reflexivity |]. split; [vm_compute; reflexivity |].
  eexists. split; [vm_compute; reflexivity |]. split.
  - vm_compute. reflexivity.
  - intros H. vm_compute in H. discriminate H.
Qed.

(** ** Scaling and masking together *)

Lemma scale_named_ok_has (names : list string) (image out : Image Q) :
  scale_named names image = Ok out ->
  forall n, In n names -> has_band n (bands image) = true.
Proof.
  unfold scale_named, select. intros H. inv_bind H. inv_bind Ha.
  eapply select_bands_has. exact Ha0.
Qed.

Lemma has_band_find {V : Type} (bs : list (string * raster V)) (n : string) :
  has_band n bs = true -> exists r, find_band n bs = Some r.
Proof.
  unfold has_band. destruct (find_band n bs) as [r |]; [| discriminate].
  intros _. exists r. reflexivity.
Qed.

Lemma find_has_band {V : Type} (bs : list (string * raster V)) (n : string) r :
  find_band n bs = Some r -> has_band n bs = true.
Proof. unfold has_band. intros ->. reflexivity. Qed.

Lemma same_names_has {V : Type} (a b : Image V) (n : string) :
  bandNames a = bandNames b -> has_band n (bands a) = has_band n (bands b).
Proof.
  intros H. destruct (has_band n (bands b)) eqn:E.
  - apply find_band_names. fold (bandNames a). rewrite H. apply find_band_names, E.
  - destruct (has_band n (bands a)) eqn:F; [| reflexivity].
    apply find_band_names in F. fold (bandNames a) in F. rewrite H in F.
    apply find_band_names in F. congruence.
Qed.

(** A band of a scaled image, seen from the output. *)
Lemma scale_named_at names image out n r' :
  scale_named names image = Ok out ->
  find_band n (bands out) = Some r' ->
  exists r,
    find_band n (bands image) = Some r /\
    forall p, r' p = if in_names n names then scaled_value (r p) else r p.
Proof.
  intros H Hr'.
  destruct (scale_named_spec names image (scale_named_ok_has _ _ _ H))
    as [out' [H1 [H2 [_ [_ H3]]]]].
  rewrite H in H1. injection H1 as <-.
  assert (Hn : has_band n (bands image) = true).
  { rewrite <- (same_names_has out image n H2). eapply find_has_band, Hr'. }
  destruct (has_band_find _ _ Hn) as [r Hr]. exists r. split; [exact Hr |].
  destruct (H3 n r Hr) as [r'' [Hr'' Hp]]. rewrite Hr' in Hr''. injection Hr'' as <-.
  exact Hp.
Qed.

(** A band of a masked image, seen from the output. *)
Lemma mask_named_at names image out n r' :
  mask_named names image = Ok out ->
  find_band n (bands out) = Some r' ->
  exists r,
    find_band n (bands image) = Some r /\
    forall p, r' p = if excluded names image p then None else r p.
Proof.
  intros H Hr'.
  destruct (mask_named_ok_has names image out H) as [Hqa Hhas].
  destruct (mask_named_spec names image Hqa Hhas) as [out' [H1 [H2 [_ [_ H3]]]]].
  rewrite H in H1. injection H1 as <-.
  assert (Hn : has_band n (bands image) = true).
  { rewrite <- (same_names_has out image n H2). eapply find_has_band, Hr'. }
  destruct (has_band_find _ _ Hn) as [r Hr]. exists r. split; [exact Hr |].
  destruct (H3 n r Hr) as [r'' [Hr'' Hp]]. rewrite Hr' in Hr''. injection Hr'' as <-.
  exact Hp.
Qed.

Lemma scale_named_names names image out :
  scale_named names image = Ok out -> bandNames out = bandNames image.
Proof.
  intros H.
  destruct (scale_named_spec names image (scale_named_ok_has _ _ _ H))
    as [out' [H1 [H2 _]]].
  rewrite H in H1. injection H1 as <-. exact H2.
Qed.

Lemma mask_named_names names image out :
  mask_named names image = Ok out -> bandNames out = bandNames image.
Proof.
  intros H. destruct (mask_named_ok_has names image out H) as [Hqa Hhas].
  destruct (mask_named_spec names image Hqa Hhas) as [out' [H1 [H2 _]]].
  rewrite H in H1. injection H1 as <-. exact H2.
Qed.

Lemma designated_values_in names (image : Image Q) p n r v :
  In n names -> find_band n (bands image) = Some r -> r p = Some v ->
  In v (designated_values names image p).
Proof.
  intros Hn Hr Hv. unfold designated_values. apply in_flat_map.
  exists n. split; [exact Hn |]. rewrite Hr, Hv. left. reflexivity.
Qed.

(** Two images whose designated bands hold related values at a pixel. *)
Lemma designated_values_map names (a b : Image Q) p (f : Q -> Q) :
  (forall n, In n names ->
     match find_band n (bands b), find_band n (bands a) with
     | Some rb, Some ra => rb p = option_map f (ra p)
     | None, None => True
     | _, _ => False
     end) ->
  designated_values names b p = map f (designated_values names a p).
Proof.
  unfold designated_values. induction names as [| n ns IH]; intros H; [reflexivity |].
  cbn [flat_map]. rewrite map_app. rewrite IH by (intros k Hk; apply H; right; exact Hk).
  f_equal. specialize (H n (or_introl eq_refl)).
  destruct (find_band n (bands b)) as [rb |], (find_band n (bands a)) as [ra |];
    try contradiction; [| reflexivity].
  rewrite H. destruct (ra p); reflexivity.
Qed.

Lemma scaled_positive (v : Q) : (0 < v * (1 # 10000))%Q <-> (0 < v)%Q.
Proof. destruct v as [n d]. unfold Qlt, Qmult. simpl. lia. Qed.

Lemma min_strictly_positive_scaled (vs : list Q) :
  min_strictly_positive (map (fun x => (x * (1 # 10000))%Q) vs)
  = min_strictly_positive vs.
Proof.
  destruct (min_strictly_positive vs) eqn:E.
  - apply min_strictly_positive_all in E. destruct E as [Hne Hall].
    apply min_strictly_positive_all. split.
    + destruct vs; [congruence | discriminate].
    + apply (proj2 (Forall_map _ _ _)). eapply Forall_impl; [| exact Hall].
      intros v Hv. apply scaled_positive, Hv.
  - destruct (min_strictly_positive (map (fun x => (x * (1 # 10000))%Q) vs)) eqn:F;
      [| reflexivity].
    apply min_strictly_positive_all in F. destruct F as [Hne Hall].
    assert (G : min_strictly_positive vs = true).
    { apply min_strictly_positive_all. split.
      - destruct vs; [exfalso; apply Hne; reflexivity | discriminate].
      - apply (proj1 (Forall_map _ _ _)) in Hall. eapply Forall_impl; [| exact Hall].
        intros v Hv. apply scaled_positive, Hv. }
    congruence.
Qed.

(** Scaling does not change which pixels the mask excludes, as long as the
    quality band is not among the scaled bands. *)
Lemma excluded_scaled names (image scaled : Image Q) p :
  in_names "QA60" names = false ->
  scale_named names image = Ok scaled ->
  excluded names scaled p = excluded names image p.
Proof.
  intros Hq H. unfold excluded.
  assert (Hd : designated_values names scaled p
               = map (fun x => (x * (1 # 10000))%Q) (designated_values names image p)).
  { apply designated_values_map. intros n Hn.
    pose proof (scale_named_ok_has _ _ _ H n Hn) as Hhas.
    destruct (has_band_find _ _ Hhas) as [r Hr]. rewrite Hr.
    assert (Hs : has_band n (bands scaled) = true).
    { rewrite (same_names_has scaled image n (scale_named_names _ _ _ H)). exact Hhas. }
    destruct (has_band_find _ _ Hs) as [r' Hr']. rewrite Hr'.
    destruct (scale_named_at _ _ _ _ _ H Hr') as [r0 [Hr0 Hp]].
    rewrite Hr in Hr0. injection Hr0 as <-. rewrite Hp.
    apply in_names_In in Hn. rewrite Hn. reflexivity. }
  rewrite Hd, min_strictly_positive_scaled.
  destruct (find_band "QA60" (bands scaled)) as [qa' |] eqn:E'.
  - destruct (scale_named_at _ _ _ _ _ H E') as [qa [Hqa Hp]].
    rewrite Hqa, Hp, Hq. reflexivity.
  - destruct (find_band "QA60" (bands image)) as [qa |] eqn:E; [| reflexivity].
    apply find_has_band in E.
    rewrite <- (same_names_has scaled image _ (scale_named_names _ _ _ H)) in E.
    unfold has_band in E. rewrite E' in E. discriminate E.
Qed.

(** Masking again excludes the same pixels. *)
Lemma excluded_masked names (image masked : Image Q) p :
  mask_named names image = Ok masked ->
  excluded names masked p = excluded names image p.
Proof.
  intros H. destruct (mask_named_ok_has _ _ _ H) as [Hqa Hhas].
  destruct (has_band_find _ _ Hqa) as [qa Eqa].
  assert (Hqa' : has_band "QA60" (bands masked) = true).
  { rewrite (same_names_has masked image _ (mask_named_names _ _ _ H)). exact Hqa. }
  destruct (has_band_find _ _ Hqa') as [qa' Eqa'].
  destruct (mask_named_at _ _ _ _ _ H Eqa') as [qa0 [Hqa0 Hp]].
  rewrite Eqa in Hqa0. injection Hqa0 as <-.
  destruct (excluded names image p) eqn:Ex.
  - unfold excluded. rewrite Eqa', Hp, Ex. reflexivity.
  - assert (Hd : designated_values names masked p = designated_values names image p).
    { rewrite <- (map_id (designated_values names image p)).
      apply designated_values_map. intros n Hn.
      pose proof (Hhas n Hn) as Hn1. destruct (has_band_find _ _ Hn1) as [r Hr].
      assert (Hn2 : has_band n (bands masked) = true).
      { rewrite (same_names_has masked image n (mask_named_names _ _ _ H)). exact Hn1. }
      destruct (has_band_find _ _ Hn2) as [r' Hr']. rewrite Hr, Hr'.
      destruct (mask_named_at _ _ _ _ _ H Hr') as [r0 [Hr0 Hp0]].
      rewrite Hr in Hr0. injection Hr0 as <-. rewrite Hp0, Ex.
      destruct (r p); reflexivity. }
    unfold excluded at 1. rewrite Eqa', Hp, Ex, Hd.
    unfold excluded in Ex. rewrite Eqa in Ex. exact Ex.
Qed.

Lemma App_scale_msi_named : App.scale_msi = scale_named App.index_bands.
Proof. reflexivity. Qed.

Lemma scale_named_meta names image out :
  scale_named names image = Ok out ->
  time_start out = time_start image /\ footprint out = footprint image.
Proof.
  intros H.
  destruct (scale_named_spec names image (scale_named_ok_has _ _ _ H))
    as [out' [H1 [_ [H2 [H3 _]]]]].
  rewrite H in H1. injection H1 as <-. split; assumption.
Qed.

Lemma mask_named_meta names image out :
  mask_named names image = Ok out ->
  time_start out = time_start image /\ footprint out = footprint image.
Proof.
  intros H. destruct (mask_named_ok_has names image out H) as [Hqa Hhas].
  destruct (mask_named_spec names image Hqa Hhas) as [out' [H1 [_ [H2 [H3 _]]]]].
  rewrite H in H1. injection H1 as <-. split; assumption.
Qed.

(** What a pixel that survives masking tells about the input. *)
Lemma mask_named_survivor names image out n r' p v :
  mask_named names image = Ok out ->
  find_band n (bands out) = Some r' ->
  r' p = Some v ->
  excluded names image p = false /\
  exists r, find_band n (bands image) = Some r /\ r p = Some v.
Proof.
  intros H Hr' Hv. destruct (mask_named_at _ _ _ _ _ H Hr') as [r [Hr Hp]].
  rewrite Hp in Hv. destruct (excluded names image p); [discriminate |].
  split; [reflexivity |]. exists r. split; assumption.
Qed.

Lemma not_excluded names image p :
  excluded names image p = false ->
  exists qa q,
    find_band "QA60" (bands image) = Some qa /\ qa p = Some q /\
    cloud_bit (Qfloor q) = false /\ cirrus_bit (Qfloor q) = false /\
    designated_values names image p <> [] /\
    Forall (fun v => (0 < v)%Q) (designated_values names image p).
Proof.
  unfold excluded. destruct (find_band "QA60" (bands image)) as [qa |]; [| discriminate].
  destruct (qa p) as [q |] eqn:Eq; [| discriminate]. intros H.
  apply orb_false_iff in H. destruct H as [H Hm].
  apply orb_false_iff in H. destruct H as [H10 H11].
  apply negb_false_iff, min_strictly_positive_all in Hm.
  destruct Hm as [Hne Hall].
  exists qa, q. split; [reflexivity |]. split; [exact Eq |].
  repeat split; assumption.
Qed.

(** X3.  A pixel that is valid in some band after masking is a pixel whose
    quality value is there with bits 10 and 11 clear, and at which every
    designated band is either masked or strictly positive, in the input and
    in the output; in a designated band the surviving value itself is
    strictly positive.  For [mask_s2_clouds] and for [mask_S2_clouds] of
    [app.py]. *)
Theorem surviving_pixels_are_unflagged_and_positive :
  forall names mask,
    (names = optical_bands /\ mask = mask_s2_clouds) \/
    (names = App.index_bands /\ mask = App.mask_S2_clouds) ->
    forall (image out : Image Q) n r' p v,
      mask image = Ok out ->
      find_band n (bands out) = Some r' ->
      r' p = Some v ->
      (exists qa q,
         find_band "QA60" (bands image) = Some qa /\ qa p = Some q /\
         Z.testbit (Qfloor q) 10 = false /\ Z.testbit (Qfloor q) 11 = false) /\
      (forall m, In m names ->
         null_or_positive (band_median image p m) /\
         band_median out p m = band_median image p m) /\
      (In n names -> (0 < v)%Q).
Proof.
  intros names mask Hcase image out n r' p v Hout Hr' Hv.
  assert (Hmask : mask = mask_named names).
  { destruct Hcase as [[-> ->] | [-> ->]]; reflexivity. }
  subst mask.
  destruct (mask_named_survivor _ _ _ _ _ _ _ Hout Hr' Hv) as [Hex [r [Hr Hrv]]].
  destruct (not_excluded _ _ _ Hex) as [qa [q [Hqa [Hq [H10 [H11 [_ Hall]]]]]]].
  rewrite Forall_forall in Hall.
  split; [exists qa, q; repeat split; assumption |]. split.
  - intros m Hm. destruct (mask_named_ok_has _ _ _ Hout) as [_ Hhas].
    destruct (has_band_find _ _ (Hhas m Hm)) as [rm Hrm].
    assert (Hm' : has_band m (bands out) = true).
    { rewrite (same_names_has out image m (mask_named_names _ _ _ Hout)).
      apply Hhas, Hm. }
    destruct (has_band_find _ _ Hm') as [rm' Hrm'].
    destruct (mask_named_at _ _ _ _ _ Hout Hrm') as [r0 [Hr0 Hp]].
    rewrite Hrm in Hr0. injection Hr0 as <-.
    unfold band_median. rewrite Hrm, Hrm', Hp, Hex. split; [| reflexivity].
    destruct (rm p) as [w |] eqn:Ew; [| exact I].
    apply Hall. eapply designated_values_in; eassumption.
  - intros Hn. apply Hall. eapply designated_values_in; eassumption.
Qed.

Lemma surviving_pixels_are_unflagged_and_positive_witness :
  exists out r',
    mask_s2_clouds (flat_image 0 0 (inject_Z 1000)) = Ok out /\
    find_band "B3" (bands out) = Some r' /\
    r' site = Some (inject_Z 1000) /\
    (exists qa q,
       find_band "QA60" (bands (flat_image 0 0 (inject_Z 1000))) = Some qa /\
       qa site = Some q /\
       Z.testbit (Qfloor q) 10 = false /\ Z.testbit (Qfloor q) 11 = false) /\
    (forall m, In m optical_bands ->
       null_or_positive (band_median (flat_image 0 0 (inject_Z 1000)) site m) /\
       band_median out site m
       = band_median (flat_image 0 0 (inject_Z 1000)) site m) /\
    (In "B3" optical_bands -> (0 < inject_Z 1000)%Q).
Proof.
  eexists. eexists. split; [reflexivity |]. split; [reflexivity |].
  split; [reflexivity |].
  apply (surviving_pixels_are_unflagged_and_positive
           optical_bands mask_s2_clouds (or_introl (conj eq_refl eq_refl))
           (flat_image 0 0 (inject_Z 1000)) _ "B3" _ site (inject_Z 1000)
           eq_refl eq_refl eq_refl).
Defined.

Lemma find_none_same_names {V : Type} (a b : Image V) n :
  bandNames a = bandNames b ->
  find_band n (bands b) = None -> find_band n (bands a) = None.
Proof.
  intros Hn Hb. pose proof (same_names_has a b n Hn) as H. unfold has_band in H.
  rewrite Hb in H. destruct (find_band n (bands a)); [discriminate | reflexivity].
Qed.

Lemma has_same_names {V : Type} (a b : Image V) :
  bandNames a = bandNames b ->
  forall n, has_band n (bands b) = true -> has_band n (bands a) = true.
Proof. intros H n Hb. rewrite (same_names_has a b n H). exact Hb. Qed.

Lemma scale_then_mask_at names image s a n r :
  in_names "QA60" names = false ->
  scale_named names image = Ok s ->
  mask_named names s = Ok a ->
  find_band n (bands image) = Some r ->
  exists ra,
    find_band n (bands a) = Some ra /\
    forall p,
      ra p = if excluded names image p then None
             else if in_names n names then scaled_value (r p) else r p.
Proof.
  intros Hq Hs Ha Hr.
  assert (Hn : has_band n (bands a) = true).
  { apply (has_same_names a s (mask_named_names _ _ _ Ha)).
    apply (has_same_names s image (scale_named_names _ _ _ Hs)).
    eapply find_has_band, Hr. }
  destruct (has_band_find _ _ Hn) as [ra Hra]. exists ra. split; [exact Hra |].
  intros p. destruct (mask_named_at _ _ _ _ _ Ha Hra) as [rs [Hrs Hp]].
  destruct (scale_named_at _ _ _ _ _ Hs Hrs) as [r0 [Hr0 Hp0]].
  rewrite Hr in Hr0. injection Hr0 as <-.
  rewrite Hp, Hp0, (excluded_scaled names image s p Hq Hs). reflexivity.
Qed.

Lemma mask_then_scale_at names image m b n r :
  mask_named names image = Ok m ->
  scale_named names m = Ok b ->
  find_band n (bands image) = Some r ->
  exists rb,
    find_band n (bands b) = Some rb /\
    forall p,
      rb p = if excluded names image p then None
             else if in_names n names then scaled_value (r p) else r p.
Proof.
  intros Hm Hb Hr.
  assert (Hn : has_band n (bands b) = true).
  { apply (has_same_names b m (scale_named_names _ _ _ Hb)).
    apply (has_same_names m image (mask_named_names _ _ _ Hm)).
    eapply find_has_band, Hr. }
  destruct (has_band_find _ _ Hn) as [rb Hrb]. exists rb. split; [exact Hrb |].
  intros p. destruct (scale_named_at _ _ _ _ _ Hb Hrb) as [rm [Hrm Hp]].
  destruct (mask_named_at _ _ _ _ _ Hm Hrm) as [r0 [Hr0 Hp0]].
  rewrite Hr in Hr0. injection Hr0 as <-.
  rewrite Hp, Hp0. destruct (excluded names image p); [| reflexivity].
  destruct (in_names n names); reflexivity.
Qed.

Lemma scale_mask_commute_named names image :
  in_names "QA60" names = false ->
  has_band "QA60" (bands image) = true ->
  (forall n, In n names -> has_band n (bands image) = true) ->
  exists a b,
    (s <- scale_named names image ;; mask_named names s) = Ok a /\
    (m <- mask_named names image ;; scale_named names m) = Ok b /\
    same_pixels a b.
Proof.
  intros Hq Hqa Hhas.
  destruct (scale_named_spec names image Hhas) as [s [Hs [Hsn _]]].
  destruct (mask_named_spec names s) as [a [Ha [Han _]]].
  { apply (has_same_names s image Hsn), Hqa. }
  { intros n Hn. apply (has_same_names s image Hsn), Hhas, Hn. }
  destruct (mask_named_spec names image Hqa Hhas) as [m [Hm [Hmn _]]].
  destruct (scale_named_spec names m) as [b [Hb [Hbn _]]].
  { intros n Hn. apply (has_same_names m image Hmn), Hhas, Hn. }
  exists a, b. rewrite Hs, Hm. cbn [bind]. split; [exact Ha |]. split; [exact Hb |].
  destruct (scale_named_meta _ _ _ Hs) as [Ts Fs].
  destruct (mask_named_meta _ _ _ Ha) as [Ta Fa].
  destruct (mask_named_meta _ _ _ Hm) as [Tm Fm].
  destruct (scale_named_meta _ _ _ Hb) as [Tb Fb].
  split; [congruence |]. split; [congruence |]. split; [congruence |].
  intros n. destruct (find_band n (bands image)) as [r |] eqn:Er.
  - destruct (scale_then_mask_at names image s a n r Hq Hs Ha Er) as [ra [Hra Ea]].
    destruct (mask_then_scale_at names image m b n r Hm Hb Er) as [rb [Hrb Eb]].
    rewrite Hra, Hrb. intros p. rewrite Ea, Eb. reflexivity.
  - rewrite (find_none_same_names a image n) by congruence.
    rewrite (find_none_same_names b image n) by congruence. exact I.
Qed.

(** X4.  The two files apply the two steps in opposite orders:
    [create_rrs_table.py] scales and then masks, [app.py] masks and then
    scales.  On an image that carries the quality band and the designated
    bands both orders succeed and give the same image: the same bands, time
    and footprint, and the same value in every band at every pixel. *)
Theorem scaling_and_masking_commute :
  forall names scale mask,
    (names = optical_bands /\ scale = scale_msi /\ mask = mask_s2_clouds) \/
    (names = App.index_bands /\ scale = App.scale_msi /\ mask = App.mask_S2_clouds) ->
    forall image : Image Q,
      has_band "QA60" (bands image) = true ->
      (forall n, In n names -> has_band n (bands image) = true) ->
      exists a b,
        (s <- scale image ;; mask s) = Ok a /\
        (m <- mask image ;; scale m) = Ok b /\
        same_pixels a b.
Proof.
  intros names scale mask [[-> [-> ->]] | [-> [-> ->]]] image Hqa Hhas.
  - exact (scale_mask_commute_named optical_bands image eq_refl Hqa Hhas).
  - exact (scale_mask_commute_named App.index_bands image eq_refl Hqa Hhas).
Qed.

Lemma scaling_and_masking_commute_witness :
  exists a b,
    (s <- scale_msi clear_image ;; mask_s2_clouds s) = Ok a /\
    (m <- mask_s2_clouds clear_image ;; scale_msi m) = Ok b /\
    same_pixels a b.
Proof.
  apply (scaling_and_masking_commute
           optical_bands scale_msi mask_s2_clouds
           (or_introl (conj eq_refl (conj eq_refl eq_refl))) clear_image).
  - reflexivity.
  - intros n Hn. apply flat_image_has_band. right. right. exact Hn.
Defined.

(** X5.  Masking is idempotent: masking a masked image succeeds and changes
    no band at any pixel.  For [mask_s2_clouds] and for [mask_S2_clouds] of
    [app.py]. *)
Theorem masking_twice_is_masking_once :
  forall names mask,
    (names = optical_bands /\ mask = mask_s2_clouds) \/
    (names = App.index_bands /\ mask = App.mask_S2_clouds) ->
    forall (image once : Image Q),
      mask image = Ok once ->
      exists twice, mask once = Ok twice /\ same_pixels twice once.
Proof.
  intros names mask Hcase image once Hout.
  assert (Hmask : mask = mask_named names).
  { destruct Hcase as [[-> ->] | [-> ->]]; reflexivity. }
  subst mask.
  destruct (mask_named_ok_has _ _ _ Hout) as [Hqa Hhas].
  pose proof (mask_named_names _ _ _ Hout) as Hn1.
  destruct (mask_named_spec names once) as [twice [H2 [Hn2 [T2 [F2 _]]]]].
  { apply (has_same_names once image Hn1), Hqa. }
  { intros n Hn. apply (has_same_names once image Hn1), Hhas, Hn. }
  exists twice. split; [exact H2 |].
  split; [exact Hn2 |]. split; [exact T2 |]. split; [exact F2 |].
  intros n. destruct (find_band n (bands once)) as [r1 |] eqn:E1.
  - assert (Hh : has_band n (bands twice) = true).
    { apply (has_same_names twice once Hn2). eapply find_has_band, E1. }
    destruct (has_band_find _ _ Hh) as [r2 E2]. rewrite E2. intros p.
    destruct (mask_named_at _ _ _ _ _ H2 E2) as [r1' [E1' Hp2]].
    rewrite E1 in E1'. injection E1' as <-.
    destruct (mask_named_at _ _ _ _ _ Hout E1) as [r [Er Hp1]].
    rewrite Hp2, (excluded_masked names image once p Hout), Hp1.
    destruct (excluded names image p); reflexivity.
  - rewrite (find_none_same_names twice once n Hn2 E1). exact I.
Qed.

Lemma masking_twice_is_masking_once_witness :
  exists once twice,
    mask_s2_clouds cloudy_image = Ok once /\
    mask_s2_clouds once = Ok twice /\ same_pixels twice once.
Proof.
  eexists.
  destruct (masking_twice_is_masking_once
              optical_bands mask_s2_clouds (or_introl (conj eq_refl eq_refl))
              cloudy_image _ eq_refl) as [twice [H S]].
  exists twice. split; [reflexivity |]. split; [exact H | exact S].
Defined.

(** ** The input of the index in app.py *)

Lemma select_find names (image sel : Image Q) n :
  select names image = Ok sel ->
  In n names ->
  find_band n (bands sel) = find_band n (bands image).
Proof.
  unfold select. intros H Hn. inv_bind H. injection H as <-. cbn [bands with_bands].
  rewrite (select_bands_find _ _ _ n Ha).
  assert (Hs : has_band n a = true).
  { apply find_band_names. rewrite (select_bands_names _ _ _ Ha). exact Hn. }
  rewrite Hs. reflexivity.
Qed.

Lemma select_names names (image sel : Image Q) :
  select names image = Ok sel -> bandNames sel = names.
Proof.
  unfold select. intros H. inv_bind H. injection H as <-.
  exact (select_bands_names _ _ _ Ha).
Qed.

(** X6.  What [calculate_oc3] is mapped over in [app.py]: after
    [.map(mask_S2_clouds).map(scale_msi).select(['B1', 'B2', 'B3'])] an image
    has exactly the bands B1, B2, B3, in this order; each holds the input's
    value times 0.0001 where the input pixel is not excluded and is masked
    elsewhere; and every valid value is strictly positive, so that the
    divisor B3 of the band ratio is never zero or negative where it is
    valid. *)
Theorem index_input_is_masked_scaled_and_positive :
  forall image out : Image Q,
    prepare_for_index image = Ok out ->
    bandNames out = ["B1"; "B2"; "B3"] /\
    forall n p,
      In n App.index_bands ->
      band_median out p n
      = (if excluded App.index_bands image p then None
         else scaled_value (band_median image p n)) /\
      null_or_positive (band_median out p n).
Proof.
  intros image out H. unfold prepare_for_index in H.
  apply bind_ok in H. destruct H as [m [Hm H]].
  apply bind_ok in H. destruct H as [b [Hb Hsel]].
  rewrite mask_S2_clouds_named in Hm. rewrite App_scale_msi_named in Hb.
  split; [exact (select_names _ _ _ Hsel) |].
  intros n p Hn.
  destruct (mask_named_ok_has _ _ _ Hm) as [_ Hhas].
  destruct (has_band_find _ _ (Hhas n Hn)) as [r Hr].
  destruct (mask_then_scale_at _ _ _ _ n r Hm Hb Hr) as [rb [Hrb Hp]].
  assert (Hout : band_median out p n
                 = if excluded App.index_bands image p then None
                   else scaled_value (r p)).
  { unfold band_median. rewrite (select_find _ _ _ n Hsel Hn), Hrb, Hp.
    apply in_names_In in Hn. rewrite Hn. reflexivity. }
  split.
  - rewrite Hout. unfold band_median. rewrite Hr. reflexivity.
  - rewrite Hout. destruct (excluded App.index_bands image p) eqn:Ex; [exact I |].
    destruct (not_excluded _ _ _ Ex) as [_ [_ [_ [_ [_ [_ [_ Hall]]]]]]].
    rewrite Forall_forall in Hall.
    destruct (r p) as [v |] eqn:Ev; [| exact I]. cbn [scaled_value option_map null_or_positive].
    apply scaled_positive, Hall. eapply designated_values_in; eassumption.
Qed.

Lemma index_input_is_masked_scaled_and_positive_witness :
  exists out,
    prepare_for_index clear_image = Ok out /\
    bandNames out = ["B1"; "B2"; "B3"] /\
    forall n p,
      In n App.index_bands ->
      band_median out p n
      = (if excluded App.index_bands clear_image p then None
         else scaled_value (band_median clear_image p n)) /\
      null_or_positive (band_median out p n).
Proof.
  eexists. split; [reflexivity |].
  apply (index_input_is_masked_scaled_and_positive clear_image). reflexivity.
Defined.

(** ** The matcher, end to end *)

Lemma window_images_in (ic : ImageCollection) (t : Z) (pt : point) (im : Image Q) :
  In im (window_images ic t pt) <->
  In im ic /\ t - 86400000 <= time_start im < t + 86400000 /\ footprint im pt = true.
Proof.
  unfold window_images, filterBounds, filterDate, advance_days, day_ms.
  rewrite !filter_In, andb_true_iff, Z.leb_le, Z.ltb_lt. intuition lia.
Qed.

Lemma Forall2_nth_r {A B : Type} (P : A -> B -> Prop) xs ys k y :
  Forall2 P xs ys -> nth_error ys k = Some y ->
  exists x, nth_error xs k = Some x /\ P x y.
Proof.
  intros H. revert k. induction H as [| x0 y0 xs ys H0 _ IH]; intros k Hk.
  - destruct k; discriminate Hk.
  - destruct k as [| k]; cbn [nth_error] in *.
    + injection Hk as <-. exists x0. split; [reflexivity | exact H0].
    + apply IH, Hk.
Qed.

(** The candidates are the images of the window, scaled and then masked, one
    for one. *)
Lemma evaluate_images_inv ic d pt cands :
  evaluate_images ic d pt = Ok cands ->
  exists t,
    parse_timestamp d = Some t /\
    Forall2 (fun im c => exists s, scale_msi im = Ok s /\ mask_s2_clouds s = Ok c)
            (window_images ic t pt) cands.
Proof.
  unfold evaluate_images, date_millis. intros H.
  destruct (parse_timestamp d) as [t |]; [| discriminate H]. cbn [bind] in H.
  exists t. split; [reflexivity |].
  inv_bind H. apply mapM_ok_Forall2 in Ha, H.
  revert cands H.
  induction Ha as [| im s ims ss Hs _ IH]; intros cands Hev;
    inversion Hev as [| ? c ? cs Hc Hcs]; subst; constructor.
  - exists s. split; assumption.
  - apply IH. exact Hcs.
Qed.



(** The median of a designated band of a candidate, in terms of the image it
    was made from. *)
Lemma candidate_median (im s c : Image Q) (pt : point) (n : string) :
  scale_msi im = Ok s ->
  mask_s2_clouds s = Ok c ->
  In n optical_bands ->
  band_median c pt n
  = if excluded optical_bands im pt then None
    else scaled_value (band_median im pt n).
Proof.
  intros Hs Hc Hn.
  destruct (has_band_find _ _ (scale_named_ok_has optical_bands im s Hs n Hn)) as [r Hr].
  destruct (scale_then_mask_at optical_bands im s c n r eq_refl Hs Hc Hr)
    as [ra [Hra Hp]].
  unfold band_median. rewrite Hra, Hr, Hp.
  apply in_names_In in Hn. rewrite Hn. reflexivity.
Qed.

Lemma join_row_in other i vals x :
  In x (join_row other (i, vals)) ->
  exists chl,
    x = (i, vals ++ [chl]) /\
    match chl with
    | Some c => exists m, In (i, m) other /\ CHL m = c
    | None => ~ In i (index other)
    end.
Proof.
  unfold join_row. cbn [fst snd].
  destruct (filter (fun m : Z * Row => fst m =? i) other) as [| m0 ms] eqn:F.
  - intros [<- | []]. exists None. split; [reflexivity |].
    intros Hin. unfold index in Hin. apply in_map_iff in Hin.
    destruct Hin as [[k m] [Hk Hin]]. cbn [fst] in Hk. subst k.
    assert (Hf : In (i, m) (filter (fun m : Z * Row => fst m =? i) other)).
    { apply filter_In. split; [exact Hin | apply Z.eqb_refl]. }
    rewrite F in Hf. destruct Hf.
  - intros Hx. apply in_map_iff in Hx. destruct Hx as [[k m] [<- Hm]].
    rewrite <- F in Hm. apply filter_In in Hm. destruct Hm as [Hm Hk].
    cbn [fst] in Hk. apply Z.eqb_eq in Hk. subst k. cbn [snd].
    exists (Some (CHL m)). split; [reflexivity |]. exists m. split; [exact Hm | reflexivity].
Qed.

(** X7.  Nothing in a returned table is made up.  Every row carries the id
    of an observation of the input; its eight band values are the values, at
    the observation's point and times 0.0001, of ONE image of the collection
    that was acquired less than a day from the observation, covers the point
    and is not excluded there by the mask (quality flags clear, designated
    bands positive); the value of B3 is there and is strictly positive; and
    the last cell is the concentration stored in [df_all] under the row's id,
    or null when [df_all] has no such id. *)
Theorem every_row_is_an_unflagged_image_of_the_window :
  forall (g : Globals) (ic : ImageCollection) (df : DataFrame)
         (tbl : Table) (calls : list call),
    preproc g ic df = Ok (tbl, calls) ->
    forall i vals,
      In (i, vals) (rows tbl) ->
      exists row t pt im chl,
        In (i, row) df /\
        parse_timestamp (datetime row) = Some t /\
        observation_point row = Ok pt /\
        In im ic /\
        t - 86400000 <= time_start im < t + 86400000 /\
        footprint im pt = true /\
        excluded optical_bands im pt = false /\
        vals = map (fun n => scaled_value (band_median im pt n)) optical_bands ++ [chl] /\
        (exists v, band_median im pt "B3" = Some v /\ (0 < v)%Q) /\
        exists other,
          df_all g = Some other /\
          match chl with
          | Some c => exists m, In (i, m) other /\ CHL m = c
          | None => ~ In i (index other)
          end.
Proof.
  intros g ic df tbl calls H i vals Hin.
  pose proof (preproc_ok_unique g ic df _ H) as Hnd.
  rewrite (preproc_unique g ic df Hnd) in H.
  inv_bind H. rename a into results. cbv zeta in H.
  pose proof (entries_of_rows ic df results Ha) as HF.
  set (entries := combine (index df) (map fst results)) in *.
  destruct (stats_rows entries) as [| r0 R]; [discriminate H |].
  destruct (df_all g) as [other |]; [| discriminate H].
  injection H as <- _. cbn [rows] in Hin.
  apply in_flat_map in Hin. destruct Hin as [[k v] [Hkv Hx]].
  unfold entry_rows in Hx. cbn [fst snd] in Hx.
  destruct v as [txt | | s]; try (destruct Hx; fail).
  destruct (truthy (VDict s)); [| destruct Hx].
  destruct (join_row_in _ _ _ _ Hx) as [chl [Hxe Hchl]].
  injection Hxe as <- ->.
  destruct (Forall2_in_r _ _ _ _ HF Hkv) as [[i' row] [Hrow [Hi [cl Hres]]]].
  cbn [fst snd] in Hi, Hres. subst i'.
  destruct (resolve_row_inv _ _ _ _ Hres) as [pt [cands [Hpt [Hev Hout]]]].
  apply (f_equal fst) in Hout. cbn [fst] in Hout. rewrite outcome_value in Hout.
  destruct (first_valid pt cands) as [[j c] |] eqn:Ef; [| discriminate Hout].
  injection Hout as ->.
  apply first_valid_Some in Ef. destruct Ef as [Hj [Hb3 _]].
  destruct (evaluate_images_inv _ _ _ _ Hev) as [t [Ht HF2]].
  destruct (Forall2_nth_r _ _ _ _ _ HF2 Hj) as [im [Him [sc [Hs Hc]]]].
  apply nth_error_In in Him. apply window_images_in in Him.
  destruct Him as [Hic [Hwin Hfoot]].
  assert (Hex : excluded optical_bands im pt = false).
  { unfold b3_median in Hb3.
    rewrite (candidate_median im sc c pt "B3" Hs Hc) in Hb3
      by (right; left; reflexivity).
    destruct (excluded optical_bands im pt); [congruence | reflexivity]. }
  exists row, t, pt, im, chl.
  repeat (split; [assumption |]). split; [| split].
  - assert (Hv : band_values (reduceRegion_median c pt)
                 = map (fun n => scaled_value (band_median im pt n)) optical_bands).
    { unfold band_values. apply map_ext_in. intros n Hn.
      rewrite value_in_median, (candidate_median im sc c pt n Hs Hc Hn), Hex.
      reflexivity. }
    rewrite <- Hv. reflexivity.
  - unfold b3_median in Hb3.
    rewrite (candidate_median im sc c pt "B3" Hs Hc) in Hb3
      by (right; left; reflexivity).
    rewrite Hex in Hb3.
    destruct (band_median im pt "B3") as [v |] eqn:Ev;
      [| exfalso; apply Hb3; reflexivity].
    exists v. split; [reflexivity |].
    destruct (not_excluded _ _ _ Hex) as [_ [_ [_ [_ [_ [_ [_ Hall]]]]]]].
    rewrite Forall_forall in Hall. apply Hall.
    unfold band_median in Ev.
    destruct (find_band "B3" (bands im)) as [r |] eqn:Er; [| discriminate Ev].
    apply (designated_values_in optical_bands im pt "B3" r v);
      [right; left; reflexivity | exact Er | exact Ev].
  - exists other. split; [reflexivity | exact Hchl].
Qed.

Lemma every_row_is_an_unflagged_image_of_the_window_witness :
  exists tbl calls vals,
    preproc (as_script two_rows) two_images two_rows = Ok (tbl, calls) /\
    In (0, vals) (rows tbl) /\
    exists row t pt im chl,
      In (0, row) two_rows /\
      parse_timestamp (datetime row) = Some t /\
      observation_point row = Ok pt /\
      In im two_images /\
      t - 86400000 <= time_start im < t + 86400000 /\
      footprint im pt = true /\
      excluded optical_bands im pt = false /\
      vals = map (fun n => scaled_value (band_median im pt n)) optical_bands ++ [chl] /\
      (exists v, band_median im pt "B3" = Some v /\ (0 < v)%Q) /\
      exists other,
        df_all (as_script two_rows) = Some other /\
        match chl with
        | Some c => exists m, In (0, m) other /\ CHL m = c
        | None => ~ In 0 (index other)
        end.
Proof.
  eexists. eexists. eexists. split; [vm_compute; reflexivity |].
  split; [left; reflexivity |].
  eapply (every_row_is_an_unflagged_image_of_the_window
            (as_script two_rows) two_images two_rows).
  - vm_compute. reflexivity.
  - left. reflexivity.
Defined.




(** *** The provider calls of one observation *)

Lemma outcome_trace i pt cands :
  snd (outcome i pt cands)
  = match cands with
    | [] => [SizeInfo i]
    | _ => SizeInfo i :: LengthInfo i :: map (ReduceInfo i) (seq 0 (examined pt cands))
    end.
Proof.
  unfold outcome, examined, reduce_calls. destruct cands as [| c cs]; [reflexivity |].
  destruct (first_valid pt (c :: cs)) as [[k c'] |]; reflexivity.
Qed.

Lemma outcome_labels i pt cands c :
  In c (snd (outcome i pt cands)) -> call_label c = i.
Proof.
  rewrite outcome_trace. destruct cands as [| c0 cs].
  - intros [<- | []]. reflexivity.
  - intros [<- | [<- | H]]; [reflexivity | reflexivity |].
    apply in_map_iff in H. destruct H as [j [<- _]]. reflexivity.
Qed.

Lemma calls_for_all i calls :
  (forall c, In c calls -> call_label c = i) -> calls_for i calls = calls.
Proof.
  unfold calls_for. induction calls as [| c cs IH]; intros H; [reflexivity |].
  cbn [filter]. rewrite (H c (or_introl eq_refl)), Z.eqb_refl. f_equal.
  apply IH. intros x Hx. apply H. right. exact Hx.
Qed.

Lemma calls_for_none i calls :
  (forall c, In c calls -> call_label c <> i) -> calls_for i calls = [].
Proof.
  intros H. apply filter_none. intros c Hc. apply Z.eqb_neq, H, Hc.
Qed.

Lemma calls_for_app i xs ys : calls_for i (xs ++ ys) = calls_for i xs ++ calls_for i ys.
Proof. apply filter_app. Qed.

Lemma calls_for_rows ic i :
  forall (df : DataFrame) (results : list (pyval * list call)),
    Forall2 (fun (ir : Z * Row) res => resolve_row ic (fst ir) (snd ir) = Ok res)
            df results ->
    (~ In i (index df) -> calls_for i (List.concat (map snd results)) = []) /\
    (NoDup (index df) ->
     forall row pt cands,
       In (i, row) df ->
       observation_point row = Ok pt ->
       evaluate_images ic (datetime row) pt = Ok cands ->
       calls_for i (List.concat (map snd results)) = snd (outcome i pt cands)).
Proof.
  intros df results HF.
  induction HF as [| [k r] res df results Hres _ [IHout IHin]].
  - split; [reflexivity |]. intros _ row pt cands [].
  - cbn [fst snd] in Hres.
    destruct (resolve_row_inv _ _ _ _ Hres) as [p [cs [Hp [Hcs ->]]]].
    cbn [map List.concat index fst]. rewrite calls_for_app. split.
    + intros Hno. rewrite IHout by (intros H; apply Hno; right; exact H).
      rewrite calls_for_none; [reflexivity |].
      intros c Hc. rewrite (outcome_labels _ _ _ _ Hc).
      intros ->. apply Hno. left. reflexivity.
    + intros Hnd row pt cands Hin Hpt Hev. inversion Hnd as [| ? ? Hk Hnd']; subst.
      destruct Hin as [Hin | Hin].
      * injection Hin as -> ->. rewrite Hpt in Hp. injection Hp as <-.
        rewrite Hev in Hcs. injection Hcs as <-.
        rewrite (IHout Hk), app_nil_r. apply calls_for_all.
        intros c Hc. exact (outcome_labels _ _ _ _ Hc).
      * assert (Hki : k <> i).
        { intros ->. apply Hk. unfold index. apply in_map_iff.
          exists (i, row). split; [reflexivity | exact Hin]. }
        rewrite calls_for_none.
        -- apply (IHin Hnd' row pt cands Hin Hpt Hev).
        -- intros c Hc. rewrite (outcome_labels _ _ _ _ Hc). exact Hki.
Qed.

(** X9.  The provider round trips of one observation.  In a run that
    returns, the calls made for an observation are, in this order: one size
    query; and, when the window is not empty, one length query followed by
    one sample per candidate, in the collection's order, up to and including
    the first candidate with a value of B3 (all of them when there is none).
    No call is made for an id that is not in the table. *)
Theorem round_trips_of_an_observation :
  forall (g : Globals) (ic : ImageCollection) (df : DataFrame)
         (tbl : Table) (calls : list call),
    preproc g ic df = Ok (tbl, calls) ->
    (forall i row,
       In (i, row) df ->
       exists pt cands,
         observation_point row = Ok pt /\
         evaluate_images ic (datetime row) pt = Ok cands /\
         calls_for i calls
         = match cands with
           | [] => [SizeInfo i]
           | _ => SizeInfo i :: LengthInfo i
                  :: map (ReduceInfo i) (seq 0 (examined pt cands))
           end) /\
    (forall c, In c calls -> In (call_label c) (index df)).
Proof.
  intros g ic df tbl calls H.
  pose proof (preproc_ok_unique g ic df _ H) as Hnd.
  rewrite (preproc_unique g ic df Hnd) in H.
  inv_bind H. rename a into results. cbv zeta in H.
  destruct (stats_rows (combine (index df) (map fst results))); [discriminate H |].
  destruct (df_all g) as [other |]; [| discriminate H].
  injection H as _ <-.
  pose proof (mapM_ok_Forall2 _ _ _ Ha) as HF. split.
  - intros i row Hin.
    destruct (Forall2_in_l _ _ _ _ HF Hin) as [res [_ Hres]]. cbn [fst snd] in Hres.
    destruct (resolve_row_inv _ _ _ _ Hres) as [pt [cands [Hpt [Hev _]]]].
    exists pt, cands. split; [exact Hpt |]. split; [exact Hev |].
    rewrite <- outcome_trace.
    exact (proj2 (calls_for_rows ic i df results HF) Hnd row pt cands Hin Hpt Hev).
  - intros c Hc. apply in_concat in Hc. destruct Hc as [cl [Hcl Hc]].
    apply in_map_iff in Hcl. destruct Hcl as [res [<- Hres]].
    destruct (Forall2_in_r _ _ _ _ HF Hres) as [[k r] [Hkr Hrow]].
    cbn [fst snd] in Hrow.
    destruct (resolve_row_inv _ _ _ _ Hrow) as [pt [cands [_ [_ ->]]]].
    rewrite (outcome_labels _ _ _ _ Hc). unfold index. apply in_map_iff.
    exists (k, r). split; [reflexivity | exact Hkr].
Qed.

Lemma round_trips_of_an_observation_witness :
  exists tbl calls,
    preproc (as_script two_rows) two_images two_rows = Ok (tbl, calls) /\
    (forall i row,
       In (i, row) two_rows ->
       exists pt cands,
         observation_point row = Ok pt /\
         evaluate_images two_images (datetime row) pt = Ok cands /\
         calls_for i calls
         = match cands with
           | [] => [SizeInfo i]
           | _ => SizeInfo i :: LengthInfo i
                  :: map (ReduceInfo i) (seq 0 (examined pt cands))
           end) /\
    (forall c, In c calls -> In (call_label c) (index two_rows)).
Proof.
  eexists. eexists. split; [vm_compute; reflexivity |].
  eapply (round_trips_of_an_observation (as_script two_rows) two_images two_rows).
  vm_compute. reflexivity.
Defined.

(** ** Degree-minute coordinates: the frame *)

Module CoordinateFacts.
Import DataPreprocessing.

Lemma column_missing (name : string) (df : DataFrame) :
  ~ In name (map fst df) -> column name df = Err KeyError.
Proof.
  induction df as [| [n c] df IH]; intros H; [reflexivity |].
  cbn [column]. destruct (String.eqb n name) eqn:E.
  - apply String.eqb_eq in E. exfalso. apply H. left. exact E.
  - apply IH. intros Hin. apply H. right. exact Hin.
Qed.

Lemma column_ok_in (name : string) (df : DataFrame) (cells : list cell) :
  column name df = Ok cells -> In (name, cells) df.
Proof.
  induction df as [| [n c] df IH]; intros H; [discriminate H |].
  cbn [column] in H. destruct (String.eqb n name) eqn:E.
  - apply String.eqb_eq in E. injection H as <-. left. congruence.
  - right. apply IH, H.
Qed.

Lemma set_column_present (name : string) (data : list cell) (df : DataFrame) :
  In name (map fst df) ->
  set_column name data df
  = map (fun c : string * list cell =>
           if String.eqb (fst c) name then (fst c, data) else c) df.
Proof.
  intros H. unfold set_column.
  assert (E : existsb (fun c : string * list cell => String.eqb (fst c) name) df = true).
  { apply existsb_exists. apply in_map_iff in H. destruct H as [c [Hc Hin]].
    exists c. split; [exact Hin | apply String.eqb_eq, Hc]. }
  rewrite E. reflexivity.
Qed.

Lemma column_replaced (name n : string) (data : list cell) (df : DataFrame) :
  column n (map (fun c : string * list cell =>
                   if String.eqb (fst c) name then (fst c, data) else c) df)
  = if String.eqb n name
    then (if existsb (fun c : string * list cell => String.eqb (fst c) name) df
          then Ok data else Err KeyError)
    else column n df.
Proof.
  induction df as [| [k c] df IH]; cbn [map column existsb fst].
  - destruct (String.eqb n name); reflexivity.
  - destruct (String.eqb k name) eqn:Ek; cbn [fst orb].
    + apply String.eqb_eq in Ek. subst k. rewrite (String.eqb_sym name n).
      destruct (String.eqb n name); [reflexivity | exact IH].
    + destruct (String.eqb k n) eqn:Ekn.
      * apply String.eqb_eq in Ekn. subst k. rewrite Ek. reflexivity.
      * exact IH.
Qed.

(** X10.  The conversion rewrites one column and nothing else.  On a table
    with distinct column names (where [data_frame[name]] is a column), when
    it returns, the column names and their order are those of the input, every
    other column is returned as it was, and the named column has as many
    cells as before, each the conversion of the cell at the same position. *)
Theorem conversion_rewrites_only_the_named_column :
  forall (df out : DataFrame) (name : string),
    NoDup (map fst df) ->
    convert_degree_and_min_to_degree df name = Ok out ->
    map fst out = map fst df /\
    (forall n, n <> name -> column n out = column n df) /\
    exists old new,
      column name df = Ok old /\
      column name out = Ok new /\
      List.length new = List.length old /\
      Forall2 (fun o n => convert_item o = Ok n) old new.
Proof.
  intros df out name _ H. unfold convert_degree_and_min_to_degree in H.
  cbv zeta in H. apply bind_ok in H. destruct H as [old [Hold H]].
  apply bind_ok in H. destruct H as [new [Hnew H]]. injection H as <-.
  assert (Hin : In name (map fst df)).
  { apply in_map_iff. exists (name, old). split; [reflexivity |].
    apply column_ok_in, Hold. }
  rewrite (set_column_present name new df Hin). split; [| split].
  - rewrite map_map. apply map_ext. intros [k c]. cbn [fst].
    destruct (String.eqb k name); reflexivity.
  - intros n Hn. rewrite column_replaced.
    apply String.eqb_neq in Hn. rewrite Hn. reflexivity.
  - exists old, new. split; [exact Hold |]. split; [| split].
    + rewrite column_replaced, String.eqb_refl.
      assert (E : existsb (fun c : string * list cell => String.eqb (fst c) name) df = true).
      { apply existsb_exists. apply in_map_iff in Hin. destruct Hin as [c [Hc Hi]].
        exists c. split; [exact Hi | apply String.eqb_eq, Hc]. }
      rewrite E. reflexivity.
    + exact (mapM_length _ _ _ Hnew).
    + exact (mapM_ok_Forall2 _ _ _ Hnew).
Qed.

Lemma conversion_rewrites_only_the_named_column_witness :
  exists out,
    convert_degree_and_min_to_degree
      [("LATITUDE", [CStr "51 30"; CStr "52 0"]); ("CHL", [CFloat 1; CFloat 2])]
      "LATITUDE" = Ok out /\
    map fst out = ["LATITUDE"; "CHL"] /\
    (forall n, n <> "LATITUDE" ->
       column n out
       = column n [("LATITUDE", [CStr "51 30"; CStr "52 0"]);
                   ("CHL", [CFloat 1; CFloat 2])]) /\
    exists old new,
      column "LATITUDE"
             [("LATITUDE", [CStr "51 30"; CStr "52 0"]); ("CHL", [CFloat 1; CFloat 2])]
      = Ok old /\
      column "LATITUDE" out = Ok new /\
      List.length new = List.length old /\
      Forall2 (fun o n => convert_item o = Ok n) old new.
Proof.
  eexists. split; [vm_compute; reflexivity |].
  apply (conversion_rewrites_only_the_named_column
           [("LATITUDE", [CStr "51 30"; CStr "52 0"]); ("CHL", [CFloat 1; CFloat 2])]).
  - repeat constructor; simpl; intuition discriminate.
  - vm_compute. reflexivity.
Defined.

Lemma mapM_first_error {A B : Type} (f : A -> result B) (pre post : list A)
      (x : A) (e : error) :
  Forall (fun a => exists b, f a = Ok b) pre ->
  f x = Err e ->
  mapM f (pre ++ x :: post) = Err e.
Proof.
  intros Hpre Hx. induction Hpre as [| a pre [b Hb] _ IH]; cbn [app mapM].
  - rewrite Hx. reflexivity.
  - rewrite Hb. cbn [bind]. rewrite IH. reflexivity.
Qed.

(** X11.  How the conversion fails.  It raises [KeyError] when the table has
    no column of the given name.  Otherwise the cells are converted in
    order, and the first one that cannot be converted decides: a cell that
    is not a text (a missing value is read as a float) raises
    [AttributeError], and a text that does not consist of exactly two parts
    separated by one space raises [ValueError].  No table is returned in
    these cases, whatever the other cells hold. *)
Theorem conversion_failures :
  forall (df : DataFrame) (name : string),
    (~ In name (map fst df) ->
     convert_degree_and_min_to_degree df name = Err KeyError) /\
    (forall pre post c,
       column name df = Ok (pre ++ c :: post) ->
       Forall (fun a => exists b, convert_item a = Ok b) pre ->
       match c with
       | CFloat _ => convert_degree_and_min_to_degree df name = Err AttributeError
       | CStr s =>
           List.length (split_on " " s) <> 2%nat ->
           convert_degree_and_min_to_degree df name = Err ValueError
       end).
Proof.
  intros df name. split.
  - intros H. unfold convert_degree_and_min_to_degree. cbv zeta.
    rewrite (column_missing name df H). reflexivity.
  - intros pre post c Hcol Hpre.
    unfold convert_degree_and_min_to_degree. cbv zeta. rewrite Hcol. cbn [bind].
    destruct c as [q | s].
    + rewrite (mapM_first_error convert_item pre post (CFloat q) AttributeError Hpre eq_refl).
      reflexivity.
    + intros Hlen.
      rewrite (mapM_first_error convert_item pre post (CStr s) ValueError Hpre).
      * reflexivity.
      * unfold convert_item.
        destruct (split_on " " s) as [| a [| b [| c l]]]; try reflexivity.
        exfalso. apply Hlen. reflexivity.
Qed.

Lemma conversion_failures_witness :
  convert_degree_and_min_to_degree [("LATITUDE", [CStr "51 30"])] "LONGITUDE"
  = Err KeyError /\
  convert_degree_and_min_to_degree
    [("LATITUDE", [CStr "51 30"; CFloat 0; CStr "52 0"])] "LATITUDE"
  = Err AttributeError /\
  convert_degree_and_min_to_degree
    [("LATITUDE", [CStr "51 30"; CStr "51 30 N"])] "LATITUDE"
  = Err ValueError.
Proof.
  split; [| split].
  - apply (proj1 (conversion_failures [("LATITUDE", [CStr "51 30"])] "LONGITUDE")).
    simpl. intuition discriminate.
  - apply (proj2 (conversion_failures
                    [("LATITUDE", [CStr "51 30"; CFloat 0; CStr "52 0"])] "LATITUDE")
                 [CStr "51 30"] [CStr "52 0"] (CFloat 0) eq_refl).
    constructor; [eexists; vm_compute; reflexivity | constructor].
  - apply (proj2 (conversion_failures
                    [("LATITUDE", [CStr "51 30"; CStr "51 30 N"])] "LATITUDE")
                 [CStr "51 30"] [] (CStr "51 30 N") eq_refl).
    + constructor; [eexists; vm_compute; reflexivity | constructor].
    + vm_compute. discriminate.
Defined.

End CoordinateFacts.

(** ** Decimal digits *)

Lemma digit_of_range (c : ascii) (d : Z) : digit_of c = Some d -> 0 <= d <= 9.
Proof.
  unfold digit_of. cbv zeta.
  destruct ((48 <=? Z.of_nat (nat_of_ascii c)) && (Z.of_nat (nat_of_ascii c) <=? 57)) eqn:E;
    [| discriminate].
  intros [= <-]. apply andb_true_iff in E. destruct E as [E1 E2].
  apply Z.leb_le in E1, E2. lia.
Qed.



(** The value of [L] digits after [acc]. *)
Lemma digits_value_bound (s : string) (acc v : Z) :
  0 <= acc ->
  digits_value acc s = Some v ->
  acc * 10 ^ Z.of_nat (String.length s) <= v
  < (acc + 1) * 10 ^ Z.of_nat (String.length s).
Proof.
  revert acc. induction s as [| c s IH]; intros acc Hacc H.
  - cbn [digits_value] in H. injection H as <-. cbn. lia.
  - cbn [digits_value] in H. destruct (digit_of c) as [d |] eqn:Ed; [| discriminate H].
    apply digit_of_range in Ed.
    specialize (IH (10 * acc + d) ltac:(lia) H).
    cbn [String.length]. rewrite Nat2Z.inj_succ, Z.pow_succ_r by lia.
    assert (0 < 10 ^ Z.of_nat (String.length s)) by (apply Z.pow_pos_nonneg; lia).
    nia.
Qed.

Lemma digits_value_is_digits (s : string) (acc v : Z) :
  digits_value acc s = Some v -> is_digits s = true.
Proof.
  revert acc. induction s as [| c s IH]; intros acc H; [reflexivity |].
  cbn [digits_value is_digits] in *.
  destruct (digit_of c); [eapply IH; exact H | discriminate H].
Qed.

(** *** The digits of a number *)

Lemma digits_value_uint_acc (l : Decimal.uint) (acc : positive) :
  digits_value (Z.pos acc) (NilEmpty.string_of_uint l)
  = Some (Z.pos (Pos.of_uint_acc l acc)).
Proof.
  revert acc.
  induction l as [| l IH | l IH | l IH | l IH | l IH | l IH | l IH | l IH | l IH | l IH];
    intros acc; cbn [NilEmpty.string_of_uint digits_value Pos.of_uint_acc];
    [reflexivity | ..];
    match goal with
    | |- context [digit_of ?c] =>
        let d := eval vm_compute in (digit_of c) in change (digit_of c) with d
    end; cbv iota beta;
    rewrite <- IH; f_equal; lia.
Qed.

Lemma digits_value_uint (l : Decimal.uint) :
  digits_value 0 (NilEmpty.string_of_uint l) = Some (Z.of_N (Pos.of_uint l)).
Proof.
  induction l as [| l IH | l IH | l IH | l IH | l IH | l IH | l IH | l IH | l IH | l IH];
    cbn [NilEmpty.string_of_uint digits_value Pos.of_uint];
    [reflexivity | ..];
    match goal with
    | |- context [digit_of ?c] =>
        let d := eval vm_compute in (digit_of c) in change (digit_of c) with d
    end; cbv iota beta;
    [exact IH | ..];
    match goal with
    | |- digits_value ?a _ = _ =>
        let p := eval vm_compute in (Z.to_pos a) in
        change a with (Z.pos p); apply digits_value_uint_acc
    end.
Qed.

Lemma digits_of_value (n : Z) :
  0 <= n -> digits_value 0 (DataPreprocessing.digits_of n) = Some n.
Proof.
  intros Hn. unfold DataPreprocessing.digits_of, NilZero.string_of_uint.
  set (d := N.to_uint (Z.to_N n)).
  assert (Hd : Pos.of_uint d = Z.to_N n) by apply DecimalN.Unsigned.of_to.
  assert (Hv : digits_value 0 (NilEmpty.string_of_uint d) = Some n).
  { rewrite digits_value_uint, Hd. f_equal. lia. }
  destruct d; exact Hv.
Qed.

(** A positive number is printed without a leading zero. *)
Lemma digits_of_head (n : Z) :
  0 < n ->
  exists c rest d,
    DataPreprocessing.digits_of n = String c rest /\
    digit_of c = Some d /\ 1 <= d.
Proof.
  intros Hn. unfold DataPreprocessing.digits_of.
  set (x := Z.to_N n).
  assert (Hx : x <> 0%N) by lia.
  pose proof (DecimalN.Unsigned.to_of (N.to_uint x)) as Hnorm.
  rewrite DecimalN.Unsigned.of_to in Hnorm.
  assert (Hnz : Decimal.nzhead (N.to_uint x) <> Decimal.Nil).
  { intros Hnil. apply DecimalFacts.unorm_0 in Hnil. rewrite <- Hnorm in Hnil.
    apply Hx. rewrite <- (DecimalN.Unsigned.of_to x), Hnil. reflexivity. }
  rewrite (DecimalFacts.unorm_nzhead _ Hnz) in Hnorm.
  pose proof (DecimalFacts.nzhead_nonzero (N.to_uint x)) as H0.
  rewrite <- Hnorm in H0, Hnz.
  destruct (N.to_uint x) as [| u | u | u | u | u | u | u | u | u | u];
    [exfalso; apply Hnz; reflexivity | exfalso; apply (H0 u); reflexivity | ..];
    cbn [NilZero.string_of_uint NilEmpty.string_of_uint];
    eexists; eexists; eexists; (split; [reflexivity |]);
    (split; [vm_compute; reflexivity | lia]).
Qed.


(** *** Texts and their parts *)



Lemma append_assoc (a b c : string) : ((a ++ b) ++ c = a ++ (b ++ c))%string.
Proof. induction a as [| x a IH]; cbn [append]; [reflexivity | rewrite IH; reflexivity]. Qed.





Lemma contains_app (c : ascii) (a b : string) :
  contains c (a ++ b)%string = contains c a || contains c b.
Proof.
  induction a as [| x a IH]; cbn [append contains]; [reflexivity |].
  rewrite IH. apply orb_assoc.
Qed.

Lemma is_digits_free (c : ascii) (s : string) :
  digit_of c = None -> is_digits s = true -> contains c s = false.
Proof.
  intros Hc. induction s as [| x s IH]; intros H; [reflexivity |].
  cbn [is_digits contains] in *.
  destruct (digit_of x) eqn:Ex; [| discriminate H].
  rewrite (IH H), orb_false_r. apply Ascii.eqb_neq. intros ->. congruence.
Qed.

Lemma split_on_free (sep : ascii) (s : string) :
  contains sep s = false -> split_on sep s = [s].
Proof.
  induction s as [| c s IH]; intros H; [reflexivity |].
  cbn [contains split_on] in *. apply orb_false_iff in H. destruct H as [Hc Hs].
  rewrite Hc, (IH Hs). reflexivity.
Qed.

Lemma split_on_app (sep : ascii) (a b : string) :
  contains sep a = false ->
  split_on sep (a ++ String sep b)%string = a :: split_on sep b.
Proof.
  induction a as [| c a IH]; intros H.
  - cbn [append split_on]. rewrite Ascii.eqb_refl. reflexivity.
  - cbn [contains append split_on] in *. apply orb_false_iff in H.
    destruct H as [Hc Ha]. rewrite Hc, (IH Ha). reflexivity.
Qed.


(** *** The number of decimal places *)


(** ** Degree-minute coordinates: the value *)









(** ** Local date and time to UTC *)

Module DatetimeFacts.
Import DataPreprocessing DatetimePreprocessing.

Example irkutsk_rows_are_shifted :
  convert_datetime_irkutsk
    [("DATE", [CStr "07/21/2020"; CStr "1/1/2021"; CStr "03/01/2020"]);
     ("TIME", [CStr "09:05"; CStr "7:30"; CStr "02:00"]);
     ("CHL", [CFloat 1; CFloat 2; CFloat 3])]
  = Return [("CHL", [CFloat 1; CFloat 2; CFloat 3]);
            ("datetime", [CStr "2020-07-21T01:05:00"; CStr "2020-12-31T23:30:00";
                          CStr "2020-02-29T18:00:00"])].
Proof. vm_compute. reflexivity. Qed.

(** *** Calendar arithmetic *)

Lemma days_in_month_range (y m : Z) : 28 <= days_in_month y m <= 31.
Proof.
  unfold days_in_month.
  destruct (m =? 2); [destruct (is_leap y); lia |].
  destruct ((m =? 4) || (m =? 6) || (m =? 9) || (m =? 11)); lia.
Qed.

Lemma days_from_civil_next_day (y m d : Z) :
  days_from_civil y m (d - 1) = days_from_civil y m d - 1.
Proof. unfold days_from_civil. cbv zeta. lia. Qed.

Lemma march_first (y : Z) :
  days_from_civil y 2 (if is_leap y then 29 else 28) = days_from_civil y 3 1 - 1.
Proof.
  unfold days_from_civil, is_leap. cbv zeta.
  change (3 <=? 2) with false. change (2 <=? 2) with true. cbv iota.
  change ((2 + 9) mod 12) with 11. change ((3 + 9) mod 12) with 0.
  change ((153 * 11 + 2) / 5) with 337. change ((153 * 0 + 2) / 5) with 0.
  pose proof (Z.div_mod y 400 ltac:(lia)) as Hy.
  pose proof (Z.mod_pos_bound y 400 ltac:(lia)) as Hr.
  set (e := y / 400) in *. set (r := y mod 400) in *.
  assert (H4 : y mod 4 = r mod 4).
  { rewrite Hy. rewrite Z.add_comm. replace (400 * e) with (100 * e * 4) by lia.
    apply Z.mod_add. lia. }
  assert (H100 : y mod 100 = r mod 100).
  { rewrite Hy. rewrite Z.add_comm. replace (400 * e) with (4 * e * 100) by lia.
    apply Z.mod_add. lia. }
  rewrite H4, H100.
  assert (Hprev : (r = 0 /\ (y - 1) / 400 = e - 1) \/ (0 < r /\ (y - 1) / 400 = e)).
  { destruct (Z.eq_dec r 0) as [E | E].
    - left. split; [exact E |]. symmetry. apply (Z.div_unique _ _ _ 399); lia.
    - right. split; [lia |]. symmetry. apply (Z.div_unique _ _ _ (r - 1)); lia. }
  destruct Hprev as [[Hr0 ->] | [Hrpos ->]].
  - rewrite Hr0 in *. replace (y - 1 - (e - 1) * 400) with 399 by lia.
    replace (y - e * 400) with 0 by lia. cbn. lia.
  - replace (y - 1 - e * 400) with (r - 1) by lia.
    replace (y - e * 400) with r by lia.
    assert (Hr0 : (r =? 0) = false) by (apply Z.eqb_neq; lia). rewrite Hr0, orb_false_r.
    clear - Hr Hrpos.
    assert (Hall : forallb
              (fun r =>
                 (r - 1) / 4 - (r - 1) / 100
                 + (if (r mod 4 =? 0) && negb (r mod 100 =? 0) then 29 else 28)
                 =? r / 4 - r / 100 + 28)
              (map Z.of_nat (seq 1 399)) = true) by (vm_compute; reflexivity).
    rewrite forallb_forall in Hall. specialize (Hall r).
    assert (Hin : In r (map Z.of_nat (seq 1 399))).
    { apply in_map_iff. exists (Z.to_nat r). split; [lia |]. apply in_seq. lia. }
    apply Hall, Z.eqb_eq in Hin. cbv beta in Hin. lia.
Qed.

Lemma month_step (y m1 m2 : Z) :
  (m1 <=? 2) = (m2 <=? 2) ->
  (153 * ((m1 + 9) mod 12) + 2) / 5 + days_in_month y m1
  = (153 * ((m2 + 9) mod 12) + 2) / 5 ->
  days_from_civil y m1 (days_in_month y m1) = days_from_civil y m2 1 - 1.
Proof.
  unfold days_from_civil. cbv zeta. intros -> H.
  set (a := (153 * ((m1 + 9) mod 12) + 2) / 5) in *.
  set (b := (153 * ((m2 + 9) mod 12) + 2) / 5) in *.
  set (y' := if m2 <=? 2 then y - 1 else y).
  set (era := y' / 400). set (yoe := y' - era * 400).
  set (c := yoe / 4). set (e := yoe / 100). lia.
Qed.

Lemma new_year (y : Z) : days_from_civil (y - 1) 12 31 = days_from_civil y 1 1 - 1.
Proof.
  unfold days_from_civil. cbv zeta.
  change (12 <=? 2) with false. change (1 <=? 2) with true. cbv iota.
  change ((12 + 9) mod 12) with 9. change ((1 + 9) mod 12) with 10.
  change ((153 * 9 + 2) / 5) with 275. change ((153 * 10 + 2) / 5) with 306.
  set (era := (y - 1) / 400). set (yoe := y - 1 - era * 400).
  set (c := yoe / 4). set (e := yoe / 100). lia.
Qed.

(** The day before a valid date is a valid date, one day earlier. *)
Lemma previous_day_spec (y m d : Z) :
  1 <= m <= 12 ->
  1 <= d <= days_in_month y m ->
  exists y' m' d',
    previous_day y m d = (y', m', d') /\
    days_from_civil y' m' d' = days_from_civil y m d - 1 /\
    y - 1 <= y' <= y /\
    1 <= m' <= 12 /\
    1 <= d' <= days_in_month y' m'.
Proof.
  intros Hm Hd. unfold previous_day.
  destruct (1 <? d) eqn:Ed.
  - apply Z.ltb_lt in Ed. exists y, m, (d - 1).
    split; [reflexivity |]. split; [apply days_from_civil_next_day |]. lia.
  - apply Z.ltb_ge in Ed. assert (d = 1) by lia. subst d.
    destruct (1 <? m) eqn:Em.
    + apply Z.ltb_lt in Em. exists y, (m - 1), (days_in_month y (m - 1)).
      split; [reflexivity |].
      pose proof (days_in_month_range y (m - 1)).
      split; [| lia].
      assert (Hcases : m = 2 \/ m = 3 \/ m = 4 \/ m = 5 \/ m = 6 \/ m = 7 \/ m = 8 \/
                       m = 9 \/ m = 10 \/ m = 11 \/ m = 12) by lia.
      destruct Hcases as [-> | [-> | [-> | [-> | [-> | [-> | [-> | [-> | [-> | [-> | ->]]]]]]]]]];
        try (apply month_step; reflexivity).
      exact (march_first y).
    + exists (y - 1), 12, 31. apply Z.ltb_ge in Em. assert (m = 1) by lia. subst m.
      split; [reflexivity |]. split; [apply new_year |].
      split; [lia |]. split; [lia |]. unfold days_in_month. cbn. lia.
Qed.

(** *** Eight hours earlier *)

Lemma minus_hours_spec (n : Z) (dt : pydatetime) :
  0 <= n <= 24 ->
  valid_datetime dt ->
  valid_datetime (minus_hours n dt) /\
  instant (minus_hours n dt) = instant dt - n * hour_ms /\
  year dt - 1 <= year (minus_hours n dt) <= year dt.
Proof.
  intros Hn [Hm [Hd [Hh [Hmi Hs]]]]. unfold minus_hours.
  destruct (n <=? hour dt) eqn:E.
  - apply Z.leb_le in E. unfold valid_datetime, instant, hour_ms, day_ms.
    cbn [year month day hour minute second]. repeat split; try lia.
  - apply Z.leb_gt in E.
    destruct (previous_day_spec (year dt) (month dt) (day dt) Hm Hd)
      as [y' [m' [d' [Hp [Hdays [Hy [Hm' Hd']]]]]]].
    rewrite Hp. unfold valid_datetime, instant, hour_ms, day_ms.
    cbn [year month day hour minute second]. rewrite Hdays.
    repeat split; try lia.
Qed.

(** *** Writing a date and reading it back *)

Lemma digits_of_nonempty (n : Z) : 0 <= n -> digits_of n <> EmptyString.
Proof.
  intros H. destruct (Z.eq_dec n 0) as [-> | Hn]; [discriminate |].
  destruct (digits_of_head n ltac:(lia)) as [c [rest [d [E _]]]]. rewrite E. discriminate.
Qed.

Lemma two_digits_value (v : Z) :
  0 <= v ->
  digits_value 0 (two_digits v) = Some v /\ two_digits v <> EmptyString.
Proof.
  intros H. unfold two_digits. destruct (v <? 10).
  - split; [| discriminate]. cbn [digits_value]. change (digit_of "0") with (Some 0).
    cbv beta iota. apply digits_of_value, H.
  - split; [apply digits_of_value, H | apply digits_of_nonempty, H].
Qed.

Lemma number_of_digits (s : string) (v : Z) :
  digits_value 0 s = Some v -> s <> EmptyString -> number_of s = Some v.
Proof. intros H Hne. destruct s; [congruence | exact H]. Qed.

Lemma split_on_three (sep : ascii) (a b c : string) :
  contains sep a = false -> contains sep b = false -> contains sep c = false ->
  split_on sep (a ++ String sep (b ++ String sep c))%string = [a; b; c].
Proof.
  intros Ha Hb Hc.
  rewrite (split_on_app sep a _ Ha), (split_on_app sep b _ Hb), (split_on_free sep c Hc).
  reflexivity.
Qed.

Lemma split_on_two (sep : ascii) (a b : string) :
  contains sep a = false -> contains sep b = false ->
  split_on sep (a ++ String sep b)%string = [a; b].
Proof.
  intros Ha Hb. rewrite (split_on_app sep a _ Ha), (split_on_free sep b Hb). reflexivity.
Qed.

Ltac free_of_sep :=
  repeat first
    [ rewrite contains_app
    | progress cbn [contains]
    | match goal with
      | H : is_digits ?s = true |- context [contains ?c ?s] =>
          rewrite (is_digits_free c s eq_refl H)
      end ];
  reflexivity.

(** The text [strftime] writes for a valid [datetime] from the year 1000 on
    is read by the matcher's timestamp parser as the same instant. *)
Lemma strftime_is_read_back (dt : pydatetime) :
  valid_datetime dt ->
  1000 <= year dt ->
  exists text,
    strftime dt = Ok text /\ parse_timestamp text = Some (instant dt).
Proof.
  intros [Hm [Hd [Hh [Hmi Hs]]]] Hy. unfold strftime.
  destruct (year dt <? 1000) eqn:E; [apply Z.ltb_lt in E; lia |].
  eexists. split; [reflexivity |].
  pose proof (digits_of_value (year dt) ltac:(lia)) as VY.
  pose proof (digits_of_nonempty (year dt) ltac:(lia)) as NY.
  destruct (two_digits_value (month dt) ltac:(lia)) as [VM NM].
  destruct (two_digits_value (day dt) ltac:(lia)) as [VD ND].
  destruct (two_digits_value (hour dt) ltac:(lia)) as [VH NH].
  destruct (two_digits_value (minute dt) ltac:(lia)) as [VMi NMi].
  destruct (two_digits_value (second dt) ltac:(lia)) as [VS NS].
  pose proof (digits_value_is_digits _ _ _ VY) as DY.
  pose proof (digits_value_is_digits _ _ _ VM) as DM.
  pose proof (digits_value_is_digits _ _ _ VD) as DD.
  pose proof (digits_value_is_digits _ _ _ VH) as DH.
  pose proof (digits_value_is_digits _ _ _ VMi) as DMi.
  pose proof (digits_value_is_digits _ _ _ VS) as DS.
  set (Y := digits_of (year dt)) in *. set (Mo := two_digits (month dt)) in *.
  set (D := two_digits (day dt)) in *. set (H := two_digits (hour dt)) in *.
  set (Mi := two_digits (minute dt)) in *. set (S := two_digits (second dt)) in *.
  set (date_text := (Y ++ String "-" (Mo ++ String "-" D))%string).
  set (time_text := (H ++ String ":" (Mi ++ String ":" S))%string).
  assert (Etext : (Y ++ "-" ++ Mo ++ "-" ++ D ++ "T" ++ H ++ ":" ++ Mi ++ ":" ++ S)%string
                  = (date_text ++ String "T" time_text)%string).
  { unfold date_text, time_text. rewrite !append_assoc. cbn [append].
    rewrite !append_assoc. reflexivity. }
  rewrite Etext. unfold parse_timestamp.
  assert (Hsplit : split_on "T" (date_text ++ String "T" time_text)%string
                   = [date_text; time_text]).
  { apply split_on_two; unfold date_text, time_text; free_of_sep. }
  rewrite Hsplit.
  assert (Hdate : date_part date_text
                  = Some (days_from_civil (year dt) (month dt) (day dt))).
  { unfold date_part, date_text.
    rewrite split_on_three by free_of_sep. cbn [map].
    rewrite (number_of_digits Y _ VY NY), (number_of_digits Mo _ VM NM),
      (number_of_digits D _ VD ND).
    assert (Hok : (1 <=? month dt) && (month dt <=? 12) && (1 <=? day dt)
                  && (day dt <=? days_in_month (year dt) (month dt)) = true).
    { rewrite !andb_true_iff, !Z.leb_le. lia. }
    rewrite Hok. reflexivity. }
  assert (Htime : time_part time_text
                  = Some (((hour dt * 60 + minute dt) * 60 + second dt) * 1000)).
  { unfold time_part, time_text.
    rewrite split_on_three by free_of_sep. cbn [map].
    rewrite (number_of_digits H _ VH NH), (number_of_digits Mi _ VMi NMi),
      (number_of_digits S _ VS NS).
    assert (Hok : (hour dt <=? 23) && (minute dt <=? 59) && (second dt <=? 59) = true).
    { rewrite !andb_true_iff, !Z.leb_le. lia. }
    rewrite Hok. reflexivity. }
  rewrite Hdate, Htime. reflexivity.
Qed.

(** *** Reading the local date and time *)

Lemma field_inv (lo hi : Z) (s : string) (v : Z) :
  field lo hi s = Some v ->
  digits_value 0 s = Some v /\ lo <= v <= hi /\ s <> EmptyString.
Proof.
  unfold field.
  destruct (Nat.eqb (String.length s) 1 || Nat.eqb (String.length s) 2)%bool eqn:El;
    [| discriminate].
  destruct (digits_value 0 s) as [w |]; [| discriminate].
  destruct ((lo <=? w) && (w <=? hi)) eqn:Er; [| discriminate].
  intros [= <-]. apply andb_true_iff in Er. destruct Er as [E1 E2].
  apply Z.leb_le in E1, E2. split; [reflexivity |]. split; [lia |].
  intros ->. discriminate El.
Qed.

Lemma year_field_inv (s : string) (y : Z) :
  year_field s = Some y -> digits_value 0 s = Some y /\ 0 <= y.
Proof.
  unfold year_field. destruct (Nat.eqb (String.length s) 4); [| discriminate].
  intros H. split; [exact H |].
  pose proof (digits_value_bound s 0 y ltac:(lia) H). lia.
Qed.

Lemma digit_not_space (c : ascii) (d : Z) : digit_of c = Some d -> is_space c = false.
Proof.
  destruct c as [[] [] [] [] [] [] [] []]; intros H; try reflexivity;
    vm_compute in H; discriminate H.
Qed.

Lemma digit_is_ascii (c : ascii) (d : Z) :
  digit_of c = Some d -> (nat_of_ascii c <? 128)%nat = true.
Proof.
  destruct c as [[] [] [] [] [] [] [] []]; intros H; try reflexivity;
    vm_compute in H; discriminate H.
Qed.

Lemma is_digits_spaceless (s : string) : is_digits s = true -> spaceless s = true.
Proof.
  induction s as [| c s IH]; intros H; [reflexivity |].
  cbn [is_digits spaceless] in *. destruct (digit_of c) as [d |] eqn:E; [| discriminate H].
  rewrite (digit_not_space c d E), (IH H). reflexivity.
Qed.

Lemma is_digits_ascii (s : string) : is_digits s = true -> is_ascii s = true.
Proof.
  induction s as [| c s IH]; intros H; [reflexivity |].
  cbn [is_digits is_ascii] in *. destruct (digit_of c) as [d |] eqn:E; [| discriminate H].
  rewrite (digit_is_ascii c d E), (IH H). reflexivity.
Qed.

Lemma spaceless_app (a b : string) :
  spaceless (a ++ b)%string = spaceless a && spaceless b.
Proof.
  induction a as [| c a IH]; cbn [append spaceless]; [reflexivity |].
  rewrite IH. apply andb_assoc.
Qed.

Lemma is_ascii_app (a b : string) :
  is_ascii (a ++ b)%string = is_ascii a && is_ascii b.
Proof.
  induction a as [| c a IH]; cbn [append is_ascii]; [reflexivity |].
  rewrite IH. apply andb_assoc.
Qed.

Lemma cut_at_space_app (a r : string) (c : ascii) :
  spaceless a = true -> is_space c = true ->
  cut_at_space (a ++ String c r)%string = (a, Some (String c r)).
Proof.
  intros Ha Hc. induction a as [| x a IH].
  - cbn [append cut_at_space]. rewrite Hc. reflexivity.
  - cbn [spaceless] in Ha. apply andb_true_iff in Ha. destruct Ha as [Hx Ha].
    apply negb_true_iff in Hx. cbn [append cut_at_space]. rewrite Hx, (IH Ha).
    reflexivity.
Qed.

Lemma skip_spaces_digits (s r : string) :
  is_digits s = true -> s <> EmptyString ->
  skip_spaces (String " " (s ++ r)) = (s ++ r)%string.
Proof.
  intros Hs Hne. destruct s as [| c s]; [congruence |].
  cbn [is_digits] in Hs. destruct (digit_of c) as [d |] eqn:E; [| discriminate Hs].
  cbn [skip_spaces append]. change (is_space " ") with true. cbv iota.
  rewrite (digit_not_space c d E). reflexivity.
Qed.

(** What [strptime] reads in a text put together from well-formed parts. *)
Lemma strptime_of_parts (Y M D H Mi : string) (y m d h mi : Z) :
  year_field Y = Some y ->
  field 1 12 M = Some m ->
  field 1 31 D = Some d ->
  field 0 23 H = Some h ->
  field 0 59 Mi = Some mi ->
  1 <= y ->
  d <= days_in_month y m ->
  strptime ((((Y ++ "-" ++ M ++ "-" ++ D) ++ " ") ++ (H ++ ":" ++ Mi)) ++ ":00")
  = Ok (mkDatetime y m d h mi 0).
Proof.
  intros HY HM HD HH HMi Hy Hd.
  destruct (year_field_inv _ _ HY) as [VY _].
  destruct (field_inv _ _ _ _ HM) as [VM [RM NM]].
  destruct (field_inv _ _ _ _ HD) as [VD [RD ND]].
  destruct (field_inv _ _ _ _ HH) as [VH [RH NH]].
  destruct (field_inv _ _ _ _ HMi) as [VMi [RMi NMi]].
  pose proof (digits_value_is_digits _ _ _ VY) as DY.
  pose proof (digits_value_is_digits _ _ _ VM) as DM.
  pose proof (digits_value_is_digits _ _ _ VD) as DD.
  pose proof (digits_value_is_digits _ _ _ VH) as DH.
  pose proof (digits_value_is_digits _ _ _ VMi) as DMi.
  set (date_text := (Y ++ String "-" (M ++ String "-" D))%string).
  set (time_text := (H ++ String ":" (Mi ++ String ":" "00"))%string).
  assert (Etext : ((((Y ++ "-" ++ M ++ "-" ++ D) ++ " ") ++ (H ++ ":" ++ Mi)) ++ ":00")%string
                  = (date_text ++ String " " time_text)%string).
  { unfold date_text, time_text. rewrite !append_assoc. cbn [append].
    rewrite !append_assoc. reflexivity. }
  rewrite Etext. unfold strptime.
  assert (Hascii : is_ascii (date_text ++ String " " time_text) = true).
  { unfold date_text, time_text.
    repeat first [rewrite is_ascii_app | progress cbn [is_ascii]].
    rewrite (is_digits_ascii Y DY), (is_digits_ascii M DM), (is_digits_ascii D DD),
      (is_digits_ascii H DH), (is_digits_ascii Mi DMi). reflexivity. }
  rewrite Hascii. cbn [negb].
  assert (Hcut : cut_at_space (date_text ++ String " " time_text)
                 = (date_text, Some (String " " time_text))).
  { apply cut_at_space_app; [| reflexivity]. unfold date_text.
    repeat first [rewrite spaceless_app | progress cbn [spaceless]].
    rewrite (is_digits_spaceless Y DY), (is_digits_spaceless M DM),
      (is_digits_spaceless D DD). reflexivity. }
  rewrite Hcut.
  assert (Hdate : split_on "-" date_text = [Y; M; D]).
  { unfold date_text. apply split_on_three; free_of_sep. }
  rewrite Hdate.
  assert (Htime : split_on ":" (skip_spaces (String " " time_text)) = [H; Mi; "00"]).
  { unfold time_text. rewrite (skip_spaces_digits H _ DH NH).
    apply split_on_three; free_of_sep. }
  rewrite Htime, HY, HM, HD, HH, HMi.
  change (field 0 59 "00") with (Some 0).
  assert (Hok : (1 <=? y) && (d <=? days_in_month y m) = true).
  { rewrite andb_true_iff, !Z.leb_le. lia. }
  rewrite Hok. destruct D; [congruence | reflexivity].
Qed.

(** Whatever [strptime] returns has its fields in range. *)
Lemma strptime_valid (s : string) (dt : pydatetime) :
  strptime s = Ok dt -> valid_datetime dt /\ 1 <= year dt.
Proof.
  unfold strptime. destruct (negb (is_ascii s)); [discriminate |].
  destruct (cut_at_space s) as [date_text [from |]]; [| discriminate].
  destruct (split_on "-" date_text) as [| y [| m [| d [| x l]]]]; try discriminate.
  destruct d as [| c d']; [discriminate |].
  destruct (year_field y) as [vy |]; [| discriminate].
  destruct (field 1 12 m) as [vm |] eqn:Em; [| discriminate].
  destruct (field 1 31 (String c d')) as [vd |] eqn:Ed; [| discriminate].
  destruct (split_on ":" (skip_spaces from)) as [| h [| mi [| sec [| x l]]]];
    try discriminate.
  destruct (field 0 23 h) as [vh |] eqn:Eh; [| discriminate].
  destruct (field 0 59 mi) as [vmi |] eqn:Emi; [| discriminate].
  destruct (field 0 59 sec) as [vs |] eqn:Es; [| discriminate].
  destruct ((1 <=? vy) && (vd <=? days_in_month vy vm)) eqn:Eok; [| discriminate].
  intros [= <-]. apply andb_true_iff in Eok. destruct Eok as [E1 E2].
  apply Z.leb_le in E1, E2.
  destruct (field_inv _ _ _ _ Em) as [_ [? _]].
  destruct (field_inv _ _ _ _ Ed) as [_ [? _]].
  destruct (field_inv _ _ _ _ Eh) as [_ [? _]].
  destruct (field_inv _ _ _ _ Emi) as [_ [? _]].
  destruct (field_inv _ _ _ _ Es) as [_ [? _]].
  unfold valid_datetime. cbn [year month day hour minute second]. lia.
Qed.

(** *** The conversion of a row *)

(** X13.  A local date and time become the UTC timestamp of the same
    instant minus eight hours, in the spelling the matcher reads.  For a row
    whose DATE is [M/D/Y] (a month of one or two digits, a day of one or two
    digits that exists in that month, a year of four digits after 1000) and
    whose TIME is [H:Mi] (an hour up to 23 and a minute up to 59, of one or
    two digits), the loop body yields a text that the matcher's timestamp
    parser reads as the instant of that civil date and time, minus eight
    hours; the date rolls back over the ends of months and years and over
    29 February. *)
Theorem irkutsk_time_is_written_as_utc :
  forall (data_frame : DataFrame) (i : nat) (M D Y H Mi : string) (y m d h mi : Z),
    year_field Y = Some y ->
    1000 < y ->
    field 1 12 M = Some m ->
    field 1 31 D = Some d ->
    d <= days_in_month y m ->
    field 0 23 H = Some h ->
    field 0 59 Mi = Some mi ->
    time_at data_frame i = Ok (CStr (H ++ ":" ++ Mi)) ->
    exists text,
      convert_entry data_frame i (CStr (M ++ "/" ++ D ++ "/" ++ Y)) = Return text /\
      parse_timestamp text
      = Some (days_from_civil y m d * day_ms + (h * 60 + mi) * 60000 - 8 * hour_ms).
Proof.
  intros data_frame i M D Y H Mi y m d h mi HY Hy HM HD Hd HH HMi Htime.
  destruct (year_field_inv _ _ HY) as [VY _].
  destruct (field_inv _ _ _ _ HM) as [VM [RM _]].
  destruct (field_inv _ _ _ _ HD) as [VD [RD _]].
  destruct (field_inv _ _ _ _ HH) as [_ [RH _]].
  destruct (field_inv _ _ _ _ HMi) as [_ [RMi _]].
  pose proof (digits_value_is_digits _ _ _ VY) as DY.
  pose proof (digits_value_is_digits _ _ _ VM) as DM.
  pose proof (digits_value_is_digits _ _ _ VD) as DD.
  set (dt := mkDatetime y m d h mi 0).
  assert (Hvalid : valid_datetime dt).
  { unfold valid_datetime, dt. cbn [year month day hour minute second]. lia. }
  destruct (minus_hours_spec 8 dt ltac:(lia) Hvalid) as [Hv8 [Hi8 Hy8]].
  destruct (strftime_is_read_back (minus_hours 8 dt) Hv8) as [text [Hfmt Hread]].
  { change (year dt) with y in Hy8. lia. }
  exists text. split.
  - unfold convert_entry. cbv zeta.
    assert (Hsplit : split_on "/" (M ++ "/" ++ D ++ "/" ++ Y) = [M; D; Y]).
    { change (M ++ "/" ++ D ++ "/" ++ Y)%string
        with (M ++ String "/" (D ++ String "/" Y))%string.
      apply split_on_three; free_of_sep. }
    rewrite Hsplit. cbn [date_of last and_then]. rewrite Htime.
    cbn [lift and_then concat_cell join].
    rewrite (strptime_of_parts Y M D H Mi y m d h mi HY HM HD HH HMi ltac:(lia) Hd).
    cbn [lift and_then]. fold dt. rewrite Hfmt. reflexivity.
  - rewrite Hread, Hi8. f_equal. unfold instant, dt, hour_ms, day_ms.
    cbn [year month day hour minute second]. lia.
Qed.

Lemma irkutsk_time_is_written_as_utc_witness :
  exists text,
    convert_entry [("DATE", [CStr "3/1/2020"]); ("TIME", [CStr "02:30"])] 0
                  (CStr "3/1/2020") = Return text /\
    parse_timestamp text
    = Some (days_from_civil 2020 3 1 * day_ms + (2 * 60 + 30) * 60000 - 8 * hour_ms).
Proof.
  apply (irkutsk_time_is_written_as_utc
           [("DATE", [CStr "3/1/2020"]); ("TIME", [CStr "02:30"])] 0%nat
           "3" "1" "2020" "02" "30" 2020 3 1 2 30);
    try reflexivity.
  vm_compute. discriminate.
Defined.

(** *** The table *)

Lemma for_all_Forall2 {A B : Type} (f : A -> answer B) (xs : list A) (ys : list B) :
  for_all f xs = Return ys -> Forall2 (fun x y => f x = Return y) xs ys.
Proof.
  revert ys. induction xs as [| x xs IH]; cbn [for_all]; intros ys H.
  - injection H as <-. constructor.
  - destruct (f x) as [y | e] eqn:Ex; [| discriminate H]. cbn [and_then] in H.
    destruct (for_all f xs) as [ys' | e]; [| discriminate H]. cbn [and_then] in H.
    injection H as <-. constructor; [exact Ex | apply IH; reflexivity].
Qed.

Lemma for_all_first_raise {A B : Type} (f : A -> answer B) (pre post : list A)
      (x : A) (e : exn) :
  Forall (fun a => exists b, f a = Return b) pre ->
  f x = Raise e ->
  for_all f (pre ++ x :: post) = Raise e.
Proof.
  intros Hpre Hx. induction Hpre as [| a pre [b Hb] _ IH]; cbn [app for_all].
  - rewrite Hx. reflexivity.
  - rewrite Hb. cbn [and_then]. rewrite IH. reflexivity.
Qed.

Lemma combine_seq_app {A : Type} (pre rest : list A) (k : nat) :
  combine (seq k (List.length (pre ++ rest))) (pre ++ rest)
  = combine (seq k (List.length pre)) pre
    ++ combine (seq (k + List.length pre) (List.length rest)) rest.
Proof.
  revert k. induction pre as [| a pre IH]; intros k.
  - cbn [app List.length seq combine]. rewrite Nat.add_0_r. reflexivity.
  - cbn [app List.length seq combine]. rewrite IH.
    replace (S k + List.length pre)%nat with (k + S (List.length pre))%nat by lia.
    reflexivity.
Qed.

Lemma enumerate_app {A : Type} (pre : list A) (x : A) (post : list A) :
  enumerate (pre ++ x :: post)
  = enumerate pre ++ (List.length pre, x)
    :: combine (seq (S (List.length pre)) (List.length post)) post.
Proof.
  unfold enumerate. rewrite combine_seq_app. reflexivity.
Qed.

Lemma has_column_in (name : string) (df : DataFrame) :
  has_column name df = true <-> In name (map fst df).
Proof.
  unfold has_column. rewrite existsb_exists. split.
  - intros [c [Hc E]]. apply String.eqb_eq in E. subst name. apply in_map, Hc.
  - intros H. apply in_map_iff in H. destruct H as [c [<- Hc]].
    exists c. split; [exact Hc | apply String.eqb_refl].
Qed.

Lemma column_app (n : string) (a b : DataFrame) :
  column n (a ++ b)
  = match column n a with
    | Ok c => Ok c
    | Err _ => if has_column n a then column n a else column n b
    end.
Proof.
  induction a as [| [k c] a IH]; cbn [app column]; [reflexivity |].
  unfold has_column. cbn [existsb fst].
  destruct (String.eqb k n); [reflexivity |]. cbn [orb]. exact IH.
Qed.

Lemma column_err_absent (n : string) (df : DataFrame) (e : error) :
  column n df = Err e -> has_column n df = false /\ e = KeyError.
Proof.
  induction df as [| [k c] df IH]; cbn [column]; intros H.
  - injection H as <-. split; reflexivity.
  - unfold has_column. cbn [existsb fst].
    destruct (String.eqb k n); [discriminate H |]. exact (IH H).
Qed.

(** Reading a column after an assignment. *)
Lemma column_set_column (n name : string) (data : list cell) (df : DataFrame) :
  column n (set_column name data df)
  = if String.eqb n name then Ok data else column n df.
Proof.
  unfold set_column.
  destruct (existsb (fun c : string * list cell => String.eqb (fst c) name) df) eqn:E.
  - rewrite CoordinateFacts.column_replaced, E. reflexivity.
  - rewrite column_app. cbn [column].
    rewrite (String.eqb_sym name n).
    destruct (column n df) as [c | e] eqn:Ec.
    + destruct (String.eqb n name) eqn:En; [| reflexivity].
      apply String.eqb_eq in En. subst n.
      apply CoordinateFacts.column_ok_in in Ec.
      assert (F : existsb (fun c : string * list cell => String.eqb (fst c) name) df = true).
      { apply existsb_exists. exists (name, c). split; [exact Ec | apply String.eqb_refl]. }
      congruence.
    + destruct (column_err_absent _ _ _ Ec) as [-> ->].
      destruct (String.eqb n name); reflexivity.
Qed.

Lemma column_filter (n : string) (keep : string -> bool) (df : DataFrame) :
  column n (filter (fun c : string * list cell => keep (fst c)) df)
  = if keep n then column n df else Err KeyError.
Proof.
  induction df as [| [k c] df IH]; cbn [filter column fst].
  - destruct (keep n); reflexivity.
  - destruct (String.eqb k n) eqn:E.
    + apply String.eqb_eq in E. subst k. destruct (keep n) eqn:Ek.
      * cbn [column]. rewrite String.eqb_refl. reflexivity.
      * rewrite IH, ?Ek. reflexivity.
    + destruct (keep k); [cbn [column]; rewrite E |]; exact IH.
Qed.

Lemma has_column_set_column (n name : string) (data : list cell) (df : DataFrame) :
  has_column n (set_column name data df) = String.eqb n name || has_column n df.
Proof.
  pose proof (column_set_column n name data df) as H.
  destruct (has_column n (set_column name data df)) eqn:E1.
  - destruct (String.eqb n name); [reflexivity |]. cbn [orb].
    destruct (has_column n df) eqn:E2; [reflexivity |].
    apply has_column_in in E1. apply in_map_iff in E1. destruct E1 as [[k c] [Hk Hin]].
    cbn [fst] in Hk. subst k.
    assert (Hcol : exists c', column n (set_column name data df) = Ok c').
    { clear - Hin. induction (set_column name data df) as [| [k' c'] l IH]; [destruct Hin |].
      cbn [column]. destruct (String.eqb k' n) eqn:E; [eexists; reflexivity |].
      destruct Hin as [Hin | Hin]; [injection Hin as -> _; rewrite String.eqb_refl in E; discriminate |].
      exact (IH Hin). }
    destruct Hcol as [c' Hc']. rewrite Hc' in H. symmetry in H.
    apply CoordinateFacts.column_ok_in in H.
    assert (F : has_column n df = true).
    { apply has_column_in. apply in_map_iff. exists (n, c'). split; [reflexivity | exact H]. }
    congruence.
  - destruct (column n (set_column name data df)) as [c | e] eqn:Ec.
    + apply CoordinateFacts.column_ok_in in Ec.
      assert (F : has_column n (set_column name data df) = true).
      { apply has_column_in. apply in_map_iff. exists (n, c). split; [reflexivity | exact Ec]. }
      congruence.
    + destruct (String.eqb n name); [discriminate H |]. cbn [orb]. symmetry in H.
      destruct (column_err_absent _ _ _ H) as [-> _]. reflexivity.
Qed.

(** X14.  The table the conversion returns.  When it returns, the table has
    lost the columns DATE and TIME, has a column [datetime] with one text per
    row, the conversion of that row's date and time, and every other column
    is returned as it was. *)
Theorem conversion_replaces_date_and_time_by_datetime :
  forall (df out : DataFrame),
    NoDup (map fst df) ->
    convert_datetime_irkutsk df = Return out ->
    column "DATE" out = Err KeyError /\
    column "TIME" out = Err KeyError /\
    (forall n, n <> "DATE" -> n <> "TIME" -> n <> "datetime" ->
       column n out = column n df) /\
    exists dates times texts,
      column "DATE" df = Ok dates /\
      column "TIME" df = Ok times /\
      column "datetime" out = Ok (map CStr texts) /\
      Forall2 (fun (ic : nat * cell) (t : string) =>
                 convert_entry df (fst ic) (snd ic) = Return t)
              (enumerate dates) texts.
Proof.
  intros df out _ H. unfold convert_datetime_irkutsk in H. cbv zeta in H.
  destruct (column "DATE" df) as [dates | e] eqn:Edate; [| discriminate H].
  cbn [lift and_then] in H.
  destruct (for_all _ (enumerate dates)) as [texts | e] eqn:Eloop; [| discriminate H].
  cbn [and_then] in H. unfold drop in H.
  set (df' := set_column "datetime" (map CStr texts) df) in *.
  destruct (forallb (fun n => has_column n df') ["DATE"; "TIME"]) eqn:Ehas;
    [| discriminate H].
  cbn [lift] in H. injection H as <-.
  cbn [forallb] in Ehas. rewrite andb_true_r in Ehas.
  apply andb_true_iff in Ehas. destruct Ehas as [_ Htime].
  unfold df' in Htime. rewrite has_column_set_column in Htime. cbn [orb] in Htime.
  change (String.eqb "TIME" "datetime") with false in Htime. cbn [orb] in Htime.
  assert (Hkeep : forall n,
             column n (filter (fun c : string * list cell =>
                                 negb (existsb (String.eqb (fst c)) ["DATE"; "TIME"])) df')
             = if negb (existsb (String.eqb n) ["DATE"; "TIME"])
               then column n df' else Err KeyError).
  { intros n.
    exact (column_filter n (fun k => negb (existsb (String.eqb k) ["DATE"; "TIME"])) df'). }
  split; [rewrite Hkeep; reflexivity |]. split; [rewrite Hkeep; reflexivity |]. split.
  - intros n H1 H2 H3. rewrite Hkeep. cbn [existsb].
    apply String.eqb_neq in H1, H2, H3. rewrite H1, H2. cbn [orb negb].
    unfold df'. rewrite column_set_column, H3. reflexivity.
  - destruct (column "TIME" df) as [times | e] eqn:Etime.
    + exists dates, times, texts. split; [reflexivity |]. split; [reflexivity |]. split.
      * rewrite Hkeep. cbn [existsb orb negb]. unfold df'.
        rewrite column_set_column. reflexivity.
      * exact (for_all_Forall2 _ _ _ Eloop).
    + destruct (column_err_absent _ _ _ Etime) as [F _]. congruence.
Qed.

Lemma conversion_replaces_date_and_time_by_datetime_witness :
  exists out,
    convert_datetime_irkutsk
      [("DATE", [CStr "1/1/2021"]); ("CHL", [CFloat 2]); ("TIME", [CStr "7:30"])]
    = Return out /\
    column "DATE" out = Err KeyError /\
    column "TIME" out = Err KeyError /\
    (forall n, n <> "DATE" -> n <> "TIME" -> n <> "datetime" ->
       column n out
       = column n [("DATE", [CStr "1/1/2021"]); ("CHL", [CFloat 2]);
                   ("TIME", [CStr "7:30"])]) /\
    exists dates times texts,
      column "DATE" [("DATE", [CStr "1/1/2021"]); ("CHL", [CFloat 2]);
                     ("TIME", [CStr "7:30"])] = Ok dates /\
      column "TIME" [("DATE", [CStr "1/1/2021"]); ("CHL", [CFloat 2]);
                     ("TIME", [CStr "7:30"])] = Ok times /\
      column "datetime" out = Ok (map CStr texts) /\
      Forall2 (fun (ic : nat * cell) (t : string) =>
                 convert_entry [("DATE", [CStr "1/1/2021"]); ("CHL", [CFloat 2]);
                                ("TIME", [CStr "7:30"])] (fst ic) (snd ic) = Return t)
              (enumerate dates) texts.
Proof.
  eexists. split; [vm_compute; reflexivity |].
  apply (conversion_replaces_date_and_time_by_datetime
           [("DATE", [CStr "1/1/2021"]); ("CHL", [CFloat 2]); ("TIME", [CStr "7:30"])]).
  - repeat constructor; simpl; intuition discriminate.
  - vm_compute. reflexivity.
Defined.

(** X15.  How the conversion fails.  It raises [KeyError] when the table has
    no column DATE, and it never returns a table when there is no column
    TIME.  Otherwise the rows are converted in order and the first row that
    cannot be converted decides: a date that is not a text raises
    [AttributeError], and a date without a slash raises [IndexError]. *)
Theorem datetime_conversion_failures :
  forall df : DataFrame,
    (~ In "DATE" (map fst df) ->
     convert_datetime_irkutsk df = Raise (Other KeyError)) /\
    (~ In "TIME" (map fst df) ->
     forall out, convert_datetime_irkutsk df <> Return out) /\
    (forall pre c post,
       column "DATE" df = Ok (pre ++ c :: post) ->
       Forall (fun ic : nat * cell =>
                 exists t, convert_entry df (fst ic) (snd ic) = Return t)
              (enumerate pre) ->
       match c with
       | CFloat _ => convert_datetime_irkutsk df = Raise (Other AttributeError)
       | CStr s =>
           contains "/" s = false ->
           convert_datetime_irkutsk df = Raise IndexError
       end).
Proof.
  intros df. split; [| split].
  - intros H. unfold convert_datetime_irkutsk. cbv zeta.
    rewrite (CoordinateFacts.column_missing "DATE" df H). reflexivity.
  - intros Hno out H. unfold convert_datetime_irkutsk in H. cbv zeta in H.
    destruct (column "DATE" df) as [dates | e]; [| discriminate H].
    cbn [lift and_then] in H.
    destruct (for_all _ (enumerate dates)) as [texts | e]; [| discriminate H].
    cbn [and_then] in H. unfold drop in H.
    destruct (forallb _ ["DATE"; "TIME"]) eqn:Ehas; [| discriminate H].
    cbn [forallb] in Ehas. rewrite andb_true_r in Ehas.
    apply andb_true_iff in Ehas. destruct Ehas as [_ Htime].
    rewrite has_column_set_column in Htime.
    change (String.eqb "TIME" "datetime") with false in Htime. cbn [orb] in Htime.
    apply Hno, has_column_in, Htime.
  - intros pre c post Hcol Hpre.
    unfold convert_datetime_irkutsk. cbv zeta. rewrite Hcol. cbn [lift and_then].
    rewrite enumerate_app.
    destruct c as [q | s].
    + rewrite (for_all_first_raise _ _ _ (List.length pre, CFloat q)
                 (Other AttributeError) Hpre eq_refl).
      reflexivity.
    + intros Hfree.
      rewrite (for_all_first_raise _ _ _ (List.length pre, CStr s) IndexError Hpre).
      * reflexivity.
      * cbn [fst snd]. unfold convert_entry. cbv zeta.
        rewrite (split_on_free "/" s Hfree). reflexivity.
Qed.

Lemma datetime_conversion_failures_witness :
  convert_datetime_irkutsk [("TIME", [CStr "7:30"])] = Raise (Other KeyError) /\
  (forall out, convert_datetime_irkutsk [("DATE", [CStr "1/1/2021"])] <> Return out) /\
  convert_datetime_irkutsk
    [("DATE", [CStr "1/1/2021"; CFloat 0]); ("TIME", [CStr "7:30"; CStr "8:00"])]
  = Raise (Other AttributeError) /\
  convert_datetime_irkutsk
    [("DATE", [CStr "1/1/2021"; CStr "2021-01-01"]); ("TIME", [CStr "7:30"; CStr "8:00"])]
  = Raise IndexError.
Proof.
  split; [| split; [| split]].
  - apply (proj1 (datetime_conversion_failures [("TIME", [CStr "7:30"])])).
    simpl. intuition discriminate.
  - apply (proj1 (proj2 (datetime_conversion_failures [("DATE", [CStr "1/1/2021"])]))).
    simpl. intuition discriminate.
  - apply (proj2 (proj2 (datetime_conversion_failures
                           [("DATE", [CStr "1/1/2021"; CFloat 0]);
                            ("TIME", [CStr "7:30"; CStr "8:00"])]))
                 [CStr "1/1/2021"] (CFloat 0) [] eq_refl).
    constructor; [eexists; vm_compute; reflexivity | constructor].
  - apply (proj2 (proj2 (datetime_conversion_failures
                           [("DATE", [CStr "1/1/2021"; CStr "2021-01-01"]);
                            ("TIME", [CStr "7:30"; CStr "8:00"])]))
                 [CStr "1/1/2021"] (CStr "2021-01-01") [] eq_refl).
    + constructor; [eexists; vm_compute; reflexivity | constructor].
    + reflexivity.
Defined.

(** X16.  The timestamps of the second table are rewritten without being
    changed.  For a text that [strptime] accepts, with a year from 1000 on,
    the loop of the script writes a text that the matcher's timestamp parser
    reads as the instant [strptime] read. *)
Theorem reformatted_timestamp_is_the_same_instant :
  forall (s : string) (dt : pydatetime),
    strptime s = Ok dt ->
    1000 <= year dt ->
    exists text,
      reformat (CStr s) = Ok text /\ parse_timestamp text = Some (instant dt).
Proof.
  intros s dt Hs Hy. destruct (strptime_valid s dt Hs) as [Hvalid _].
  destruct (strftime_is_read_back dt Hvalid Hy) as [text [Hfmt Hread]].
  exists text. split; [| exact Hread].
  unfold reformat. rewrite Hs. cbn [bind]. exact Hfmt.
Qed.

Lemma reformatted_timestamp_is_the_same_instant_witness :
  exists text,
    reformat (CStr "2019-8-5 9:07:30") = Ok text /\
    parse_timestamp text = Some (instant (mkDatetime 2019 8 5 9 7 30)).
Proof.
  apply (reformatted_timestamp_is_the_same_instant "2019-8-5 9:07:30").
  - vm_compute. reflexivity.
  - vm_compute. discriminate.
Defined.

End DatetimeFacts.
